(** * The scheduling core of the server: worker, leader loop and raft setup

    A shallow embedding of [internal/server/worker.go],
    [internal/server/leader.go] and of [setupRaft] (the server file), with
    the properties the specification states about them.

    The code talks to collaborators (the RPC layer, raft, serf, the FSM, the
    scheduler, the clock).  Every function of the source is a computation in
    a small state monad: the state (a "world") holds the mutable fields the
    function touches, the [trace] of the calls it has made so far (oldest
    first) and the [script] of the answers its collaborators are going to
    give.  Loops that the source writes with labels and [goto] take a [fuel]
    argument.  Telemetry ([metrics.MeasureSince]) is not modelled. *)

(** Beyond what the specification states, the development follows the same
    code further: whole runs of the worker ([WorkerRun]), the reconciler,
    the leader loop and the stop channels of [monitorLeadership]
    ([LeaderRun]), what [setupRaft] leaves behind ([SetupRun]), [NewServer]
    and [Shutdown] around it ([Lifecycle]), the jobs of the agent
    ([Agent], agent/job.go) and [StringContainsAll] of the base utilities
    ([Base]). *)

From Stdlib Require Import ZArith List String Bool Lia.
Import ListNotations.

Open Scope string_scope.
Open Scope list_scope.
Open Scope Z_scope.

(** ** A state monad with the three ways a goroutine fails to return *)

Inductive Stop :=
| Blocked     (* waiting on a collaborator that gives no (suitable) answer *)
| OutOfFuel   (* the model's loop bound was reached *)
| Panic.      (* a nil dereference *)

Inductive Res (W A : Type) :=
| Ret (a : A) (w : W)
| Halt (why : Stop) (w : W).

Arguments Ret {W A} a w.
Arguments Halt {W A} why w.

Definition M (W A : Type) := W -> Res W A.

Definition ret {W A} (a : A) : M W A := fun w => Ret a w.

Definition bind {W A B} (c : M W A) (k : A -> M W B) : M W B :=
  fun w => match c w with
           | Ret a w' => k a w'
           | Halt why w' => Halt why w'
           end.

Definition halt {W A} (why : Stop) : M W A := fun w => Halt why w.

Notation "x <- c1 ;; c2" := (bind c1 (fun x => c2))
  (at level 61, c1 at next level, right associativity).
Notation "c1 ;; c2" := (bind c1 (fun _ => c2))
  (at level 61, right associativity).

(** The world a result ends in, whatever the outcome. *)
Definition final {W A} (r : Res W A) : W :=
  match r with Ret _ w => w | Halt _ w => w end.

(** *** Weakest preconditions

    [wp c Q H w]: run from [w], [c] either returns a value and a world that
    satisfy [Q], or halts in a world that satisfies [H]. *)
Definition wp {W A} (c : M W A) (Q : A -> W -> Prop) (H : W -> Prop) (w : W)
  : Prop :=
  match c w with
  | Ret a w' => Q a w'
  | Halt _ w' => H w'
  end.

(** [wpx c Q H w]: as [wp], with the reason of a halt handed to [H]. *)
Definition wpx {W A} (c : M W A) (Q : A -> W -> Prop) (H : Stop -> W -> Prop)
                (w : W) : Prop :=
  match c w with
  | Ret a w' => Q a w'
  | Halt why w' => H why w'
  end.

Definition error := string.

(** Go's fixed-width integers, as [Z] with the wrap-around written out.
    [uint] is taken to be 64 bits wide. *)
Definition wrap_uint64 (z : Z) : Z := z mod 18446744073709551616.
Definition wrap_int64 (z : Z) : Z :=
  (z + 9223372036854775808) mod 18446744073709551616 - 9223372036854775808.

(** [x << n] on an [int64]: shifting by the width or more gives 0. *)
Definition shl_int64 (x n : Z) : Z :=
  if 64 <=? n then 0 else wrap_int64 (Z.shiftl x n).

(** [time.Duration] counts nanoseconds. *)
Definition Millisecond : Z := 1000000.
Definition Second : Z := 1000000000.

(** * worker.go *)
Module Worker.

Definition backoffBaseline : Z := 20 * Millisecond.
Definition backoffLimit : Z := 5 * Second.
Definition dequeueTimeout : Z := 500 * Millisecond.
Definition raftSyncLimit : Z := 5 * Second.

(** The parts of [models] the worker reads. *)
Record Evaluation := {
  ID : string;
  Type_ : string;
  ModifyIndex : Z
}.

Record Plan := { EvalID : string }.

Record PlanResult := { RefreshIndex : Z }.

(** A state snapshot; the model keeps the applied index it was taken at. *)
Record StateSnapshot := { SnapIndex : Z }.

Record Config := {
  Region : string;
  EnabledSchedulers : list string
}.

Inductive Request :=
| EvalDequeueRequest (Schedulers : list string) (Timeout : Z) (region : string)
| EvalSpecificRequest (evalID : string) (region : string)
| PlanRequest (plan : option Plan) (region : string).  (* [None]: a nil plan *)

Inductive Response :=
| SingleEvalResponse (Eval : option Evaluation)
| GenericResponse
| PlanResponse (Result : option PlanResult).

(** What the collaborators answer.  An RPC takes [dt] nanoseconds.  The
    scheduler is a pluggable strategy: while it runs [Process] it submits
    plans to the worker and finally returns; the plan it submits is a
    pointer, [None] when it is nil. *)
Inductive Answer :=
| RpcAns (dt : Z) (r : error + Response)
| SnapshotAns (err : option error)
| NewSchedulerAns (err : option error)
| SchedSubmitPlan (p : option Plan)
| SchedReturn (err : option error).

(** The calls the worker makes. *)
Inductive Event :=
| CallRPC (endpoint : string) (req : Request)
| Printf (format : string) (args : list string)
| TimeAfter (d : Z)
| FsmSnapshot
| NewScheduler (typ : string) (snap : StateSnapshot)
| SchedProcess (eval : Evaluation)
| PlanReturned (result : option PlanResult) (state : option StateSnapshot)
               (err : option error).

(** The physical environment: the applied index of the FSM as a function of
    the instant it is read at, and the instant [shutdownCh] is closed at, if
    it ever is. *)
Record Env := {
  applied : Z -> Z;
  shutdownAt : option Z
}.

Record World := {
  now : Z;                      (* the clock, in nanoseconds *)
  failures : Z;                 (* Worker.failures *)
  script : list Answer;
  trace : list (Z * Event)      (* each call with the instant it is made at *)
}.

Definition emit (e : Event) : M World unit := fun w =>
  Ret tt {| now := now w; failures := failures w; script := script w;
            trace := trace w ++ [(now w, e)] |}.

Definition answer : M World Answer := fun w =>
  match script w with
  | [] => Halt Blocked w
  | a :: rest =>
      Ret a {| now := now w; failures := failures w; script := rest;
               trace := trace w |}
  end.

Definition elapse (dt : Z) : M World unit := fun w =>
  Ret tt {| now := now w + Z.max 0 dt; failures := failures w;
            script := script w; trace := trace w |}.

Definition timeNow : M World Z := fun w => Ret (now w) w.

Definition getFailures : M World Z := fun w => Ret (failures w) w.

Definition setFailures (f : Z) : M World unit := fun w =>
  Ret tt {| now := now w; failures := f; script := script w;
            trace := trace w |}.

Section WithServer.

Variable env : Env.
Variable config : Config.

(** [w.srv.RPC(endpoint, &req, &resp)]. *)
Definition RPC (endpoint : string) (req : Request)
  : M World (error + Response) :=
  emit (CallRPC endpoint req) ;;
  a <- answer ;;
  match a with
  | RpcAns dt r => elapse dt ;; ret r
  | _ => halt Blocked
  end.

(** [w.srv.raft.AppliedIndex()]. *)
Definition AppliedIndex : M World Z := fun w => Ret (applied env (now w)) w.

Definition shutdownBy (t : Z) : bool :=
  match shutdownAt env with
  | Some ts => ts <=? t
  | None => false
  end.

(** Modelled from the spec: [Server.IsShutdown] is not in the sources at
    hand; it tells whether the shutdown signal has been raised. *)
Definition IsShutdown : M World bool := fun w => Ret (shutdownBy (now w)) w.

(** [select { case <-time.After(d): false; case <-w.srv.shutdownCh: true }]:
    the case that becomes ready first is taken, shutdown on a tie. *)
Definition selectAfterOrShutdown (d : Z) : M World bool :=
  emit (TimeAfter d) ;;
  t <- timeNow ;;
  if shutdownBy (t + Z.max 0 d)
  then (match shutdownAt env with
        | Some ts => elapse (ts - t)
        | None => ret tt
        end ;; ret true)
  else elapse d ;; ret false.

(** The interval [backoffErr] computes from the failure counter. *)
Definition backoffOf (f : Z) : Z :=
  wrap_int64 (shl_int64 1 (wrap_uint64 (2 * f)) * backoffBaseline).

Definition backoffErr : M World bool :=
  f <- getFailures ;;
  let backoff := backoffOf f in
  backoff <- (if backoff >? backoffLimit
              then ret backoffLimit
              else setFailures (wrap_uint64 (f + 1)) ;; ret backoff) ;;
  selectAfterOrShutdown backoff.

Definition backoffReset : M World unit := setFailures 0.

(** [sendAck]: a best effort ack or nack; errors are logged and swallowed. *)
Definition sendAck (evalID : string) (ack : bool) : M World unit :=
  let req := EvalSpecificRequest evalID (Region config) in
  let verb := if negb ack then "nack" else "ack" in
  let endpoint := if negb ack then "Eval.Nack" else "Eval.Ack" in
  r <- RPC endpoint req ;;
  match r with
  | inl err =>
      emit (Printf "[ERR] worker: failed to %s evaluation '%s': %v"
                   [verb; evalID; err])
  | inr _ => ret tt
  end.

(** [dequeueEvaluation]: the REQ loop. *)
Fixpoint dequeueEvaluation (fuel : nat) : M World (option Evaluation * bool) :=
  match fuel with
  | O => halt OutOfFuel
  | S fuel' =>
      let req := EvalDequeueRequest (EnabledSchedulers config) dequeueTimeout
                                    (Region config) in
      r <- RPC "Eval.Dequeue" req ;;
      match r with
      | inl err =>
          emit (Printf "[ERR] worker: failed to dequeue evaluation: %v" [err]) ;;
          stop <- backoffErr ;;
          if stop then ret (None, true) else dequeueEvaluation fuel'
      | inr (SingleEvalResponse resp_Eval) =>
          backoffReset ;;
          match resp_Eval with
          | Some ev => ret (Some ev, false)
          | None =>
              down <- IsShutdown ;;
              if down then ret (None, true) else dequeueEvaluation fuel'
          end
      | inr _ => halt Blocked
      end
  end.

(** [waitForIndex]: the CHECK loop, entered with [start] already read. *)
Fixpoint waitForIndex_check (fuel : nat) (start index timeout : Z)
  : M World (option error) :=
  match fuel with
  | O => halt OutOfFuel
  | S fuel' =>
      appliedIndex <- AppliedIndex ;;
      if index <=? appliedIndex
      then backoffReset ;; ret None
      else
        t <- timeNow ;;
        if t - start >? timeout
        then ret (Some "sync wait limit reached")
        else
          stop <- backoffErr ;;
          if stop
          then ret (Some "shutdown while waiting for state sync")
          else waitForIndex_check fuel' start index timeout
  end.

Definition waitForIndex (fuel : nat) (index timeout : Z)
  : M World (option error) :=
  start <- timeNow ;;
  waitForIndex_check fuel start index timeout.

(** [w.srv.fsm.State().Snapshot()]. *)
Definition Snapshot : M World (error + StateSnapshot) :=
  emit FsmSnapshot ;;
  a <- answer ;;
  match a with
  | SnapshotAns (Some err) => ret (inl err)
  | SnapshotAns None =>
      i <- AppliedIndex ;; ret (inr {| SnapIndex := i |})
  | _ => halt Blocked
  end.

(** [plan.EvalID]: reading a field of a nil plan panics. *)
Definition plan_EvalID (plan : option Plan) : M World string :=
  match plan with
  | Some p => ret (EvalID p)
  | None => halt Panic
  end.

(** [SubmitPlan] returns [(result, state, err)].  The plan goes into the
    request as it is; both log lines read [plan.EvalID]. *)
Definition SubmitPlan (fuel : nat) (plan : option Plan)
  : M World (option PlanResult * option StateSnapshot * option error) :=
  let req := PlanRequest plan (Region config) in
  r <- RPC "Plan.Submit" req ;;
  match r with
  | inl err =>
      evalID <- plan_EvalID plan ;;
      emit (Printf "[ERR] worker: failed to submit plan for evaluation %s: %v"
                   [evalID; err]) ;;
      ret (None, None, Some err)
  | inr (PlanResponse resp_Result) =>
      evalID <- plan_EvalID plan ;;
      emit (Printf "[DEBUG] worker: submitted plan for evaluation %s"
                   [evalID]) ;;
      match resp_Result with
      | None => ret (None, None, Some "missing result")
      | Some result =>
          if negb (RefreshIndex result =? 0)
          then
            err <- waitForIndex fuel (RefreshIndex result) raftSyncLimit ;;
            match err with
            | Some err => ret (None, None, Some err)
            | None =>
                s <- Snapshot ;;
                match s with
                | inl err =>
                    ret (None, None,
                         Some ("failed to snapshot state: " ++ err)%string)
                | inr snap => ret (Some result, Some snap, None)
                end
            end
          else ret (Some result, None, None)
      end
  | inr _ => halt Blocked
  end.

(** [scheduler.NewScheduler(eval.Type, snap, w)]. *)
Definition NewScheduler_ (typ : string) (snap : StateSnapshot)
  : M World (option error) :=
  emit (NewScheduler typ snap) ;;
  a <- answer ;;
  match a with
  | NewSchedulerAns err => ret err
  | _ => halt Blocked
  end.

(** [sched.Process(eval)], with the worker as the scheduler's planner: every
    plan the scheduler submits goes through [SubmitPlan], and what that
    returns is handed back to the scheduler. *)
Fixpoint Process_loop (fuel : nat) : M World (option error) :=
  match fuel with
  | O => halt OutOfFuel
  | S fuel' =>
      a <- answer ;;
      match a with
      | SchedSubmitPlan p =>
          r <- SubmitPlan fuel' p ;;
          emit (PlanReturned (fst (fst r)) (snd (fst r)) (snd r)) ;;
          Process_loop fuel'
      | SchedReturn err => ret err
      | _ => halt Blocked
      end
  end.

Definition Process (fuel : nat) (eval : Evaluation) : M World (option error) :=
  emit (SchedProcess eval) ;;
  Process_loop fuel.

(** [invokeScheduler]. *)
Definition invokeScheduler (fuel : nat) (eval : Evaluation)
  : M World (option error) :=
  s <- Snapshot ;;
  match s with
  | inl err => ret (Some ("failed to snapshot state: " ++ err)%string)
  | inr snap =>
      err <- NewScheduler_ (Type_ eval) snap ;;
      match err with
      | Some err =>
          ret (Some ("failed to instantiate scheduler: " ++ err)%string)
      | None =>
          err <- Process fuel eval ;;
          match err with
          | Some err =>
              ret (Some ("failed to process evaluation: " ++ err)%string)
          | None => ret None
          end
      end
  end.

(** [run], the worker's goroutine. *)
Fixpoint run (fuel : nat) : M World unit :=
  match fuel with
  | O => halt OutOfFuel
  | S fuel' =>
      d <- dequeueEvaluation fuel' ;;
      if snd d then ret tt
      else
        match fst d with
        | None => halt Panic
        | Some eval =>
            down <- IsShutdown ;;
            if down then sendAck (ID eval) false ;; ret tt
            else
              err <- waitForIndex fuel' (ModifyIndex eval) raftSyncLimit ;;
              match err with
              | Some _ => sendAck (ID eval) false ;; run fuel'
              | None =>
                  err <- invokeScheduler fuel' eval ;;
                  match err with
                  | Some _ => sendAck (ID eval) false ;; run fuel'
                  | None => sendAck (ID eval) true ;; run fuel'
                  end
              end
        end
  end.

End WithServer.

(** [NewWorker]: a worker starts with no failures and nothing done yet. *)
Definition NewWorker (t0 : Z) (answers : list Answer) : World :=
  {| now := t0; failures := 0; script := answers; trace := [] |}.

(** What one call of [backoffErr] does with a counter [f]: the interval it
    sleeps for, and the counter it leaves. *)
Definition interval (f : Z) : Z :=
  if backoffOf f >? backoffLimit then backoffLimit else backoffOf f.

Definition nextFailures (f : Z) : Z :=
  if backoffOf f >? backoffLimit then f else wrap_uint64 (f + 1).

(** The world after [k] calls of [backoffErr] in a row, none of them
    separated by a [backoffReset]. *)
Fixpoint failing (env : Env) (k : nat) (w : World) : World :=
  match k with
  | O => w
  | S k' => final (backoffErr env (failing env k' w))
  end.

(** The world [SubmitPlan] is in once Plan.Submit, called in [w] for a plan
    that is not nil, has been answered after [dt] nanoseconds with a
    response, [rest] being the answers still to come: the call and the debug
    line are in the trace. *)
Definition submitted (config : Config) (plan : Plan) (dt : Z)
                     (rest : list Answer) (w : World) : World :=
  {| now := now w + Z.max 0 dt;
     failures := failures w;
     script := rest;
     trace := (trace w ++
               [(now w, CallRPC "Plan.Submit"
                          (PlanRequest (Some plan) (Region config)))])
              ++ [(now w + Z.max 0 dt,
                   Printf "[DEBUG] worker: submitted plan for evaluation %s"
                          [EvalID plan])] |}.

(** Every invocation of a scheduler in the trace was made at an instant at
    which the applied index had reached the evaluation's modify index. *)
Definition fresh (env : Env) (w : World) : Prop :=
  forall t e, In (t, SchedProcess e) (trace w) -> ModifyIndex e <= applied env t.


(** The polls of [waitForIndex] when none succeeds and nothing shuts down:
    with the coming poll [off] nanoseconds into the wait and the failure
    counter at [f], the instant (into the wait) of the poll that finds the
    timeout exceeded.  [n] bounds the number of polls. *)
Fixpoint lastPoll (n : nat) (off f timeout : Z) : option Z :=
  match n with
  | O => None
  | S n' =>
      if off >? timeout then Some off
      else lastPoll n' (off + Z.max 0 (interval f)) (nextFailures f) timeout
  end.

(** A worker that starts to wait with its failure counter at zero polls 0,
    20ms, 100ms, 420ms, 1.7s and 6.7s into the wait; the last of these is
    the first one later than [raftSyncLimit]. *)
Definition givesUpAt : Z := 6700 * Millisecond.


Definition isTimeAfter (e : Event) : Prop :=
  match e with TimeAfter _ => True | _ => False end.

(** The number of polls of such a wait. *)
Definition pollBound : nat := 6.

(** The polls of a wait that begins with the failure counter at zero, as
    long as nothing ends it: the counter [backoffErr] finds after poll [k]
    (polls count from 0), and the instant of poll [k], into the wait. *)
Fixpoint failuresAt (k : nat) : Z :=
  match k with
  | O => 0
  | S k' => nextFailures (failuresAt k')
  end.

Fixpoint pollAt (k : nat) : Z :=
  match k with
  | O => 0
  | S k' => pollAt k' + Z.max 0 (interval (failuresAt k'))
  end.

(** The last poll of such a wait, the first one made after raftSyncLimit. *)
Definition lastPollNo : nat := 5.

(** The shutdown signal comes before instant [t]. *)
Definition shutdownBefore (env : Env) (t : Z) : Prop :=
  exists ts, shutdownAt env = Some ts /\ ts < t.

(** The applied index is below [index] at each of the polls 0 to [n] of a
    wait that began at instant [from]. *)
Definition missedPolls (env : Env) (index from : Z) (n : nat) : Prop :=
  forall k, (k <= n)%nat -> applied env (from + pollAt k) < index.

(** *** Sample runs *)

Definition sampleConfig : Config :=
  {| Region := "global"; EnabledSchedulers := ["service"] |}.

Definition sampleEval : Evaluation :=
  {| ID := "e1"; Type_ := "service"; ModifyIndex := 1 |}.

(** The applied index reaches 1 six seconds after the start; no shutdown. *)
Definition lateEnv : Env :=
  {| applied := fun t => if t <? 6 * Second then 0 else 1;
     shutdownAt := None |}.

(** The applied index never moves; no shutdown. *)
Definition stalledEnv : Env :=
  {| applied := fun _ => 0; shutdownAt := None |}.

(** The server shuts down 100ms after the start. *)
Definition closingEnv : Env :=
  {| applied := fun _ => 1; shutdownAt := Some (100 * Millisecond) |}.

(** The applied index reaches 1 one second after the start; the server
    shuts down 50ms after the start. *)
Definition interruptedEnv : Env :=
  {| applied := fun t => if t <? 1 * Second then 0 else 1;
     shutdownAt := Some (50 * Millisecond) |}.

(** The applied index is 1 from the start; no shutdown. *)
Definition readyEnv : Env :=
  {| applied := fun _ => 1; shutdownAt := None |}.

(** The applied index jumps from 0 to 7 after 50ms; no shutdown. *)
Definition catchingUpEnv : Env :=
  {| applied := fun t => if t <? 50 * Millisecond then 0 else 7;
     shutdownAt := None |}.

Definition samplePlan : Plan := {| EvalID := "e1" |}.

(** A plan result that asks for a refresh up to index 7, and one that asks
    for none. *)
Definition staleResult : PlanResult := {| RefreshIndex := 7 |}.
Definition appliedResult : PlanResult := {| RefreshIndex := 0 |}.

(** The broker hands out [sampleEval] at once; the scheduler submits no
    plan; the ack or nack goes through. *)
Definition sampleScript : list Answer :=
  [RpcAns 0 (inr (SingleEvalResponse (Some sampleEval)));
   SnapshotAns None; NewSchedulerAns None; SchedReturn None;
   RpcAns 0 (inr GenericResponse)].

End Worker.

(** * leader.go *)
Module Leader.

(** [serf.MemberStatus], with the package's own [StatusReap]. *)
Inductive MemberStatus :=
| StatusNone | StatusAlive | StatusLeaving | StatusLeft | StatusFailed
| StatusReap.

Record Member := {
  Name : string;
  Tags : list (string * string);
  Status : MemberStatus
}.

Record serverParts := {
  Region : string;
  Bootstrap : bool;
  Addr : string
}.

Record Config := {
  config_NodeName : string;
  config_Region : string;
  config_ReconcileInterval : Z
}.

(** Error values; [raft.ErrKnownPeer] and [raft.ErrUnknownPeer] are compared
    against by identity. *)
Inductive Error :=
| ErrKnownPeer
| ErrUnknownPeer
| ErrOther (msg : string).

Definition isErrKnownPeer (e : Error) : bool :=
  match e with ErrKnownPeer => true | _ => false end.

Definition isErrUnknownPeer (e : Error) : bool :=
  match e with ErrUnknownPeer => true | _ => false end.

Definition showError (e : Error) : string :=
  match e with
  | ErrKnownPeer => "peer already known"
  | ErrUnknownPeer => "peer is unknown"
  | ErrOther msg => msg
  end.

(** The cases of the select in the WAIT loop. *)
Inductive Choice :=
| OnStop                    (* <-stopCh *)
| OnShutdown                (* <-s.shutdownCh *)
| OnInterval                (* <-interval *)
| OnMember (member : Member).  (* member := <-reconcileCh *)

Inductive Answer :=
| BarrierAns (err : option Error)     (* barrier.Error() *)
| MembersAns (members : list Member)  (* s.serf.Members() *)
| FutureAns (err : option Error)      (* future.Error() of AddPeer, RemovePeer *)
| Selected (c : Choice).

(** The calls the leader makes.  A value printed with %v is shown by its
    name (a member), its address (server parts) or its message (an error). *)
Inductive Event :=
| PlanQueue_SetEnabled (enabled : bool)
| EvalBroker_SetEnabled (enabled : bool)
| TimeAfter (d : Z)
| Raft_Barrier (timeout : Z)
| Raft_AddPeer (addr : string)
| Raft_RemovePeer (addr : string)
| Serf_Members
| Printf (format : string) (args : list string).

Record World := {
  planQueue : bool;     (* is s.planQueue enabled *)
  evalBroker : bool;    (* is s.evalBroker enabled *)
  script : list Answer;
  trace : list Event
}.

Definition emit (e : Event) : M World unit := fun w =>
  Ret tt {| planQueue := planQueue w; evalBroker := evalBroker w;
            script := script w; trace := trace w ++ [e] |}.

Definition answer : M World Answer := fun w =>
  match script w with
  | [] => Halt Blocked w
  | a :: rest =>
      Ret a {| planQueue := planQueue w; evalBroker := evalBroker w;
               script := rest; trace := trace w |}
  end.

(** [s.planQueue.SetEnabled(enabled)]. *)
Definition planQueue_SetEnabled (enabled : bool) : M World unit := fun w =>
  Ret tt {| planQueue := enabled; evalBroker := evalBroker w;
            script := script w;
            trace := trace w ++ [PlanQueue_SetEnabled enabled] |}.

(** [s.evalBroker.SetEnabled(enabled)]. *)
Definition evalBroker_SetEnabled (enabled : bool) : M World unit := fun w =>
  Ret tt {| planQueue := planQueue w; evalBroker := enabled;
            script := script w;
            trace := trace w ++ [EvalBroker_SetEnabled enabled] |}.

(** [s.raft.Barrier(timeout).Error()]. *)
Definition raft_Barrier (timeout : Z) : M World (option Error) :=
  emit (Raft_Barrier timeout) ;;
  a <- answer ;;
  match a with
  | BarrierAns err => ret err
  | _ => halt Blocked
  end.

(** [s.serf.Members()]. *)
Definition serf_Members : M World (list Member) :=
  emit Serf_Members ;;
  a <- answer ;;
  match a with
  | MembersAns members => ret members
  | _ => halt Blocked
  end.

(** [s.raft.AddPeer(addr).Error()]. *)
Definition raft_AddPeer (addr : string) : M World (option Error) :=
  emit (Raft_AddPeer addr) ;;
  a <- answer ;;
  match a with
  | FutureAns err => ret err
  | _ => halt Blocked
  end.

(** [s.raft.RemovePeer(addr).Error()]. *)
Definition raft_RemovePeer (addr : string) : M World (option Error) :=
  emit (Raft_RemovePeer addr) ;;
  a <- answer ;;
  match a with
  | FutureAns err => ret err
  | _ => halt Blocked
  end.

Section WithServer.

Variable config : Config.

(** [isUdupServer] is defined elsewhere in the package: it tells whether a
    member is a server and, if it is, reads its parts off its tags.  The
    second component is only looked at when the first is [true]. *)
Variable isUdupServer : Member -> bool * serverParts.

Definition establishLeadership : M World (option Error) :=
  planQueue_SetEnabled true ;;
  evalBroker_SetEnabled true ;;
  ret None.

Definition revokeLeadership : M World (option Error) :=
  planQueue_SetEnabled false ;;
  evalBroker_SetEnabled false ;;
  ret None.

(** The loop of [addRaftPeer] over the members: the first valid server other
    than [m] that is in bootstrap mode. *)
Fixpoint otherBootstrap (m : Member) (members : list Member) : option Member :=
  match members with
  | [] => None
  | member :: rest =>
      let (valid, p) := isUdupServer member in
      if valid && negb (Name member =? Name m)%string && Bootstrap p
      then Some member
      else otherBootstrap m rest
  end.

(** The check at the head of [addRaftPeer]: the member it stops at, if any. *)
Definition bootstrapCheck (m : Member) (parts : serverParts)
  : M World (option Member) :=
  if Bootstrap parts
  then members <- serf_Members ;; ret (otherBootstrap m members)
  else ret None.

Definition addRaftPeer (m : Member) (parts : serverParts)
  : M World (option Error) :=
  other <- bootstrapCheck m parts ;;
  match other with
  | Some member =>
      emit (Printf "[ERR] server: '%v' and '%v' are both in bootstrap mode. Only one node should be in bootstrap mode, not adding Raft peer."
                   [Name m; Name member]) ;;
      ret None
  | None =>
      err <- raft_AddPeer (Addr parts) ;;
      match err with
      | Some e =>
          if negb (isErrKnownPeer e)
          then emit (Printf "[ERR] server: failed to add raft peer: %v"
                            [showError e]) ;;
               ret (Some e)
          else ret None
      | None =>
          emit (Printf "[INFO] server: added raft peer: %v" [Addr parts]) ;;
          ret None
      end
  end.

Definition removeRaftPeer (m : Member) (parts : serverParts)
  : M World (option Error) :=
  err <- raft_RemovePeer (Addr parts) ;;
  match err with
  | Some e =>
      if negb (isErrUnknownPeer e)
      then emit (Printf "[ERR] server: failed to remove raft peer '%v': %v"
                        [Addr parts; showError e]) ;;
           ret (Some e)
      else ret None
  | None =>
      emit (Printf "[INFO] server: removed server '%s' as peer" [Name m]) ;;
      ret None
  end.

(** [fmt.Sprintf("%s.%s", s.config.NodeName, s.config.Region)]. *)
Definition selfName : string :=
  (config_NodeName config ++ "." ++ config_Region config)%string.

Definition reconcileMember (member : Member) : M World (option Error) :=
  let (valid, parts) := isUdupServer member in
  if negb valid || negb (Region parts =? config_Region config)%string
  then ret None
  else if (Name member =? selfName)%string
  then ret None
  else
    err <- match Status member with
           | StatusAlive => addRaftPeer member parts
           | StatusLeft | StatusReap => removeRaftPeer member parts
           | _ => ret None
           end ;;
    match err with
    | Some e =>
        emit (Printf "[ERR] server: failed to reconcile member: %v: %v"
                     [Name member; showError e]) ;;
        ret (Some e)
    | None => ret None
    end.

(** The loop of [reconcile] over the members. *)
Fixpoint reconcile_range (members : list Member) : M World (option Error) :=
  match members with
  | [] => ret None
  | member :: rest =>
      err <- reconcileMember member ;;
      match err with
      | Some e => ret (Some e)
      | None => reconcile_range rest
      end
  end.

Definition reconcile : M World (option Error) :=
  members <- serf_Members ;;
  reconcile_range members.

(** *** The leader loop

    The labels of [leaderLoop] and the variables that live across them:
    [reconcileCh] is [false] while the variable is nil and [true] once it is
    [s.reconcileCh]. *)
Inductive Label := RECONCILE | WAIT.

Record Locals := {
  reconcileCh : bool;
  establishedLeader : bool
}.

Definition enterLoop : Locals :=
  {| reconcileCh := false; establishedLeader := false |}.

(** From RECONCILE down to the WAIT label. *)
Definition leaderLoop_RECONCILE (l : Locals) : M World Locals :=
  let toWAIT (established : bool) : M World Locals :=
    ret {| reconcileCh := false; establishedLeader := established |} in
  let reconcileThenWAIT (established : bool) : M World Locals :=
    err <- reconcile ;;
    match err with
    | Some e =>
        emit (Printf "[ERR] server: failed to reconcile: %v" [showError e]) ;;
        toWAIT established
    | None => ret {| reconcileCh := true; establishedLeader := established |}
    end in
  emit (TimeAfter (config_ReconcileInterval config)) ;;
  err <- raft_Barrier 0 ;;
  match err with
  | Some e =>
      emit (Printf "[ERR] server: failed to wait for barrier: %v"
                   [showError e]) ;;
      toWAIT (establishedLeader l)
  | None =>
      if negb (establishedLeader l)
      then
        err <- establishLeadership ;;
        match err with
        | Some e =>
            emit (Printf "[ERR] server: failed to establish leadership: %v"
                         [showError e]) ;;
            toWAIT (establishedLeader l)
        | None => reconcileThenWAIT true
        end
      else reconcileThenWAIT (establishedLeader l)
  end.

(** One round of the select under WAIT: [None] when the function returns,
    which runs the deferred [revokeLeadership] first.  A nil [reconcileCh]
    never delivers. *)
Definition leaderLoop_WAIT (l : Locals) : M World (option (Label * Locals)) :=
  a <- answer ;;
  match a with
  | Selected OnStop => revokeLeadership ;; ret None
  | Selected OnShutdown => revokeLeadership ;; ret None
  | Selected OnInterval => ret (Some (RECONCILE, l))
  | Selected (OnMember member) =>
      if reconcileCh l
      then reconcileMember member ;; ret (Some (WAIT, l))
      else halt Blocked
  | _ => halt Blocked
  end.

Definition leaderLoop_step (pc : Label) (l : Locals)
  : M World (option (Label * Locals)) :=
  match pc with
  | RECONCILE => l' <- leaderLoop_RECONCILE l ;; ret (Some (WAIT, l'))
  | WAIT => leaderLoop_WAIT l
  end.

Fixpoint leaderLoop_from (fuel : nat) (pc : Label) (l : Locals) : M World unit :=
  match fuel with
  | O => halt OutOfFuel
  | S fuel' =>
      next <- leaderLoop_step pc l ;;
      match next with
      | None => ret tt
      | Some (pc', l') => leaderLoop_from fuel' pc' l'
      end
  end.

Definition leaderLoop (fuel : nat) : M World unit :=
  leaderLoop_from fuel RECONCILE enterLoop.

(** *** The node: monitorLeadership and the leader loops it starts

    [monitorLeadership] starts a leader loop, a goroutine of its own, each
    time the leadership channel delivers [true], and closes the stop channel
    of the last one it started when the channel delivers [false].  The
    goroutines are interleaved at their selects: a leader loop runs from one
    select to the next (or to its return) in one step. *)
Record Goroutine := {
  stopCh : nat;               (* the channel it was started with *)
  pc : option Label;          (* where it stands; [None] once it has returned *)
  locals : Locals
}.

Record Node := {
  world : World;
  shutdownCh : bool;              (* is s.shutdownCh closed *)
  closedCh : list nat;            (* the stop channels closed so far *)
  made : nat;                     (* how many stop channels were made *)
  monitor_stopCh : option nat;    (* stopCh of monitorLeadership; [None] is nil *)
  monitoring : bool;              (* monitorLeadership has not returned *)
  loops : list Goroutine
}.

Inductive Input :=
| LeaderCh (isLeader : bool)    (* monitorLeadership receives from leaderCh *)
| CloseShutdownCh               (* Shutdown closes s.shutdownCh *)
| MonitorOnShutdown             (* monitorLeadership receives from s.shutdownCh *)
| LoopRuns (i : nat) (answers : list Answer).
                                (* leader loop [i] runs up to its next select *)

Definition logged (e : Event) (n : Node) : World :=
  {| planQueue := planQueue (world n); evalBroker := evalBroker (world n);
     script := script (world n); trace := trace (world n) ++ [e] |}.

(** The body of the [case isLeader := <-leaderCh] of [monitorLeadership]. *)
Definition monitorLeadership_recv (isLeader : bool) (n : Node) : Node :=
  if isLeader
  then
    {| world := logged (Printf "[INFO] server: cluster leadership acquired" []) n;
       shutdownCh := shutdownCh n;
       closedCh := closedCh n;
       made := S (made n);
       monitor_stopCh := Some (made n);
       monitoring := monitoring n;
       loops := loops n ++ [{| stopCh := made n; pc := Some RECONCILE;
                               locals := enterLoop |}] |}
  else
    match monitor_stopCh n with
    | Some c =>
        {| world := logged (Printf "[INFO] server: cluster leadership lost" []) n;
           shutdownCh := shutdownCh n;
           closedCh := c :: closedCh n;
           made := made n;
           monitor_stopCh := None;
           monitoring := monitoring n;
           loops := loops n |}
    | None => n
    end.

(** Can the select of goroutine [g] take case [c] in node [n]. *)
Definition ready (n : Node) (g : Goroutine) (c : Choice) : bool :=
  match c with
  | OnStop => existsb (Nat.eqb (stopCh g)) (closedCh n)
  | OnShutdown => shutdownCh n
  | _ => true
  end.

Definition admissible (n : Node) (g : Goroutine) (label : Label)
                      (answers : list Answer) : bool :=
  match label, answers with
  | WAIT, Selected c :: _ => ready n g c
  | _, _ => true
  end.

Fixpoint setNth {A} (i : nat) (x : A) (l : list A) : list A :=
  match l, i with
  | [], _ => []
  | _ :: rest, O => x :: rest
  | y :: rest, S i' => y :: setNth i' x rest
  end.

Definition withScript (answers : list Answer) (w : World) : World :=
  {| planQueue := planQueue w; evalBroker := evalBroker w;
     script := answers; trace := trace w |}.

Definition loop_runs (i : nat) (answers : list Answer) (n : Node) : Node :=
  match nth_error (loops n) i with
  | Some g =>
      match pc g with
      | Some label =>
          if admissible n g label answers
          then
            match leaderLoop_step label (locals g) (withScript answers (world n)) with
            | Ret next w' =>
                let g' :=
                  match next with
                  | Some (label', l') =>
                      {| stopCh := stopCh g; pc := Some label'; locals := l' |}
                  | None =>
                      {| stopCh := stopCh g; pc := None; locals := locals g |}
                  end in
                {| world := withScript [] w';
                   shutdownCh := shutdownCh n;
                   closedCh := closedCh n;
                   made := made n;
                   monitor_stopCh := monitor_stopCh n;
                   monitoring := monitoring n;
                   loops := setNth i g' (loops n) |}
            | Halt _ _ => n
            end
          else n
      | None => n
      end
  | None => n
  end.

Definition node_step (n : Node) (input : Input) : Node :=
  match input with
  | LeaderCh isLeader =>
      if monitoring n then monitorLeadership_recv isLeader n else n
  | CloseShutdownCh =>
      {| world := world n; shutdownCh := true; closedCh := closedCh n;
         made := made n; monitor_stopCh := monitor_stopCh n;
         monitoring := monitoring n; loops := loops n |}
  | MonitorOnShutdown =>
      if shutdownCh n
      then {| world := world n; shutdownCh := shutdownCh n;
              closedCh := closedCh n; made := made n;
              monitor_stopCh := monitor_stopCh n;
              monitoring := false; loops := loops n |}
      else n
  | LoopRuns i answers => loop_runs i answers n
  end.

Definition node_run (inputs : list Input) (n : Node) : Node :=
  fold_left node_step inputs n.

End WithServer.

(** [w'] has the trace of [w] and what was called since. *)
Definition extends (w w' : World) : Prop :=
  exists more, trace w' = trace w ++ more.

(** [w'] has the plan queue and the eval broker as [w] has them. *)
Definition sameQueues (w w' : World) : Prop :=
  planQueue w' = planQueue w /\ evalBroker w' = evalBroker w.



(** The plan queue or the eval broker of the node is enabled. *)
Definition enabled (n : Node) : Prop :=
  planQueue (world n) = true \/ evalBroker (world n) = true.

(** A node that has just started [monitorLeadership]: the plan queue and the
    eval broker are disabled until a leader loop enables them. *)
Definition NewNode : Node :=
  {| world := {| planQueue := false; evalBroker := false;
                 script := []; trace := [] |};
     shutdownCh := false; closedCh := []; made := 0;
     monitor_stopCh := None; monitoring := true; loops := [] |}.

(** *** Sample runs *)

Definition sampleConfig : Config :=
  {| config_NodeName := "s1"; config_Region := "global";
     config_ReconcileInterval := 60 * Second |}.

Fixpoint tag (key : string) (tags : list (string * string)) : option string :=
  match tags with
  | [] => None
  | (k, v) :: rest => if (k =? key)%string then Some v else tag key rest
  end.

(** A classifier for the sample runs: a server carries the tag role=udup,
    its region and address under region and addr, and the tag bootstrap
    when it is in bootstrap mode. *)
Definition sampleIsUdupServer (m : Member) : bool * serverParts :=
  (match tag "role" (Tags m) with
   | Some role => (role =? "udup")%string
   | None => false
   end,
   {| Region := match tag "region" (Tags m) with Some r => r | None => "" end;
      Bootstrap := match tag "bootstrap" (Tags m) with Some _ => true | None => false end;
      Addr := match tag "addr" (Tags m) with Some a => a | None => "" end |}).

Definition sampleServer (name addr : string) (bootstrap : bool)
                        (status : MemberStatus) : Member :=
  {| Name := (name ++ ".global")%string;
     Tags := [("role", "udup"); ("region", "global"); ("addr", addr)]
             ++ (if bootstrap then [("bootstrap", "1")] else []);
     Status := status |}.

(** The local node, a server in bootstrap mode, and a plain server that
    has just joined. *)
Definition memberS1 : Member := sampleServer "s1" "10.0.0.1:4647" false StatusAlive.
Definition memberB : Member := sampleServer "b" "10.0.0.2:4647" true StatusAlive.
Definition memberM : Member := sampleServer "m" "10.0.0.3:4647" false StatusAlive.
(** Another server in bootstrap mode. *)
Definition memberB2 : Member := sampleServer "b2" "10.0.0.4:4647" true StatusAlive.

Definition idle (answers : list Answer) : World :=
  {| planQueue := false; evalBroker := false; script := answers; trace := [] |}.

End Leader.

(** * The server file: setupRaft *)
Module Setup.

Definition raftState : string := "raft/".
Definition snapshotsRetained : Z := 2.
Definition raftLogCacheSize : Z := 512.

Record Config := {
  Bootstrap : bool;
  DevMode : bool;
  DataDir : string;
  LocalAddr : string      (* what trans.LocalAddr() gives *)
}.

(** The stores raft is given, by the constructor that made them. *)
Inductive LogStore :=
| InmemStore                                    (* raft.NewInmemStore() *)
| BoltStore (path : string)                     (* raftboltdb.NewBoltStore(path) *)
| LogCache (capacity : Z) (store : LogStore).   (* raft.NewLogCache(capacity, store) *)

Inductive SnapshotStore :=
| DiscardSnapshotStore                           (* raft.NewDiscardSnapshotStore() *)
| FileSnapshotStore (base : string) (retain : Z).
                                      (* raft.NewFileSnapshotStore(base, retain, _) *)

Inductive PeerStore :=
| StaticPeers                       (* &raft.StaticPeers{} *)
| JSONPeers (base : string).        (* raft.NewJSONPeers(base, trans) *)

Inductive Event :=
| NewFSM
| NewNetworkTransport (maxPool : Z) (timeout : Z)
| NewInmemStore
| NewDiscardSnapshotStore
| EnsurePath (path : string) (dir : bool)
| NewBoltStore (path : string)
| NewLogCache (capacity : Z) (store : LogStore)
| NewFileSnapshotStore (base : string) (retain : Z)
| NewJSONPeers (base : string)
| Peers (store : PeerStore)
| SetPeers (store : PeerStore) (peers : list string)
| StoreClose
| TransClose
| NewRaft (log stable : LogStore) (snap : SnapshotStore) (peers : PeerStore)
| GoMonitorLeadership.

Inductive Answer :=
| Done (err : option error)               (* the error a constructor returns *)
| PeerList (r : error + list string).     (* peers.Peers() *)

Record World := {
  EnableSingleNode : bool;          (* s.config.RaftConfig.EnableSingleNode *)
  fsm : bool;                       (* is s.fsm set *)
  raftTransport : bool;             (* is s.raftTransport set *)
  raftInmem : option LogStore;
  raftStore : option LogStore;
  raftPeers : option PeerStore;
  raft : bool;                      (* is s.raft set *)
  script : list Answer;
  trace : list Event
}.

Definition emit (e : Event) : M World unit := fun w =>
  Ret tt {| EnableSingleNode := EnableSingleNode w; fsm := fsm w;
            raftTransport := raftTransport w; raftInmem := raftInmem w;
            raftStore := raftStore w; raftPeers := raftPeers w; raft := raft w;
            script := script w; trace := trace w ++ [e] |}.

Definition answer : M World Answer := fun w =>
  match script w with
  | [] => Halt Blocked w
  | a :: rest =>
      Ret a {| EnableSingleNode := EnableSingleNode w; fsm := fsm w;
               raftTransport := raftTransport w; raftInmem := raftInmem w;
               raftStore := raftStore w; raftPeers := raftPeers w;
               raft := raft w; script := rest; trace := trace w |}
  end.

(** A call that may fail. *)
Definition call (e : Event) : M World (option error) :=
  emit e ;;
  a <- answer ;;
  match a with
  | Done err => ret err
  | _ => halt Blocked
  end.

Definition set_EnableSingleNode (b : bool) : M World unit := fun w =>
  Ret tt {| EnableSingleNode := b; fsm := fsm w;
            raftTransport := raftTransport w; raftInmem := raftInmem w;
            raftStore := raftStore w; raftPeers := raftPeers w; raft := raft w;
            script := script w; trace := trace w |}.

Definition set_fsm : M World unit := fun w =>
  Ret tt {| EnableSingleNode := EnableSingleNode w; fsm := true;
            raftTransport := raftTransport w; raftInmem := raftInmem w;
            raftStore := raftStore w; raftPeers := raftPeers w; raft := raft w;
            script := script w; trace := trace w |}.

Definition set_raftTransport : M World unit := fun w =>
  Ret tt {| EnableSingleNode := EnableSingleNode w; fsm := fsm w;
            raftTransport := true; raftInmem := raftInmem w;
            raftStore := raftStore w; raftPeers := raftPeers w; raft := raft w;
            script := script w; trace := trace w |}.

Definition set_raftInmem (store : LogStore) : M World unit := fun w =>
  Ret tt {| EnableSingleNode := EnableSingleNode w; fsm := fsm w;
            raftTransport := raftTransport w; raftInmem := Some store;
            raftStore := raftStore w; raftPeers := raftPeers w; raft := raft w;
            script := script w; trace := trace w |}.

Definition set_raftStore (store : LogStore) : M World unit := fun w =>
  Ret tt {| EnableSingleNode := EnableSingleNode w; fsm := fsm w;
            raftTransport := raftTransport w; raftInmem := raftInmem w;
            raftStore := Some store; raftPeers := raftPeers w; raft := raft w;
            script := script w; trace := trace w |}.

Definition set_raftPeers (peers : PeerStore) : M World unit := fun w =>
  Ret tt {| EnableSingleNode := EnableSingleNode w; fsm := fsm w;
            raftTransport := raftTransport w; raftInmem := raftInmem w;
            raftStore := raftStore w; raftPeers := Some peers; raft := raft w;
            script := script w; trace := trace w |}.

Definition set_raft : M World unit := fun w =>
  Ret tt {| EnableSingleNode := EnableSingleNode w; fsm := fsm w;
            raftTransport := raftTransport w; raftInmem := raftInmem w;
            raftStore := raftStore w; raftPeers := raftPeers w; raft := true;
            script := script w; trace := trace w |}.

Definition get_EnableSingleNode : M World bool := fun w =>
  Ret (EnableSingleNode w) w.

(** [if s.raftStore != nil { s.raftStore.Close() }]. *)
Definition closeStoreIfAny : M World unit := fun w =>
  match raftStore w with
  | Some _ => emit StoreClose w
  | None => Ret tt w
  end.

(** [raft.PeerContained] and [raft.AddUniquePeer]. *)
Definition PeerContained (peers : list string) (peer : string) : bool :=
  existsb (String.eqb peer) peers.

Definition AddUniquePeer (peers : list string) (peer : string) : list string :=
  if PeerContained peers peer then peers else peers ++ [peer].

Section WithServer.

Variable config : Config.

(** [filepath.Join], of Go's standard library. *)
Variable Join : string -> string -> string.

(** The base raft path of a server that is not in dev mode. *)
Definition raftPath : string := Join (DataDir config) raftState.

(** The branch of [setupRaft] that makes the stores: an error, or the log
    store, the stable store, the snapshot store and the peer store. *)
Definition makeStores
  : M World (error + (LogStore * LogStore * SnapshotStore * PeerStore)) :=
  if DevMode config
  then
    emit NewInmemStore ;;
    let store := InmemStore in
    set_raftInmem store ;;
    emit NewDiscardSnapshotStore ;;
    ret (inr (store, store, DiscardSnapshotStore, StaticPeers))
  else
    let path := raftPath in
    err <- call (EnsurePath path true) ;;
    match err with
    | Some e => ret (inl e)
    | None =>
        err <- call (NewBoltStore (Join path "raft.db")) ;;
        match err with
        | Some e => ret (inl e)
        | None =>
            let store := BoltStore (Join path "raft.db") in
            set_raftStore store ;;
            err <- call (NewLogCache raftLogCacheSize store) ;;
            match err with
            | Some e => emit StoreClose ;; ret (inl e)
            | None =>
                let cacheStore := LogCache raftLogCacheSize store in
                err <- call (NewFileSnapshotStore path snapshotsRetained) ;;
                match err with
                | Some e => closeStoreIfAny ;; ret (inl e)
                | None =>
                    let snapshots := FileSnapshotStore path snapshotsRetained in
                    emit (NewJSONPeers path) ;;
                    set_raftPeers (JSONPeers path) ;;
                    ret (inr (cacheStore, store, snapshots, JSONPeers path))
                end
            end
        end
    end.

Definition setupRaft : M World (option error) :=
  (if Bootstrap config || DevMode config
   then set_EnableSingleNode true
   else ret tt) ;;
  err <- call NewFSM ;;
  match err with
  | Some e => ret (Some e)
  | None =>
      set_fsm ;;
      emit (NewNetworkTransport 3 (10 * Second)) ;;
      set_raftTransport ;;
      stores <- makeStores ;;
      match stores with
      | inl e => ret (Some e)
      | inr (log, stable, snap, peers) =>
          single <- get_EnableSingleNode ;;
          err <- (if single
                  then
                    emit (Peers peers) ;;
                    a <- answer ;;
                    match a with
                    | PeerList (inl e) => closeStoreIfAny ;; ret (Some e)
                    | PeerList (inr p) =>
                        (if negb (PeerContained p (LocalAddr config))
                         then emit (SetPeers peers
                                      (AddUniquePeer p (LocalAddr config)))
                         else ret tt) ;;
                        ret None
                    | _ => halt Blocked
                    end
                  else ret None) ;;
          match err with
          | Some e => ret (Some e)
          | None =>
              err <- call (NewRaft log stable snap peers) ;;
              match err with
              | Some e => closeStoreIfAny ;; emit TransClose ;; ret (Some e)
              | None =>
                  set_raft ;;
                  emit GoMonitorLeadership ;;
                  ret None
              end
          end
      end
  end.

(** Does the call read or write the file system. *)
Definition onDisk (e : Event) : bool :=
  match e with
  | EnsurePath _ _ | NewBoltStore _ | NewFileSnapshotStore _ _
  | NewJSONPeers _ | Peers (JSONPeers _) | SetPeers (JSONPeers _) _ => true
  | _ => false
  end.

(** What a call of a server in dev mode may be: nothing on disk, and raft
    made over the in-memory store and the discarding snapshot store. *)
Definition inMemory (e : Event) : Prop :=
  match e with
  | NewRaft log stable snap peers =>
      log = InmemStore /\ stable = InmemStore /\
      snap = DiscardSnapshotStore /\ peers = StaticPeers
  | NewLogCache _ _ => False
  | _ => onDisk e = false
  end.

(** What a call of a server that is not in dev mode may be: the stores are
    made with the stated constants, on paths under the raft path. *)
Definition persistent (e : Event) : Prop :=
  match e with
  | EnsurePath path _ => path = raftPath
  | NewBoltStore path => path = Join raftPath "raft.db"
  | NewLogCache capacity store =>
      capacity = 512 /\ store = BoltStore (Join raftPath "raft.db")
  | NewFileSnapshotStore base retain => base = raftPath /\ 2 <= retain
  | NewJSONPeers base => base = raftPath
  | NewRaft log stable snap peers =>
      log = LogCache 512 (BoltStore (Join raftPath "raft.db")) /\
      stable = BoltStore (Join raftPath "raft.db") /\
      snap = FileSnapshotStore raftPath 2 /\
      peers = JSONPeers raftPath
  | NewInmemStore | NewDiscardSnapshotStore => False
  | _ => True
  end.

(** [w'] is [w] after calls that all satisfy [ok]. *)
Definition after (ok : Event -> Prop) (w w' : World) : Prop :=
  exists calls, trace w' = trace w ++ calls /\ Forall ok calls.

(** The answers of collaborators that all succeed, [peers.Peers()] giving
    [p] where it is asked: in dev mode to NewFSM, Peers and NewRaft;
    otherwise to NewFSM, ensurePath, NewBoltStore, NewLogCache,
    NewFileSnapshotStore, Peers if the cluster may be a single node, and
    NewRaft. *)
Definition devAnswers (p : list string) : list Answer :=
  [Done None; PeerList (inr p); Done None].

Definition diskAnswers (single : bool) (p : list string) : list Answer :=
  [Done None; Done None; Done None; Done None; Done None]
  ++ (if single then [PeerList (inr p)] else [])
  ++ [Done None].

(** The calls that see to it that the local address is among the peers of
    [store], which has the peers [p]. *)
Definition peerCalls (store : PeerStore) (p : list string) : list Event :=
  Peers store ::
  (if PeerContained p (LocalAddr config)
   then []
   else [SetPeers store (AddUniquePeer p (LocalAddr config))]).

(** The persistence configuration as stated, by the calls that set it up.
    In dev mode: one in-memory store, for the log and for stable storage,
    the discarding snapshot store and static peers. *)
Definition devCalls (p : list string) : list Event :=
  [NewFSM; NewNetworkTransport 3 (10 * Second);
   NewInmemStore; NewDiscardSnapshotStore]
  ++ peerCalls StaticPeers p
  ++ [NewRaft InmemStore InmemStore DiscardSnapshotStore StaticPeers;
      GoMonitorLeadership].

(** Otherwise: the directory DataDir/raft/ is made sure of, the BoltDB
    store is the file raft.db in it, the log store is a cache of 512 entries
    over it, the snapshot store keeps 2 snapshots in that directory and the
    peers are kept there. *)
Definition diskCalls (single : bool) (p : list string) : list Event :=
  [NewFSM; NewNetworkTransport 3 (10 * Second);
   EnsurePath (Join (DataDir config) "raft/") true;
   NewBoltStore (Join (Join (DataDir config) "raft/") "raft.db");
   NewLogCache 512
     (BoltStore (Join (Join (DataDir config) "raft/") "raft.db"));
   NewFileSnapshotStore (Join (DataDir config) "raft/") 2;
   NewJSONPeers (Join (DataDir config) "raft/")]
  ++ (if single
      then peerCalls (JSONPeers (Join (DataDir config) "raft/")) p
      else [])
  ++ [NewRaft
        (LogCache 512
           (BoltStore (Join (Join (DataDir config) "raft/") "raft.db")))
        (BoltStore (Join (Join (DataDir config) "raft/") "raft.db"))
        (FileSnapshotStore (Join (DataDir config) "raft/") 2)
        (JSONPeers (Join (DataDir config) "raft/"));
      GoMonitorLeadership].

End WithServer.

(** A server that has not been set up. *)
Definition NewServer (answers : list Answer) : World :=
  {| EnableSingleNode := false; fsm := false; raftTransport := false;
     raftInmem := None; raftStore := None; raftPeers := None; raft := false;
     script := answers; trace := [] |}.

(** *** Sample runs *)

Definition devConfig : Config :=
  {| Bootstrap := false; DevMode := true; DataDir := "";
     LocalAddr := "127.0.0.1:4647" |}.

Definition diskConfig : Config :=
  {| Bootstrap := true; DevMode := false; DataDir := "/var/lib/udup";
     LocalAddr := "10.0.0.1:4647" |}.

(** Joining with a slash, which is what [filepath.Join] does on the clean
    paths of the sample runs once the trailing slash of "raft/" is gone. *)
Definition sampleJoin (a b : string) : string :=
  (a ++ "/" ++ (if (b =? "raft/")%string then "raft" else b))%string.

End Setup.

(** * What a worker keeps to, over a whole run *)
Module WorkerRun.
Import Worker.

(** A sleep is at least the baseline and at most the limit. *)
Definition boundedSleep (te : Z * Event) : Prop :=
  match snd te with
  | TimeAfter d => backoffBaseline <= d <= backoffLimit
  | _ => True
  end.

(** The scheduler was asked to process an evaluation of that id. *)
Definition processed (id : string) (tr : list (Z * Event)) : Prop :=
  exists t e, In (t, SchedProcess e) tr /\ ID e = id.

(** Every Eval.Ack in the trace comes after the scheduler was asked to
    process the evaluation it acknowledges. *)
Definition ackedAfterProcess (tr : list (Z * Event)) : Prop :=
  forall pre t id region post,
    tr = pre ++ (t, CallRPC "Eval.Ack" (EvalSpecificRequest id region)) :: post ->
    processed id pre.

Definition sound (w : World) : Prop :=
  0 <= failures w <= 4 /\
  Forall boundedSleep (trace w) /\
  ackedAfterProcess (trace w).

(** What must hold of the trace for a call to be made next. *)
Definition mayCall (tr : list (Z * Event)) (e : Event) : Prop :=
  match e with
  | TimeAfter d => backoffBaseline <= d <= backoffLimit
  | CallRPC endpoint (EvalSpecificRequest id _) =>
      endpoint = "Eval.Ack" -> processed id tr
  | _ => True
  end.

(** Time has not gone back and the trace has only grown. *)
Definition later (w w' : World) : Prop :=
  now w <= now w' /\ exists more, trace w' = trace w ++ more.

(** How a sound worker may halt: blocked or out of fuel, never in a panic. *)
Definition calm (why : Stop) (w : World) : Prop :=
  why <> Panic /\ sound w.

(** The last call in the trace is the Plan.Submit RPC for a nil plan. *)
Definition nilPlanSubmitted (tr : list (Z * Event)) : Prop :=
  exists pre t region,
    tr = pre ++ [(t, CallRPC "Plan.Submit" (PlanRequest None region))].

(** How a sound worker may halt once a scheduler runs: blocked, out of fuel,
    or in the panic of [SubmitPlan] on a nil plan. *)
Definition halted (why : Stop) (w : World) : Prop :=
  (why = Panic -> nilPlanSubmitted (trace w)) /\ sound w.

End WorkerRun.

(** * What the leader keeps to *)
Module LeaderRun.
Import Leader.

(** [w'] is [w] after calls that all satisfy [ok], the queues untouched. *)
Definition only (ok : Event -> Prop) (w w' : World) : Prop :=
  sameQueues w w' /\ exists calls, trace w' = trace w ++ calls /\ Forall ok calls.

(** The calls of the reconciler: serf's member list, peer changes, logging. *)
Definition reconcilerCall (e : Event) : Prop :=
  match e with
  | Serf_Members | Raft_AddPeer _ | Raft_RemovePeer _ | Printf _ _ => True
  | _ => False
  end.

(** The calls [reconcileMember] may make for a member with the given status
    and parts: a peer is added only for an alive member and removed only for
    one that has left or was reaped, under the member's own address. *)
Definition callFor (status : MemberStatus) (parts : serverParts) (e : Event)
  : Prop :=
  match e with
  | Serf_Members | Printf _ _ => True
  | Raft_AddPeer addr => status = StatusAlive /\ addr = Addr parts
  | Raft_RemovePeer addr =>
      (status = StatusLeft \/ status = StatusReap) /\ addr = Addr parts
  | _ => False
  end.

(** How many times the plan queue, and the eval broker, were enabled. *)
Definition isPlanQueueEnable (e : Event) : bool :=
  match e with PlanQueue_SetEnabled true => true | _ => false end.

Definition isEvalBrokerEnable (e : Event) : bool :=
  match e with EvalBroker_SetEnabled true => true | _ => false end.

Definition times (which : Event -> bool) (tr : list Event) : nat :=
  List.length (filter which tr).

(** How many more times a leader loop may run [establishLeadership]. *)
Definition budget (l : Locals) : nat :=
  if establishedLeader l then 0%nat else 1%nat.

(** The stop channels of a node are in order: those closed were made, none
    is closed twice, the one [monitorLeadership] holds is not closed yet, and
    no two leader loops share one. *)
Definition channelsInOrder (n : Node) : Prop :=
  (forall c, In c (closedCh n) -> (c < made n)%nat) /\
  NoDup (closedCh n) /\
  (forall c, monitor_stopCh n = Some c ->
             (c < made n)%nat /\ ~ In c (closedCh n)) /\
  (forall g, In g (loops n) -> (stopCh g < made n)%nat) /\
  NoDup (map stopCh (loops n)).

End LeaderRun.

(** * What setting raft up leaves behind *)
Module SetupRun.
Import Setup.

Definition isStoreClose (e : Event) : bool :=
  match e with StoreClose => true | _ => false end.

Definition isTransClose (e : Event) : bool :=
  match e with TransClose => true | _ => false end.

Definition isNewRaft (e : Event) : bool :=
  match e with NewRaft _ _ _ _ => true | _ => false end.

Definition isGoMonitorLeadership (e : Event) : bool :=
  match e with GoMonitorLeadership => true | _ => false end.

Definition count (which : Event -> bool) (calls : list Event) : nat :=
  List.length (filter which calls).

(** How [setupRaft] has left the server, by its outcome, after [calls]:
    - on success raft is set, [monitorLeadership] was started last and
      nothing was closed;
    - on an error raft is as it was, [monitorLeadership] was not started,
      the BoltDB store was closed once if it had been opened and not at all
      otherwise, and the transport was closed if and only if making raft
      was tried;
    - while it waits for a collaborator nothing has been closed. *)
Definition leftBehind (w : World) (r : Res World (option error))
                      (calls : list Event) : Prop :=
  match r with
  | Ret None w' =>
      raft w' = true /\
      last calls NewFSM = GoMonitorLeadership /\
      count isGoMonitorLeadership calls = 1%nat /\
      count isStoreClose calls = 0%nat /\
      count isTransClose calls = 0%nat
  | Ret (Some _) w' =>
      raft w' = raft w /\
      count isGoMonitorLeadership calls = 0%nat /\
      count isStoreClose calls
        = (match raftStore w' with Some _ => 1 | None => 0 end)%nat /\
      count isTransClose calls = count isNewRaft calls
  | Halt _ w' =>
      raft w' = raft w /\
      count isGoMonitorLeadership calls = 0%nat /\
      count isStoreClose calls = 0%nat /\
      count isTransClose calls = 0%nat
  end.

End SetupRun.

(** * The server file: NewServer and Shutdown

    [setupRaft] runs inside [NewServer], and [Shutdown] undoes it.  The
    server of this module carries the fields [setupRaft] sets (a world of
    [Setup], whose own trace stays empty) next to the shutdown flag and the
    shutdown channel; every call, those of [setupRaft] included, is in one
    trace.  [config.CheckVersion], [s.raftLayer.Close], [s.raft.Shutdown]
    and [s.fsm.Close] are calls to code outside the file.  The shutdown
    lock is not modelled: one goroutine runs at a time. *)
Module Lifecycle.

Inductive Event :=
| CheckVersion                  (* config.CheckVersion() *)
| InSetup (e : Setup.Event)     (* a call of setupRaft; s.raftTransport.Close()
                                   and s.raftStore.Close() of Shutdown *)
| Printf (format : string) (args : list string)
| CloseShutdownCh               (* close(s.shutdownCh) *)
| RaftLayer_Close               (* s.raftLayer.Close() *)
| Raft_Shutdown                 (* s.raft.Shutdown(), then future.Error() *)
| FSM_Close.                    (* s.fsm.Close() *)

Record Server := {
  fields : Setup.World;
  shutdown : bool;        (* s.shutdown *)
  shutdownCh : bool;      (* is s.shutdownCh closed *)
  trace : list Event
}.

Definition emit (e : Event) : M Server unit := fun s =>
  Ret tt {| fields := fields s; shutdown := shutdown s;
            shutdownCh := shutdownCh s; trace := trace s ++ [e] |}.

Definition withTrace (tr : list Setup.Event) (w : Setup.World) : Setup.World :=
  {| Setup.EnableSingleNode := Setup.EnableSingleNode w;
     Setup.fsm := Setup.fsm w;
     Setup.raftTransport := Setup.raftTransport w;
     Setup.raftInmem := Setup.raftInmem w;
     Setup.raftStore := Setup.raftStore w;
     Setup.raftPeers := Setup.raftPeers w;
     Setup.raft := Setup.raft w;
     Setup.script := Setup.script w;
     Setup.trace := tr |}.

(** The server once a computation of [Setup] has run to [w']: its calls go
    to the end of the trace. *)
Definition moved (s : Server) (w' : Setup.World) : Server :=
  {| fields := withTrace [] w'; shutdown := shutdown s;
     shutdownCh := shutdownCh s;
     trace := trace s ++ map InSetup (Setup.trace w') |}.

(** Running a computation of [Setup] on the fields of the server. *)
Definition inSetup {A} (c : M Setup.World A) : M Server A := fun s =>
  match c (withTrace [] (fields s)) with
  | Ret a w' => Ret a (moved s w')
  | Halt why w' => Halt why (moved s w')
  end.

(** A call that may fail. *)
Definition call (e : Event) : M Server (option error) :=
  emit e ;;
  a <- inSetup Setup.answer ;;
  match a with
  | Setup.Done err => ret err
  | _ => halt Blocked
  end.

Definition set_shutdown : M Server unit := fun s =>
  Ret tt {| fields := fields s; shutdown := true;
            shutdownCh := shutdownCh s; trace := trace s |}.

(** [close(s.shutdownCh)]: closing a closed channel panics. *)
Definition close_shutdownCh : M Server unit := fun s =>
  if shutdownCh s
  then Halt Panic s
  else Ret tt {| fields := fields s; shutdown := shutdown s;
                 shutdownCh := true; trace := trace s ++ [CloseShutdownCh] |}.

Definition Shutdown : M Server (option error) :=
  emit (Printf "[INFO] server: shutting down server" []) ;;
  fun s =>
    if shutdown s
    then Ret None s
    else
      (set_shutdown ;;
       close_shutdownCh ;;
       (if Setup.raft (fields s)
        then
          inSetup (Setup.emit Setup.TransClose) ;;
          emit RaftLayer_Close ;;
          err <- call Raft_Shutdown ;;
          (match err with
           | Some e =>
               emit (Printf "[WARN] server: Error shutting down raft: %s" [e])
           | None => ret tt
           end) ;;
          inSetup Setup.closeStoreIfAny
        else ret tt) ;;
       (if Setup.fsm (fields s) then emit FSM_Close else ret tt) ;;
       ret None) s.

Section WithServer.

Variable config : Setup.Config.

(** [filepath.Join], of Go's standard library. *)
Variable Join : string -> string -> string.

(** [NewServer], run on the server it makes; [None] when the server is
    returned.  The log output and the logger are not modelled. *)
Definition NewServer : M Server (option error) :=
  err <- call CheckVersion ;;
  match err with
  | Some e => ret (Some e)
  | None =>
      err <- inSetup (Setup.setupRaft config Join) ;;
      match err with
      | Some e => Shutdown ;; ret (Some ("Failed to start Raft: " ++ e)%string)
      | None => ret None
      end
  end.

End WithServer.

(** The server [NewServer] makes, before it is set up. *)
Definition blank (answers : list Setup.Answer) : Server :=
  {| fields := Setup.NewServer answers; shutdown := false;
     shutdownCh := false; trace := [] |}.

(** The flag says whether the shutdown channel is closed. *)
Definition consistent (s : Server) : Prop := shutdown s = shutdownCh s.

Definition isCloseShutdownCh (e : Event) : bool :=
  match e with CloseShutdownCh => true | _ => false end.

Definition isStoreClose (e : Event) : bool :=
  match e with InSetup Setup.StoreClose => true | _ => false end.

Definition isTransClose (e : Event) : bool :=
  match e with InSetup Setup.TransClose => true | _ => false end.

Definition isNewRaft (e : Event) : bool :=
  match e with InSetup (Setup.NewRaft _ _ _ _) => true | _ => false end.

Definition isGoMonitorLeadership (e : Event) : bool :=
  match e with InSetup Setup.GoMonitorLeadership => true | _ => false end.

Definition isFSMClose (e : Event) : bool :=
  match e with FSM_Close => true | _ => false end.

(** A call to the running raft: its layer closed or raft shut down. *)
Definition isRaftStop (e : Event) : bool :=
  match e with RaftLayer_Close | Raft_Shutdown => true | _ => false end.

Definition count (which : Event -> bool) (s : Server) : nat :=
  List.length (filter which (trace s)).

Definition b2n (b : bool) : nat := if b then 1%nat else 0%nat.


(** A server is returned running: raft is set, leadership is monitored,
    nothing is closed or shut down. *)
Definition running (s : Server) : Prop :=
  Setup.raft (fields s) = true /\
  shutdown s = false /\ shutdownCh s = false /\
  count isGoMonitorLeadership s = 1%nat /\
  count isCloseShutdownCh s = 0%nat /\
  count isStoreClose s = 0%nat /\
  count isTransClose s = 0%nat /\
  count isFSMClose s = 0%nat /\
  count isRaftStop s = 0%nat.



End Lifecycle.

(** * agent/job.go

    A job reads its own fields and asks the agent's store for the stored
    copy.  The store, the agent's [RunQuery], the locks of the store and the
    log are collaborators: their calls are in the trace, their answers in
    the script.  A time is the nanoseconds since the zero time. *)
Module Agent.

Definition Success : Z := 0.
Definition Running : Z := 1.
Definition Failed : Z := 2.
Definition PartialyFailed : Z := 3.

Definition ConcurrencyAllow : string := "allow".
Definition ConcurrencyForbid : string := "forbid".

Inductive Error :=
| ErrParentJobNotFound
| ErrNoAgent
| ErrSameParent
| ErrNoParent
| ErrWrongConcurrency
| ErrKeyNotFound            (* store.ErrKeyNotFound *)
| ErrOther (msg : string).


(** The fields of [Job] the methods read.  [Success_] is the field
    [Success], [Agent] says whether the pointer is set. *)
Record Job := {
  Name : string;
  Disabled : bool;
  Agent : bool;
  ParentJob : string;
  FinishedAt : Z;
  Success_ : bool;
  Concurrency : string
}.

(** [t.IsZero()]. *)
Definition IsZero (t : Z) : bool := t =? 0.

Inductive Arg :=
| Str (s : string)
| Int (z : Z).

Inductive Event :=
| Store_GetJob (name : string)          (* j.Agent.store.GetJob(name) *)
| Agent_RunQuery (name : string)        (* j.Agent.RunQuery(j) *)
| Store_NewLock (key : string)          (* j.Agent.store.Client.NewLock(key, _) *)
| Locker_Lock (key : string)            (* j.lock.Lock(nil) *)
| Locker_Unlock (key : string)          (* j.lock.Unlock() *)
| Infof (format : string) (args : list Arg).

Inductive Answer :=
| GetJobAns (job : option Job) (err : option Error)
| NewLockAns (err : option Error)       (* a lock on the key, or an error *)
| LockerAns (err : option Error).

Record World := {
  running : bool;           (* is the mutex j.running held *)
  lock : option string;     (* j.lock, by the key it locks; [None] is nil *)
  script : list Answer;
  trace : list Event
}.

Definition emit (e : Event) : M World unit := fun w =>
  Ret tt {| running := running w; lock := lock w; script := script w;
            trace := trace w ++ [e] |}.

Definition answer : M World Answer := fun w =>
  match script w with
  | [] => Halt Blocked w
  | a :: rest =>
      Ret a {| running := running w; lock := lock w; script := rest;
               trace := trace w |}
  end.

(** [j.running.Lock()]: waits while the mutex is held. *)
Definition running_Lock : M World unit := fun w =>
  if running w
  then Halt Blocked w
  else Ret tt {| running := true; lock := lock w; script := script w;
                 trace := trace w |}.

Definition running_Unlock : M World unit := fun w =>
  Ret tt {| running := false; lock := lock w; script := script w;
            trace := trace w |}.

(** [defer d], then the body [c]: [d] runs when [c] returns and when it
    panics, not while it waits. *)
Definition deferred {A} (d : M World unit) (c : M World A) : M World A :=
  fun w =>
    match c w with
    | Ret a w' => (d ;; ret a) w'
    | Halt Panic w' => (d ;; halt Panic) w'
    | Halt why w' => Halt why w'
    end.

Definition set_lock (key : string) : M World unit := fun w =>
  Ret tt {| running := running w; lock := Some key; script := script w;
            trace := trace w |}.

Definition store_GetJob (name : string) : M World (option Job * option Error) :=
  emit (Store_GetJob name) ;;
  a <- answer ;;
  match a with
  | GetJobAns job err => ret (job, err)
  | _ => halt Blocked
  end.

(** What is left of [Status] once the stored job is at hand. *)
Definition statusOf (job : Job) : Z :=
  let success := 0 in
  let failed := 0 in
  if IsZero (FinishedAt job)
  then Running
  else
    let success := if Success_ job then success + 1 else success in
    let failed := if Success_ job then failed else failed + 1 in
    if failed =? 0 then Success
    else if (0 <? failed) && (success =? 0) then Failed
    else if (0 <? failed) && (0 <? success) then PartialyFailed
    else 0.

(** The error of [GetJob] is dropped and the job read: a nil job panics. *)
Definition Status (j : Job) : M World Z :=
  if negb (Agent j)
  then ret (-1)
  else
    r <- store_GetJob (Name j) ;;
    match fst r with
    | None => halt Panic
    | Some job => ret (statusOf job)
    end.

Definition isRunnable (j : Job) : M World bool :=
  status <- Status j ;;
  if status =? Running
  then
    if (Concurrency j =? ConcurrencyAllow)%string
    then ret true
    else if (Concurrency j =? ConcurrencyForbid)%string
    then
      emit (Infof "job:%v,concurrency:%v,job_status:%v,scheduler: Skipping execution"
                  [Str (Name j); Str (Concurrency j); Int status]) ;;
      ret false
    else ret true
  else ret true.

Definition Run (j : Job) : M World unit :=
  running_Lock ;;
  deferred running_Unlock
    (if Agent j && negb (Disabled j)
     then
       runnable <- isRunnable j ;;
       if runnable
       then
         emit (Infof "job:%v,scheduler: Run job" [Str (Name j)]) ;;
         emit (Agent_RunQuery (Name j))
       else ret tt
     else ret tt).


Section WithKeyspace.

(** The constant [keyspace], of another file of the package. *)
Variable keyspace : string.

Definition lockKey (j : Job) : string :=
  (keyspace ++ "/job_locks/" ++ Name j)%string.

Definition Lock (j : Job) : M World (option Error) :=
  if negb (Agent j)
  then ret (Some ErrNoAgent)
  else
    emit (Store_NewLock (lockKey j)) ;;
    a <- answer ;;
    match a with
    | NewLockAns (Some err) => ret (Some err)
    | NewLockAns None =>
        set_lock (lockKey j) ;;
        emit (Locker_Lock (lockKey j)) ;;
        a <- answer ;;
        match a with
        | LockerAns err => ret err
        | _ => halt Blocked
        end
    | _ => halt Blocked
    end.

(** [j.lock.Unlock()] on a nil lock panics. *)
Definition Unlock (j : Job) : M World (option Error) :=
  if negb (Agent j)
  then ret (Some ErrNoAgent)
  else fun w =>
    match lock w with
    | None => Halt Panic w
    | Some key =>
        (emit (Locker_Unlock key) ;;
         a <- answer ;;
         match a with
         | LockerAns err => ret err
         | _ => halt Blocked
         end) w
    end.

End WithKeyspace.

(** A job nobody runs and nobody has locked. *)
Definition idle (answers : list Answer) : World :=
  {| running := false; lock := None; script := answers; trace := [] |}.

(** What [Run] calls when it runs the job, and when it skips it. *)
Definition runCalls (j : Job) : list Event :=
  [Store_GetJob (Name j);
   Infof "job:%v,scheduler: Run job" [Str (Name j)];
   Agent_RunQuery (Name j)].

Definition skipCalls (j : Job) : list Event :=
  [Store_GetJob (Name j);
   Infof "job:%v,concurrency:%v,job_status:%v,scheduler: Skipping execution"
         [Str (Name j); Str (Concurrency j); Int Running]].


(** *** Sample runs *)

Definition nightly : Job :=
  {| Name := "nightly"; Disabled := false; Agent := true;
     ParentJob := "weekly"; FinishedAt := 0; Success_ := false;
     Concurrency := "forbid" |}.

Definition weekly : Job :=
  {| Name := "weekly"; Disabled := false; Agent := true;
     ParentJob := ""; FinishedAt := 1500000000 * Second; Success_ := true;
     Concurrency := "allow" |}.

End Agent.

(** * The base utilities *)
Module Base.

Section WithContains.

(** [strings.Contains], of Go's standard library. *)
Variable Contains : string -> string -> bool.

(** The loop of [StringContainsAll], from the value [nonEmptyStringsFound]
    has when it is entered. *)
Fixpoint StringContainsAll_range (s : string) (substrings : list string)
                                 (nonEmptyStringsFound : bool) : bool :=
  match substrings with
  | [] => nonEmptyStringsFound
  | substring :: rest =>
      if (substring =? "")%string
      then StringContainsAll_range s rest nonEmptyStringsFound
      else if Contains s substring
      then StringContainsAll_range s rest true
      else false
  end.

Definition StringContainsAll (s : string) (substrings : list string) : bool :=
  StringContainsAll_range s substrings false.

End WithContains.

Definition nonEmpty (s : string) : bool := negb (s =? "")%string.

End Base.

(** * Properties *)

(** ** Rules of the weakest precondition *)

Lemma wp_bind {W A B} (c : M W A) (k : A -> M W B) Q H w :
  wp (bind c k) Q H w <-> wp c (fun a => wp (k a) Q H) H w.
Proof. unfold wp, bind. destruct (c w); tauto. Qed.

Lemma wp_mono {W A} (c : M W A) (Q Q' : A -> W -> Prop) (H H' : W -> Prop) w :
  wp c Q H w ->
  (forall a w', Q a w' -> Q' a w') ->
  (forall w', H w' -> H' w') ->
  wp c Q' H' w.
Proof. unfold wp. destruct (c w); auto. Qed.

Lemma wp_ret_eq {W A} (c : M W A) Q H w a w' :
  c w = Ret a w' -> wp c Q H w -> Q a w'.
Proof. unfold wp. intros ->. auto. Qed.

Lemma wp_final {W A} (c : M W A) (I : W -> Prop) w :
  wp c (fun _ => I) I w <-> I (final (c w)).
Proof. unfold wp, final. destruct (c w); tauto. Qed.

Lemma wp_any {W A} (c : M W A) w :
  wp c (fun _ _ => True) (fun _ => True) w.
Proof. unfold wp. destruct (c w); exact I. Qed.

Lemma wp_ret_intro {W A} (a : A) (Q : A -> W -> Prop) (H : W -> Prop) w :
  Q a w -> wp (ret a) Q H w.
Proof. exact (fun q => q). Qed.

(** Sequencing a call whose specification is known. *)
Ltac wp_call spec :=
  apply wp_bind; eapply wp_mono; [ apply spec | cbv beta | cbv beta ].

(** Sequencing a call of which nothing needs to be known. *)
Ltac wp_skip :=
  apply wp_bind; eapply wp_mono; [ apply wp_any | cbv beta | cbv beta ].


(** ** The worker *)
Module WorkerFacts.
Import Worker.

(** *** Backoff *)

Lemma backoffOf_small f :
  0 <= f <= 4 ->
  backoffOf f = 2 ^ (2 * f) * backoffBaseline.
Proof.
  intros Hf.
  assert (f = 0 \/ f = 1 \/ f = 2 \/ f = 3 \/ f = 4) as Hc by lia.
  destruct Hc as [-> | [-> | [-> | [-> | ->]]]]; reflexivity.
Qed.

(** [backoffErr] always returns; this is what it has done by then. *)
Lemma backoffErr_run env w :
  exists b w',
    backoffErr env w = Ret b w' /\
    trace w' = trace w ++ [(now w, TimeAfter (interval (failures w)))] /\
    failures w' = nextFailures (failures w) /\
    script w' = script w /\
    now w <= now w' <= now w + Z.max 0 (interval (failures w)) /\
    (b = false -> now w' = now w + Z.max 0 (interval (failures w))).
Proof.
  unfold backoffErr, interval, nextFailures, bind, getFailures.
  destruct (backoffOf (failures w) >? backoffLimit);
    unfold selectAfterOrShutdown, bind, emit, timeNow, elapse, ret, setFailures;
    cbn [now trace failures script];
    unfold shutdownBy;
    destruct (shutdownAt env) as [ts|]; cbn [now trace failures script];
    try (match goal with
         | |- context [?a <=? ?b] => destruct (Z.leb_spec a b)
         end);
    do 2 eexists; (split; [reflexivity|]);
    cbn [now trace failures script]; repeat split; try lia; try discriminate.
Qed.

Lemma interval_small f :
  0 <= f <= 4 ->
  interval f = Z.min backoffLimit (2 ^ (2 * f) * backoffBaseline)
  /\ nextFailures f = Z.min (f + 1) 4.
Proof.
  intros Hf.
  assert (f = 0 \/ f = 1 \/ f = 2 \/ f = 3 \/ f = 4) as Hc by lia.
  destruct Hc as [-> | [-> | [-> | [-> | ->]]]]; split; reflexivity.
Qed.

(** One call of [backoffErr] while the counter is at most 4: the interval it
    sleeps for and the counter it leaves. *)
Lemma backoffErr_effect env w :
  0 <= failures w <= 4 ->
  trace (final (backoffErr env w)) =
    trace w ++ [(now w, TimeAfter (Z.min backoffLimit
                                     (2 ^ (2 * failures w) * backoffBaseline)))]
  /\ failures (final (backoffErr env w)) = Z.min (failures w + 1) 4.
Proof.
  intros Hf.
  destruct (backoffErr_run env w) as (b & w' & E & Ht & Hn & _).
  destruct (interval_small _ Hf) as [Hi Hx].
  rewrite E. cbn [final]. rewrite Ht, Hn, Hi, Hx. split; reflexivity.
Qed.

Lemma failing_failures env k w :
  failures w = 0 ->
  failures (failing env k w) = Z.min (Z.of_nat k) 4.
Proof.
  intros H0. induction k as [|k IH].
  - cbn. lia.
  - cbn [failing].
    destruct (backoffErr_effect env (failing env k w)) as [_ Hf]; [lia|].
    rewrite Hf, IH. lia.
Qed.

Lemma capped_interval (j : Z) :
  0 <= j ->
  Z.min backoffLimit (2 ^ (2 * Z.min j 4) * backoffBaseline) =
  Z.min backoffLimit (2 ^ (2 * j) * backoffBaseline).
Proof.
  intros Hj. destruct (Z_le_gt_dec j 4) as [Hle | Hgt].
  - now rewrite (Z.min_l j 4) by lia.
  - rewrite (Z.min_r j 4) by lia.
    assert (2 ^ (2 * 4) <= 2 ^ (2 * j)) as Hp
      by (apply Z.pow_le_mono_r; lia).
    change (2 ^ (2 * 4)) with 256 in *.
    unfold backoffLimit, backoffBaseline, Millisecond, Second in *.
    rewrite !Z.min_l; lia.
Qed.

(** C3 (as amended): the failure counter starts at zero, so on the k-th
    failure in a row (k >= 1) the worker sleeps for
    min(backoffLimit, 2^(2(k-1)) * backoffBaseline), one factor of 4 less
    than the claim says; [backoffReset] puts the counter back to zero. *)
Theorem C3_kth_failure_interval env w (k : nat) :
  failures w = 0 ->
  (1 <= k)%nat ->
  trace (failing env k w) =
    trace (failing env (k - 1) w) ++
    [(now (failing env (k - 1) w),
      TimeAfter (Z.min backoffLimit
                   (2 ^ (2 * (Z.of_nat k - 1)) * backoffBaseline)))]
  /\ failures (final (backoffReset (failing env k w))) = 0.
Proof.
  intros H0 Hk. split; [|reflexivity].
  destruct k as [|k]; [lia|].
  replace (S k - 1)%nat with k by lia.
  cbn [failing].
  destruct (backoffErr_effect env (failing env k w)) as [Ht _].
  { rewrite failing_failures by assumption. lia. }
  rewrite Ht, failing_failures by assumption.
  rewrite capped_interval by lia.
  replace (Z.of_nat (S k) - 1) with (Z.of_nat k) by lia. reflexivity.
Qed.

Lemma C3_kth_failure_interval_witness :
  trace (failing stalledEnv 3 (NewWorker 0 [])) =
    trace (failing stalledEnv (3 - 1) (NewWorker 0 [])) ++
    [(now (failing stalledEnv (3 - 1) (NewWorker 0 [])),
      TimeAfter (Z.min backoffLimit
                   (2 ^ (2 * (Z.of_nat 3 - 1)) * backoffBaseline)))]
  /\ failures (final (backoffReset
                        (failing stalledEnv 3 (NewWorker 0 [])))) = 0.
Proof.
  apply (C3_kth_failure_interval stalledEnv (NewWorker 0 []) 3).
  - reflexivity.
  - lia.
Defined.

(** C3 as stated fails at k = 1: on its first failure a new worker sleeps
    for the baseline, 20ms, not for 2^2 times the baseline. *)
Lemma C3_first_failure_sleeps_baseline :
  trace (failing stalledEnv 1 (NewWorker 0 [])) =
    [(0, TimeAfter (20 * Millisecond))]
  /\ Z.min backoffLimit (2 ^ (2 * 1) * backoffBaseline) = 80 * Millisecond
  /\ trace (failing stalledEnv 1 (NewWorker 0 [])) <>
       [(0, TimeAfter (Z.min backoffLimit (2 ^ (2 * 1) * backoffBaseline)))].
Proof.
  split; [reflexivity | split; [reflexivity | discriminate]].
Qed.

(** *** The scheduler only runs on fresh state *)

Section Freshness.

Variable env : Env.
Variable config : Config.

Lemma fresh_same_trace w w' :
  trace w' = trace w -> fresh env w -> fresh env w'.
Proof. unfold fresh. intros ->. auto. Qed.















End Freshness.

(** *** Waiting for an index that does not come *)

Lemma lastPoll_later n :
  forall off f timeout h, lastPoll n off f timeout = Some h -> off <= h.
Proof.
  induction n as [|n IH]; intros off f timeout h; cbn [lastPoll];
    [discriminate|].
  destruct (off >? timeout).
  - intros [= <-]. lia.
  - intros H. apply IH in H. lia.
Qed.

(** What [backoffErr] answers: whether the shutdown signal comes before the
    sleep is over. *)
Lemma backoffErr_answer env w :
  exists w',
    backoffErr env w
    = Ret (shutdownBy env (now w + Z.max 0 (interval (failures w)))) w'.
Proof.
  unfold backoffErr, interval, bind, getFailures.
  destruct (backoffOf (failures w) >? backoffLimit);
    unfold selectAfterOrShutdown, bind, emit, timeNow, elapse, ret, setFailures;
    cbn [now trace failures script];
    destruct (shutdownBy env _); try (destruct (shutdownAt env));
    eexists; reflexivity.
Qed.


Lemma pollAt_limit k :
  (k <= lastPollNo)%nat ->
  (pollAt k >? raftSyncLimit) = (k =? lastPollNo)%nat.
Proof.
  unfold lastPollNo. intros Hk.
  do 6 (destruct k as [|k]; [reflexivity|]). lia.
Qed.

(** A wait whose polls 0 to [n] all find the applied index below [index]
    ends in an error if poll [n] is the last one, or if the shutdown signal
    comes during the sleep that follows poll [n]; it has done nothing but
    sleep. *)
Lemma waitForIndex_check_fails env m :
  forall k fuel w start index n,
    (k + m = n)%nat ->
    (n <= lastPollNo)%nat ->
    now w = start + pollAt k ->
    failures w = failuresAt k ->
    (forall j, (k <= j <= n)%nat -> applied env (start + pollAt j) < index) ->
    n = lastPollNo \/ shutdownBy env (start + pollAt (S n)) = true ->
    (S m <= fuel)%nat ->
    exists err w' sleeps,
      waitForIndex_check env fuel start index raftSyncLimit w
        = Ret (Some err) w' /\
      (err = "sync wait limit reached" \/
       err = "shutdown while waiting for state sync") /\
      trace w' = trace w ++ sleeps /\
      Forall (fun te => isTimeAfter (snd te)) sleeps /\
      script w' = script w.
Proof.
  induction m as [|m IH];
    intros k fuel w start index n Hkn Hn Hnow Hfail Hlow Hend Hfuel;
    (destruct fuel as [|fuel]; [lia|]);
    cbn [waitForIndex_check]; unfold bind at 1, AppliedIndex;
    (assert ((index <=? applied env (now w)) = false) as ->
        by (apply Z.leb_gt; rewrite Hnow; apply Hlow; lia));
    unfold bind at 1, timeNow;
    replace (now w - start) with (pollAt k) by lia;
    rewrite pollAt_limit by lia;
    (destruct (Nat.eqb_spec k lastPollNo) as [Hlast | Hlast];
     [ exists "sync wait limit reached", w, []; rewrite app_nil_r; auto 6 |]);
    destruct (backoffErr_run env w) as (b & w1 & E & Ht & Hf1 & Hs & _ & Hadv);
    destruct (backoffErr_answer env w) as (w1' & E');
    rewrite E in E'; injection E' as Hb _;
    unfold bind; rewrite E.
  - (* poll [n]: the shutdown comes during the sleep *)
    assert (k = n) as -> by lia.
    destruct Hend as [-> | Hdown]; [contradiction|].
    assert (b = true) as ->.
    { rewrite Hb, Hnow, Hfail. cbn [pollAt] in Hdown.
      now rewrite Z.add_assoc in Hdown. }
    exists "shutdown while waiting for state sync", w1,
      [(now w, TimeAfter (interval (failures w)))].
    repeat split; auto. repeat constructor.
  - destruct b.
    { exists "shutdown while waiting for state sync", w1,
        [(now w, TimeAfter (interval (failures w)))].
      repeat split; auto. repeat constructor. }
    specialize (Hadv eq_refl).
    destruct (IH (S k) fuel w1 start index n)
      as (err & w2 & sleeps & E2 & Herr & Ht2 & Hall & Hs2); try lia; auto.
    + rewrite Hadv, Hnow, Hfail. cbn [pollAt]. lia.
    + rewrite Hf1, Hfail. reflexivity.
    + intros j Hj. apply Hlow. lia.
    + exists err, w2, ((now w, TimeAfter (interval (failures w))) :: sleeps).
      rewrite E2, Ht2, Ht, <- app_assoc. repeat split; auto.
      * constructor; [exact I | exact Hall].
      * congruence.
Qed.

Lemma lastPoll_of_fresh_wait :
  lastPoll pollBound 0 0 raftSyncLimit = Some givesUpAt.
Proof. reflexivity. Qed.

Lemma shutdownBefore_by env t :
  shutdownBefore env t -> shutdownBy env t = true.
Proof.
  intros (ts & E & Hlt). unfold shutdownBy. rewrite E. apply Z.leb_le. lia.
Qed.

Lemma waitForIndex_fails env fuel w index n :
  failures w = 0 ->
  (n <= lastPollNo)%nat ->
  missedPolls env index (now w) n ->
  n = lastPollNo \/ shutdownBefore env (now w + pollAt (S n)) ->
  (pollBound <= fuel)%nat ->
  exists err w' sleeps,
    waitForIndex env fuel index raftSyncLimit w = Ret (Some err) w' /\
    (err = "sync wait limit reached" \/
     err = "shutdown while waiting for state sync") /\
    trace w' = trace w ++ sleeps /\
    Forall (fun te => isTimeAfter (snd te)) sleeps /\
    script w' = script w.
Proof.
  intros Hf Hn Hlow Hend Hfuel. unfold waitForIndex, bind at 1, timeNow.
  apply (waitForIndex_check_fails env n 0%nat fuel w (now w) index n);
    auto; try (cbn [pollAt failuresAt]; lia).
  - intros j Hj. apply Hlow. lia.
  - destruct Hend as [-> | Hdown]; [now left | right].
    now apply shutdownBefore_by.
  - unfold pollBound, lastPollNo in *. lia.
Qed.






(** *** Shutdown right after a dequeue *)

(** C10: when the server is found shut down right after an evaluation has
    been dequeued, the worker sends Eval.Nack for it and returns; once that
    RPC is answered (whatever the answer) the goroutine is over, and the nack
    (and the log line of a failed nack) is all it has done since the
    dequeue. *)
Theorem C10_nack_when_shutdown_after_dequeue env config fuel w w1 eval :
  dequeueEvaluation env config fuel w = Ret (Some eval, false) w1 ->
  shutdownBy env (now w1) = true ->
  run env config (S fuel) w = (sendAck config (ID eval) false ;; ret tt) w1
  /\ forall dt r rest,
       script w1 = RpcAns dt r :: rest ->
       exists w2,
         run env config (S fuel) w = Ret tt w2 /\
         trace w2 =
           trace w1 ++
           (now w1, CallRPC "Eval.Nack"
                      (EvalSpecificRequest (ID eval) (Region config))) ::
           match r with
           | inl err =>
               [(now w1 + Z.max 0 dt,
                 Printf "[ERR] worker: failed to %s evaluation '%s': %v"
                        ["nack"; ID eval; err])]
           | inr _ => []
           end.
Proof.
  intros Hdeq Hdown.
  assert (run env config (S fuel) w
          = (sendAck config (ID eval) false ;; ret tt) w1) as Hrun.
  { cbn [run]. unfold bind at 1. rewrite Hdeq. cbn [fst snd].
    unfold bind at 1, IsShutdown. rewrite Hdown. reflexivity. }
  split; [exact Hrun|].
  intros dt r rest Hs. rewrite Hrun.
  unfold sendAck, RPC, bind, emit, answer, elapse, ret. cbn. rewrite Hs.
  destruct r as [err | resp]; cbn; eexists; (split; [reflexivity|]); cbn;
    rewrite <- ?app_assoc; reflexivity.
Qed.

Lemma C10_nack_when_shutdown_after_dequeue_witness :
  run closingEnv sampleConfig 3
      (NewWorker 0 [RpcAns (200 * Millisecond)
                      (inr (SingleEvalResponse (Some sampleEval)));
                    RpcAns 0 (inr GenericResponse)])
  = (sendAck sampleConfig (ID sampleEval) false ;; ret tt)
      {| now := 200 * Millisecond; failures := 0;
         script := [RpcAns 0 (inr GenericResponse)];
         trace := [(0, CallRPC "Eval.Dequeue"
                         (EvalDequeueRequest ["service"] dequeueTimeout
                                             "global"))] |}
  /\ forall dt r rest,
       [RpcAns 0 (inr GenericResponse)] = RpcAns dt r :: rest ->
       exists w2,
         run closingEnv sampleConfig 3
           (NewWorker 0 [RpcAns (200 * Millisecond)
                           (inr (SingleEvalResponse (Some sampleEval)));
                         RpcAns 0 (inr GenericResponse)]) = Ret tt w2 /\
         trace w2 =
           [(0, CallRPC "Eval.Dequeue"
                  (EvalDequeueRequest ["service"] dequeueTimeout "global"))] ++
           (200 * Millisecond,
            CallRPC "Eval.Nack" (EvalSpecificRequest "e1" "global")) ::
           match r with
           | inl err =>
               [(200 * Millisecond + Z.max 0 dt,
                 Printf "[ERR] worker: failed to %s evaluation '%s': %v"
                        ["nack"; "e1"; err])]
           | inr _ => []
           end.
Proof.
  apply (C10_nack_when_shutdown_after_dequeue closingEnv sampleConfig 2
           (NewWorker 0 [RpcAns (200 * Millisecond)
                           (inr (SingleEvalResponse (Some sampleEval)));
                         RpcAns 0 (inr GenericResponse)])
           {| now := 200 * Millisecond; failures := 0;
              script := [RpcAns 0 (inr GenericResponse)];
              trace := [(0, CallRPC "Eval.Dequeue"
                              (EvalDequeueRequest ["service"] dequeueTimeout
                                                  "global"))] |}
           sampleEval).
  - reflexivity.
  - reflexivity.
Defined.

(** *** Plan submission *)

Lemma waitForIndex_check_post env fuel start index timeout w :
  wp (waitForIndex_check env fuel start index timeout)
     (fun err w' => err = None -> index <= applied env (now w'))
     (fun _ => True) w.
Proof.
  revert w. induction fuel as [|fuel IH]; intros w; [exact I|].
  cbn [waitForIndex_check].
  apply wp_bind. unfold wp at 1, AppliedIndex.
  destruct (Z.leb_spec index (applied env (now w))) as [Hle | Hgt].
  - unfold wp, bind, backoffReset, setFailures, ret. cbn. auto.
  - apply wp_bind. unfold wp at 1, timeNow.
    destruct (now w - start >? timeout).
    + unfold wp, ret. discriminate.
    + wp_skip; auto. intros stop w1 _.
      destruct stop; [|now apply IH].
      unfold wp, ret. discriminate.
Qed.

Lemma waitForIndex_post env fuel index timeout w :
  wp (waitForIndex env fuel index timeout)
     (fun err w' => err = None -> index <= applied env (now w'))
     (fun _ => True) w.
Proof.
  unfold waitForIndex. apply wp_bind. unfold wp at 1, timeNow.
  apply waitForIndex_check_post.
Qed.

Lemma SubmitPlan_steps env config fuel plan w dt result rest :
  script w = RpcAns dt (inr (PlanResponse (Some result))) :: rest ->
  SubmitPlan env config fuel (Some plan) w =
    (if negb (RefreshIndex result =? 0)
     then
       err <- waitForIndex env fuel (RefreshIndex result) raftSyncLimit ;;
       match err with
       | Some err => ret (None, None, Some err)
       | None =>
           s <- Snapshot env ;;
           match s with
           | inl err =>
               ret (None, None, Some ("failed to snapshot state: " ++ err)%string)
           | inr snap => ret (Some result, Some snap, None)
           end
       end
     else ret (Some result, None, None)) (submitted config plan dt rest w).
Proof.
  intros Hs.
  unfold SubmitPlan, RPC, plan_EvalID, bind at 1 2 3 4 5 6, emit, answer. cbn.
  rewrite Hs. reflexivity.
Qed.

(** C5 (as amended): once Plan.Submit has returned a result for a plan,
    [SubmitPlan]
    - with refresh_index = 0 returns that result at once, with no state and
      no error, having neither polled the index nor taken a snapshot;
    - with refresh_index <> 0 runs [waitForIndex] on it, and
      - when that wait ends in an error, returns the error alone and takes
        no snapshot; the wait does end in an error when the applied index is
        below refresh_index at the polls 0 to [n] of a wait that began with
        the failure counter at zero, and poll [n] is the last one or the
        shutdown signal comes before the sleep after it is over;
      - when the wait succeeds and the snapshot fails, returns that error
        alone;
      - when both succeed, returns the result together with the snapshot,
        taken at an applied index that has reached refresh_index;
      so what it returns is either an error alone, or the result with a
      snapshot whose index has reached refresh_index. *)
Theorem C5_SubmitPlan_refresh env config fuel plan w dt result rest :
  script w = RpcAns dt (inr (PlanResponse (Some result))) :: rest ->
  (RefreshIndex result = 0 ->
     SubmitPlan env config fuel (Some plan) w
       = Ret (Some result, None, None) (submitted config plan dt rest w))
  /\
  (RefreshIndex result <> 0 ->
     (forall err w2,
         waitForIndex env fuel (RefreshIndex result) raftSyncLimit
           (submitted config plan dt rest w) = Ret (Some err) w2 ->
         SubmitPlan env config fuel (Some plan) w
           = Ret (None, None, Some err) w2)
     /\
     (forall n,
         failures w = 0 ->
         (n <= lastPollNo)%nat ->
         missedPolls env (RefreshIndex result) (now w + Z.max 0 dt) n ->
         n = lastPollNo \/
         shutdownBefore env (now w + Z.max 0 dt + pollAt (S n)) ->
         (pollBound <= fuel)%nat ->
         exists err w2 sleeps,
           SubmitPlan env config fuel (Some plan) w
             = Ret (None, None, Some err) w2 /\
           (err = "sync wait limit reached" \/
            err = "shutdown while waiting for state sync") /\
           trace w2 = trace (submitted config plan dt rest w) ++ sleeps /\
           Forall (fun te => isTimeAfter (snd te)) sleeps /\
           script w2 = rest)
     /\
     (forall w2 e rest2,
         waitForIndex env fuel (RefreshIndex result) raftSyncLimit
           (submitted config plan dt rest w) = Ret None w2 ->
         script w2 = SnapshotAns (Some e) :: rest2 ->
         SubmitPlan env config fuel (Some plan) w
           = Ret (None, None, Some ("failed to snapshot state: " ++ e)%string)
                 {| now := now w2; failures := failures w2; script := rest2;
                    trace := trace w2 ++ [(now w2, FsmSnapshot)] |})
     /\
     (forall w2 rest2,
         waitForIndex env fuel (RefreshIndex result) raftSyncLimit
           (submitted config plan dt rest w) = Ret None w2 ->
         script w2 = SnapshotAns None :: rest2 ->
         RefreshIndex result <= applied env (now w2) /\
         SubmitPlan env config fuel (Some plan) w
           = Ret (Some result, Some {| SnapIndex := applied env (now w2) |}, None)
                 {| now := now w2; failures := failures w2; script := rest2;
                    trace := trace w2 ++ [(now w2, FsmSnapshot)] |})
     /\
     (forall r st err w3,
         SubmitPlan env config fuel (Some plan) w = Ret (r, st, err) w3 ->
         (r = None /\ st = None /\ err <> None) \/
         (r = Some result /\ err = None /\
          exists snap, st = Some snap /\ RefreshIndex result <= SnapIndex snap))).
Proof.
  intros Hs. rewrite (SubmitPlan_steps env config fuel plan w dt result rest Hs).
  split.
  - intros ->. reflexivity.
  - intros Hne.
    assert (negb (RefreshIndex result =? 0) = true) as ->
      by (apply negb_true_iff, Z.eqb_neq, Hne).
    split; [|split; [|split; [|split]]].
    + intros err w2 Hwait. unfold bind at 1. rewrite Hwait. reflexivity.
    + intros n Hf Hn Hlow Hend Hfuel.
      destruct (waitForIndex_fails env fuel (submitted config plan dt rest w)
                  (RefreshIndex result) n Hf Hn Hlow Hend Hfuel)
        as (err & w2 & sleeps & Hwait & Herr & Ht & Hall & Hscript).
      exists err, w2, sleeps. unfold bind at 1. rewrite Hwait. auto.
    + intros w2 e rest2 Hwait Hs2.
      unfold bind at 1. rewrite Hwait.
      unfold Snapshot, bind, emit, answer, AppliedIndex, ret. cbn.
      rewrite Hs2. reflexivity.
    + intros w2 rest2 Hwait Hs2. split.
      * apply (wp_ret_eq _ _ _ _ _ _ Hwait
                 (waitForIndex_post env fuel (RefreshIndex result) raftSyncLimit _)).
        reflexivity.
      * unfold bind at 1. rewrite Hwait.
        unfold Snapshot, bind, emit, answer, AppliedIndex, ret. cbn.
        rewrite Hs2. reflexivity.
    + intros r st err w3.
      pose proof (waitForIndex_post env fuel (RefreshIndex result) raftSyncLimit
                    (submitted config plan dt rest w)) as Hpost.
      unfold wp in Hpost. unfold bind at 1.
      destruct (waitForIndex env fuel (RefreshIndex result) raftSyncLimit
                  (submitted config plan dt rest w)) as [[e|] w2 | why w2];
        [ | | discriminate].
      * unfold ret. intros [= <- <- <- <-]. left. repeat split. discriminate.
      * specialize (Hpost eq_refl).
        unfold Snapshot, bind, emit, answer, AppliedIndex, ret. cbn.
        destruct (script w2) as [|[ | [e|] | | | ] rest2]; try discriminate.
        -- intros [= <- <- <- <-]. left. repeat split. discriminate.
        -- intros [= <- <- <- <-]. right. repeat split.
           eexists. split; [reflexivity|]. exact Hpost.
Qed.

Lemma C5_SubmitPlan_refresh_witness :
  SubmitPlan catchingUpEnv sampleConfig 10 (Some samplePlan)
    (NewWorker 0 [RpcAns 0 (inr (PlanResponse (Some appliedResult)))])
  = Ret (Some appliedResult, None, None)
        (submitted sampleConfig samplePlan 0 []
           (NewWorker 0 [RpcAns 0 (inr (PlanResponse (Some appliedResult)))]))
  /\
  SubmitPlan catchingUpEnv sampleConfig 10 (Some samplePlan)
    (NewWorker 0 [RpcAns 0 (inr (PlanResponse (Some staleResult)));
                  SnapshotAns None])
  = Ret (Some staleResult, Some {| SnapIndex := 7 |}, None)
        {| now := 100 * Millisecond; failures := 0; script := [];
           trace :=
             [(0, CallRPC "Plan.Submit"
                    (PlanRequest (Some samplePlan) "global"));
              (0, Printf "[DEBUG] worker: submitted plan for evaluation %s"
                         ["e1"]);
              (0, TimeAfter (20 * Millisecond));
              (20 * Millisecond, TimeAfter (80 * Millisecond));
              (100 * Millisecond, FsmSnapshot)] |}
  /\
  (exists err w2 sleeps,
     SubmitPlan interruptedEnv sampleConfig 10 (Some samplePlan)
       (NewWorker 0 [RpcAns 0 (inr (PlanResponse (Some staleResult)));
                     SnapshotAns None])
     = Ret (None, None, Some err) w2 /\
     (err = "sync wait limit reached" \/
      err = "shutdown while waiting for state sync") /\
     trace w2
     = trace (submitted sampleConfig samplePlan 0 [SnapshotAns None]
                (NewWorker 0 [RpcAns 0 (inr (PlanResponse (Some staleResult)));
                              SnapshotAns None])) ++ sleeps /\
     Forall (fun te => isTimeAfter (snd te)) sleeps /\
     script w2 = [SnapshotAns None]).
Proof.
  split; [|split].
  - apply (proj1 (C5_SubmitPlan_refresh catchingUpEnv sampleConfig 10 samplePlan
                    (NewWorker 0 [RpcAns 0 (inr (PlanResponse (Some appliedResult)))])
                    0 appliedResult [] eq_refl)).
    reflexivity.
  - refine (proj2 (proj1 (proj2 (proj2 (proj2
              (proj2 (C5_SubmitPlan_refresh catchingUpEnv sampleConfig 10
                     samplePlan
                     (NewWorker 0 [RpcAns 0 (inr (PlanResponse (Some staleResult)));
                                   SnapshotAns None])
                     0 staleResult [SnapshotAns None] eq_refl) _))))
                   {| now := 100 * Millisecond; failures := 0;
                      script := [SnapshotAns None];
                      trace :=
                        [(0, CallRPC "Plan.Submit"
                               (PlanRequest (Some samplePlan) "global"));
                         (0, Printf "[DEBUG] worker: submitted plan for evaluation %s"
                                    ["e1"]);
                         (0, TimeAfter (20 * Millisecond));
                         (20 * Millisecond, TimeAfter (80 * Millisecond))] |}
                   [] _ _)).
    + discriminate.
    + reflexivity.
    + reflexivity.
  - refine (proj1 (proj2 (proj2 (C5_SubmitPlan_refresh interruptedEnv
                     sampleConfig 10 samplePlan
                     (NewWorker 0 [RpcAns 0 (inr (PlanResponse (Some staleResult)));
                                   SnapshotAns None])
                     0 staleResult [SnapshotAns None] eq_refl) _))
                  1%nat _ _ _ _ _).
    + discriminate.
    + reflexivity.
    + unfold lastPollNo. lia.
    + intros k Hk.
      assert (k = 0 \/ k = 1)%nat as [-> | ->] by lia; reflexivity.
    + right. exists (50 * Millisecond). split; reflexivity.
    + unfold pollBound. lia.
Defined.

(** C5 as stated fails when the applied index does not get to the refresh
    index: with the index stalled at 0 and a result that asks for a refresh
    up to 7, [SubmitPlan] gives up at the poll 6.7s into the wait and
    returns the error alone: no result and no snapshot, and no snapshot was
    asked of the FSM (the answer kept for it is still in the script). *)
Lemma C5_stalled_index_returns_no_snapshot :
  RefreshIndex staleResult = 7
  /\ SubmitPlan stalledEnv sampleConfig 10 (Some samplePlan)
       (NewWorker 0 [RpcAns 0 (inr (PlanResponse (Some staleResult)));
                     SnapshotAns None])
     = Ret (None, None, Some "sync wait limit reached")
           {| now := 6700 * Millisecond; failures := 4;
              script := [SnapshotAns None];
              trace :=
                [(0, CallRPC "Plan.Submit"
                       (PlanRequest (Some samplePlan) "global"));
                 (0, Printf "[DEBUG] worker: submitted plan for evaluation %s"
                            ["e1"]);
                 (0, TimeAfter (20 * Millisecond));
                 (20 * Millisecond, TimeAfter (80 * Millisecond));
                 (100 * Millisecond, TimeAfter (320 * Millisecond));
                 (420 * Millisecond, TimeAfter (1280 * Millisecond));
                 (1700 * Millisecond, TimeAfter (5 * Second))] |}.
Proof.
  split; [reflexivity | vm_compute; reflexivity].
Qed.

End WorkerFacts.

(** ** The leader *)
Module LeaderFacts.
Import Leader.

(** *** What reconciliation leaves alone

    An invariant of the world that survives every call and every answer
    survives the reconciler, which touches nothing else. *)
Section Frame.

Variable config : Config.
Variable isUdupServer : Member -> bool * serverParts.

Variable Inv : World -> Prop.

Hypothesis Inv_emit :
  forall w e,
    Inv w ->
    Inv {| planQueue := planQueue w; evalBroker := evalBroker w;
           script := script w; trace := trace w ++ [e] |}.

Hypothesis Inv_script :
  forall w answers,
    Inv w ->
    Inv {| planQueue := planQueue w; evalBroker := evalBroker w;
           script := answers; trace := trace w |}.

Lemma frame_emit e w : Inv w -> wp (emit e) (fun _ => Inv) Inv w.
Proof. intros H. unfold wp, emit. now apply Inv_emit. Qed.

Lemma frame_answer w : Inv w -> wp answer (fun _ => Inv) Inv w.
Proof.
  intros H. unfold wp, answer. destruct (script w); [exact H|].
  now apply Inv_script.
Qed.


Lemma frame_serf_Members w :
  Inv w -> wp serf_Members (fun _ => Inv) Inv w.
Proof.
  intros H. unfold serf_Members.
  wp_call frame_emit; auto. intros _ w1 H1.
  wp_call frame_answer; auto. intros a w2 H2. destruct a; exact H2.
Qed.

Lemma frame_raft_AddPeer addr w :
  Inv w -> wp (raft_AddPeer addr) (fun _ => Inv) Inv w.
Proof.
  intros H. unfold raft_AddPeer.
  wp_call frame_emit; auto. intros _ w1 H1.
  wp_call frame_answer; auto. intros a w2 H2. destruct a; exact H2.
Qed.

Lemma frame_raft_RemovePeer addr w :
  Inv w -> wp (raft_RemovePeer addr) (fun _ => Inv) Inv w.
Proof.
  intros H. unfold raft_RemovePeer.
  wp_call frame_emit; auto. intros _ w1 H1.
  wp_call frame_answer; auto. intros a w2 H2. destruct a; exact H2.
Qed.

Lemma frame_addRaftPeer m parts w :
  Inv w -> wp (addRaftPeer isUdupServer m parts) (fun _ => Inv) Inv w.
Proof.
  intros H. unfold addRaftPeer, bootstrapCheck.
  apply wp_bind.
  assert (wp (if Bootstrap parts
              then members <- serf_Members ;;
                   ret (otherBootstrap isUdupServer m members)
              else ret None) (fun _ => Inv) Inv w) as Hc.
  { destruct (Bootstrap parts); [|exact H].
    wp_call frame_serf_Members; auto. }
  eapply wp_mono; [exact Hc | cbv beta | auto].
  intros other w1 H1. destruct other.
  - wp_call frame_emit; auto.
  - wp_call frame_raft_AddPeer; auto. intros err w2 H2.
    destruct err as [e|].
    + destruct (negb (isErrKnownPeer e)); [|exact H2].
      wp_call frame_emit; auto.
    + wp_call frame_emit; auto.
Qed.

Lemma frame_removeRaftPeer m parts w :
  Inv w -> wp (removeRaftPeer m parts) (fun _ => Inv) Inv w.
Proof.
  intros H. unfold removeRaftPeer.
  wp_call frame_raft_RemovePeer; auto. intros err w2 H2.
  destruct err as [e|].
  - destruct (negb (isErrUnknownPeer e)); [|exact H2].
    wp_call frame_emit; auto.
  - wp_call frame_emit; auto.
Qed.

Lemma frame_reconcileMember member w :
  Inv w ->
  wp (reconcileMember config isUdupServer member) (fun _ => Inv) Inv w.
Proof.
  intros H. unfold reconcileMember.
  destruct (isUdupServer member) as [valid parts].
  destruct (negb valid || negb (Region parts =? config_Region config)%string);
    [exact H|].
  destruct (Name member =? selfName config)%string; [exact H|].
  apply wp_bind.
  assert (wp (match Status member with
              | StatusAlive => addRaftPeer isUdupServer member parts
              | StatusLeft | StatusReap => removeRaftPeer member parts
              | _ => ret None
              end) (fun _ => Inv) Inv w) as Hc.
  { destruct (Status member); try exact H;
      auto using frame_addRaftPeer, frame_removeRaftPeer. }
  eapply wp_mono; [exact Hc | cbv beta | auto].
  intros err w1 H1. destruct err; [|exact H1].
  wp_call frame_emit; auto.
Qed.

Lemma frame_reconcile_range members w :
  Inv w ->
  wp (reconcile_range config isUdupServer members) (fun _ => Inv) Inv w.
Proof.
  revert w. induction members as [|member rest IH]; intros w H; [exact H|].
  cbn [reconcile_range].
  wp_call frame_reconcileMember; auto. intros err w1 H1.
  destruct err; [exact H1 | now apply IH].
Qed.

Lemma frame_reconcile w :
  Inv w -> wp (reconcile config isUdupServer) (fun _ => Inv) Inv w.
Proof.
  intros H. unfold reconcile.
  wp_call frame_serf_Members; auto. intros members w1 H1.
  now apply frame_reconcile_range.
Qed.

End Frame.

Section Reconciler.

Variable config : Config.
Variable isUdupServer : Member -> bool * serverParts.

(** *** Which members are reconciled *)

(** C8: a member that is not a valid server, or is one of another region,
    or bears the local node's name, is left alone: [reconcileMember] returns
    nil and the world is as it was, so neither AddPeer nor RemovePeer (nor
    anything else) was called. *)
Theorem C8_reconcileMember_skips member w :
  fst (isUdupServer member) = false \/
  Region (snd (isUdupServer member)) <> config_Region config \/
  Name member = selfName config ->
  reconcileMember config isUdupServer member w = Ret None w.
Proof.
  intros H. unfold reconcileMember.
  destruct (isUdupServer member) as [valid parts]. cbn [fst snd] in H.
  destruct valid; cbn [negb orb]; [|reflexivity].
  destruct (String.eqb_spec (Region parts) (config_Region config)) as [Hr | Hr];
    cbn [negb]; [|reflexivity].
  destruct (String.eqb_spec (Name member) (selfName config)) as [Hs | Hs];
    [reflexivity|].
  destruct H as [H | [H | H]]; [discriminate | contradiction | contradiction].
Qed.

(** A member that passes those tests is handled according to its status. *)
Lemma reconcileMember_handles member parts w :
  isUdupServer member = (true, parts) ->
  Region parts = config_Region config ->
  Name member <> selfName config ->
  reconcileMember config isUdupServer member w =
    (err <- match Status member with
            | StatusAlive => addRaftPeer isUdupServer member parts
            | StatusLeft | StatusReap => removeRaftPeer member parts
            | _ => ret None
            end ;;
     match err with
     | Some e =>
         emit (Printf "[ERR] server: failed to reconcile member: %v: %v"
                      [Name member; showError e]) ;;
         ret (Some e)
     | None => ret None
     end) w.
Proof.
  intros Hv Hr Hs. unfold reconcileMember. rewrite Hv. cbn [negb orb].
  rewrite Hr, String.eqb_refl. cbn [negb].
  apply String.eqb_neq in Hs. rewrite Hs. reflexivity.
Qed.

(** *** Adding and removing peers *)

Lemma otherBootstrap_finds m other p members :
  In other members ->
  isUdupServer other = (true, p) ->
  Name other <> Name m ->
  Bootstrap p = true ->
  exists first, otherBootstrap isUdupServer m members = Some first.
Proof.
  intros Hin Hv Hn Hb. induction members as [|member rest IH]; [destruct Hin|].
  cbn [otherBootstrap].
  destruct (isUdupServer member) as [valid q] eqn:E.
  destruct (valid && negb (Name member =? Name m)%string && Bootstrap q) eqn:C.
  - eauto.
  - destruct Hin as [-> | Hin]; [|auto].
    rewrite Hv in E. injection E as <- <-.
    apply String.eqb_neq in Hn. rewrite Hn, Hb in C. discriminate.
Qed.

Lemma otherBootstrap_sound m members first :
  otherBootstrap isUdupServer m members = Some first ->
  In first members /\ fst (isUdupServer first) = true /\
  Name first <> Name m /\ Bootstrap (snd (isUdupServer first)) = true.
Proof.
  induction members as [|member rest IH]; [discriminate|].
  cbn [otherBootstrap].
  destruct (isUdupServer member) as [valid q] eqn:E.
  destruct (valid && negb (Name member =? Name m)%string && Bootstrap q) eqn:C.
  - intros [= <-]. rewrite E. cbn [fst snd].
    apply andb_true_iff in C as [C Hb]. apply andb_true_iff in C as [Hv Hn].
    apply negb_true_iff, String.eqb_neq in Hn. repeat split; auto. now left.
  - intros H. destruct (IH H) as (Hin & rest'). split; [now right | exact rest'].
Qed.

Lemma addRaftPeer_attempt m parts w w1 err rest :
  bootstrapCheck isUdupServer m parts w = Ret None w1 ->
  script w1 = FutureAns err :: rest ->
  addRaftPeer isUdupServer m parts w =
    (match err with
     | Some e =>
         if negb (isErrKnownPeer e)
         then emit (Printf "[ERR] server: failed to add raft peer: %v"
                           [showError e]) ;;
              ret (Some e)
         else ret None
     | None =>
         emit (Printf "[INFO] server: added raft peer: %v" [Addr parts]) ;;
         ret None
     end)
      {| planQueue := planQueue w1; evalBroker := evalBroker w1; script := rest;
         trace := trace w1 ++ [Raft_AddPeer (Addr parts)] |}.
Proof.
  intros Hc Hs. unfold addRaftPeer, bind at 1. rewrite Hc.
  unfold raft_AddPeer, bind at 1 2 3, emit, answer. cbn. rewrite Hs.
  reflexivity.
Qed.

Lemma removeRaftPeer_attempt m parts w err rest :
  script w = FutureAns err :: rest ->
  removeRaftPeer m parts w =
    (match err with
     | Some e =>
         if negb (isErrUnknownPeer e)
         then emit (Printf "[ERR] server: failed to remove raft peer '%v': %v"
                           [Addr parts; showError e]) ;;
              ret (Some e)
         else ret None
     | None =>
         emit (Printf "[INFO] server: removed server '%s' as peer" [Name m]) ;;
         ret None
     end)
      {| planQueue := planQueue w; evalBroker := evalBroker w; script := rest;
         trace := trace w ++ [Raft_RemovePeer (Addr parts)] |}.
Proof.
  intros Hs. unfold removeRaftPeer, raft_RemovePeer, bind at 1 2 3, emit, answer.
  cbn. rewrite Hs. reflexivity.
Qed.

(** C7: adding a peer the log layer already knows and removing one it
    does not know both succeed; any other error of the log layer is handed
    back.  [addRaftPeer] is taken from the point where its bootstrap check has
    let the member through; [removeRaftPeer] is what [reconcileMember] calls
    for a member that has left or was reaped. *)
Theorem C7_peer_changes_idempotent m parts :
  (forall w w1 rest,
      bootstrapCheck isUdupServer m parts w = Ret None w1 ->
      script w1 = FutureAns (Some ErrKnownPeer) :: rest ->
      addRaftPeer isUdupServer m parts w =
        Ret None {| planQueue := planQueue w1; evalBroker := evalBroker w1;
                    script := rest;
                    trace := trace w1 ++ [Raft_AddPeer (Addr parts)] |})
  /\
  (forall w w1 e rest,
      bootstrapCheck isUdupServer m parts w = Ret None w1 ->
      script w1 = FutureAns (Some e) :: rest ->
      e <> ErrKnownPeer ->
      exists w2, addRaftPeer isUdupServer m parts w = Ret (Some e) w2)
  /\
  (forall w rest,
      script w = FutureAns (Some ErrUnknownPeer) :: rest ->
      removeRaftPeer m parts w =
        Ret None {| planQueue := planQueue w; evalBroker := evalBroker w;
                    script := rest;
                    trace := trace w ++ [Raft_RemovePeer (Addr parts)] |})
  /\
  (forall w e rest,
      script w = FutureAns (Some e) :: rest ->
      e <> ErrUnknownPeer ->
      exists w2, removeRaftPeer m parts w = Ret (Some e) w2)
  /\
  (forall w rest,
      isUdupServer m = (true, parts) ->
      Region parts = config_Region config ->
      Name m <> selfName config ->
      Status m = StatusLeft \/ Status m = StatusReap ->
      script w = FutureAns (Some ErrUnknownPeer) :: rest ->
      reconcileMember config isUdupServer m w =
        Ret None {| planQueue := planQueue w; evalBroker := evalBroker w;
                    script := rest;
                    trace := trace w ++ [Raft_RemovePeer (Addr parts)] |}).
Proof.
  repeat split.
  - intros w w1 rest Hc Hs.
    now rewrite (addRaftPeer_attempt _ _ _ _ _ _ Hc Hs).
  - intros w w1 e rest Hc Hs He.
    rewrite (addRaftPeer_attempt _ _ _ _ _ _ Hc Hs).
    destruct e; [contradiction | |]; cbn; eexists; reflexivity.
  - intros w rest Hs.
    now rewrite (removeRaftPeer_attempt _ _ _ _ _ Hs).
  - intros w e rest Hs He.
    rewrite (removeRaftPeer_attempt _ _ _ _ _ Hs).
    destruct e; [| contradiction |]; cbn; eexists; reflexivity.
  - intros w rest Hv Hr Hn Hst Hs.
    rewrite (reconcileMember_handles _ _ _ Hv Hr Hn).
    unfold bind at 1.
    destruct Hst as [-> | ->];
      now rewrite (removeRaftPeer_attempt _ _ _ _ _ Hs).
Qed.

(** C6 (as amended): the check only applies to a member that is itself in
    bootstrap mode.  Reconciling an alive server of the region that is in
    bootstrap mode, while the members serf reports hold another valid server
    (one of a different name) in bootstrap mode, logs the clash and returns
    nil; serf was asked for its members and the log layer was not called. *)
Theorem C6_two_bootstrap_members_skip member parts other p members rest w :
  isUdupServer member = (true, parts) ->
  Region parts = config_Region config ->
  Name member <> selfName config ->
  Status member = StatusAlive ->
  Bootstrap parts = true ->
  script w = MembersAns members :: rest ->
  In other members ->
  isUdupServer other = (true, p) ->
  Name other <> Name member ->
  Bootstrap p = true ->
  exists first,
    reconcileMember config isUdupServer member w =
      Ret None
          {| planQueue := planQueue w; evalBroker := evalBroker w;
             script := rest;
             trace := (trace w ++ [Serf_Members]) ++
               [Printf "[ERR] server: '%v' and '%v' are both in bootstrap mode. Only one node should be in bootstrap mode, not adding Raft peer."
                       [Name member; Name first]] |}.
Proof.
  intros Hv Hr Hn Hst Hb Hs Hin Hov Hon Hob.
  destruct (otherBootstrap_finds member other p members Hin Hov Hon Hob)
    as [first Hfirst].
  exists first.
  rewrite (reconcileMember_handles _ _ _ Hv Hr Hn), Hst.
  unfold addRaftPeer, bootstrapCheck, serf_Members, bind, emit, answer, ret.
  rewrite Hb. cbn. rewrite Hs, Hfirst. reflexivity.
Qed.

End Reconciler.

Lemma C8_reconcileMember_skips_witness :
  reconcileMember sampleConfig sampleIsUdupServer memberS1
                  (idle [FutureAns None])
  = Ret None (idle [FutureAns None]).
Proof.
  apply (C8_reconcileMember_skips sampleConfig sampleIsUdupServer memberS1).
  right. right. reflexivity.
Defined.

Lemma C7_peer_changes_idempotent_witness :
  addRaftPeer sampleIsUdupServer memberM (snd (sampleIsUdupServer memberM))
              (idle [FutureAns (Some ErrKnownPeer)])
  = Ret None {| planQueue := false; evalBroker := false; script := [];
                trace := [Raft_AddPeer "10.0.0.3:4647"] |}
  /\
  removeRaftPeer memberM (snd (sampleIsUdupServer memberM))
                 (idle [FutureAns (Some ErrUnknownPeer)])
  = Ret None {| planQueue := false; evalBroker := false; script := [];
                trace := [Raft_RemovePeer "10.0.0.3:4647"] |}.
Proof.
  split.
  - apply (proj1 (C7_peer_changes_idempotent sampleConfig sampleIsUdupServer
                    memberM (snd (sampleIsUdupServer memberM)))
             (idle [FutureAns (Some ErrKnownPeer)])
             (idle [FutureAns (Some ErrKnownPeer)]) []); reflexivity.
  - apply (proj1 (proj2 (proj2 (C7_peer_changes_idempotent sampleConfig
                    sampleIsUdupServer memberM
                    (snd (sampleIsUdupServer memberM)))))
             (idle [FutureAns (Some ErrUnknownPeer)]) []); reflexivity.
Defined.

Lemma C6_two_bootstrap_members_skip_witness :
  exists first,
    reconcileMember sampleConfig sampleIsUdupServer memberB2
      (idle [MembersAns [memberS1; memberB; memberB2]])
    = Ret None
          {| planQueue := false; evalBroker := false; script := [];
             trace := ([] ++ [Serf_Members]) ++
               [Printf "[ERR] server: '%v' and '%v' are both in bootstrap mode. Only one node should be in bootstrap mode, not adding Raft peer."
                       [Name memberB2; Name first]] |}.
Proof.
  apply (C6_two_bootstrap_members_skip sampleConfig sampleIsUdupServer
           memberB2 (snd (sampleIsUdupServer memberB2))
           memberB (snd (sampleIsUdupServer memberB))
           [memberS1; memberB; memberB2] []
           (idle [MembersAns [memberS1; memberB; memberB2]]));
    try reflexivity; try discriminate.
  right. left. reflexivity.
Defined.

(** C6 as stated fails: a plain server (not in bootstrap mode) that joins
    while another member is in bootstrap mode is added as a peer.  In a pass
    over the members s1 (the local node), b (in bootstrap mode) and m, the
    log layer is asked to add m. *)
Lemma C6_member_added_beside_bootstrap_member :
  Status memberM = StatusAlive
  /\ In memberB [memberS1; memberB; memberM]
  /\ Name memberB <> Name memberM
  /\ sampleIsUdupServer memberB
     = (true, {| Region := "global"; Bootstrap := true; Addr := "10.0.0.2:4647" |})
  /\ reconcileMember sampleConfig sampleIsUdupServer memberM
       (idle [FutureAns None])
     = Ret None
           {| planQueue := false; evalBroker := false; script := [];
              trace := [Raft_AddPeer "10.0.0.3:4647";
                        Printf "[INFO] server: added raft peer: %v"
                               ["10.0.0.3:4647"]] |}
  /\ In (Raft_AddPeer "10.0.0.3:4647")
        (trace (final (reconcile sampleConfig sampleIsUdupServer
                         (idle [MembersAns [memberS1; memberB; memberM];
                                MembersAns [memberS1; memberB; memberM];
                                FutureAns None; FutureAns None])))).
Proof.
  repeat split; try reflexivity.
  - right. left. reflexivity.
  - discriminate.
  - vm_compute. tauto.
Qed.

(** *** The leader loop *)

Section LeaderLoop.

Variable config : Config.
Variable isUdupServer : Member -> bool * serverParts.






(** Whatever a pass does, it starts by arming the reconcile timer and
    issuing the barrier. *)
Lemma pass_issues_barrier l w :
  exists more,
    trace (final (leaderLoop_step config isUdupServer RECONCILE l w)) =
    trace w ++ TimeAfter (config_ReconcileInterval config)
            :: Raft_Barrier 0 :: more.
Proof.
  set (Inv := fun w' : World =>
                exists more,
                  trace w' = trace w ++ TimeAfter (config_ReconcileInterval config)
                                     :: Raft_Barrier 0 :: more).
  assert (forall w1 e, Inv w1 ->
            Inv {| planQueue := planQueue w1; evalBroker := evalBroker w1;
                   script := script w1; trace := trace w1 ++ [e] |}) as Hemit.
  { intros w1 e [more Hm]. exists (more ++ [e]). cbn. rewrite Hm.
    rewrite <- app_assoc. reflexivity. }
  assert (forall w1 answers, Inv w1 ->
            Inv {| planQueue := planQueue w1; evalBroker := evalBroker w1;
                   script := answers; trace := trace w1 |}) as Hscript.
  { intros w1 answers H. exact H. }
  change (Inv (final (leaderLoop_step config isUdupServer RECONCILE l w))).
  apply wp_final. cbn [leaderLoop_step].
  assert (wp (leaderLoop_RECONCILE config isUdupServer l)
             (fun _ => Inv) Inv w) as Hpass.
  { unfold leaderLoop_RECONCILE.
    apply wp_bind. unfold wp at 1, emit.
    unfold raft_Barrier. apply wp_bind. apply wp_bind. unfold wp at 1, emit.
    cbn [planQueue evalBroker script trace].
    wp_call (frame_answer Inv Hscript).
    { exists []. cbn. rewrite <- app_assoc. reflexivity. }
    2: auto.
    intros a w1 H1.
    assert (forall established w2, Inv w2 ->
              wp (err <- reconcile config isUdupServer ;;
                  match err with
                  | Some e =>
                      emit (Printf "[ERR] server: failed to reconcile: %v"
                                   [showError e]) ;;
                      ret {| reconcileCh := false;
                             establishedLeader := established |}
                  | None => ret {| reconcileCh := true;
                                   establishedLeader := established |}
                  end) (fun _ => Inv) Inv w2) as Hrec.
    { intros established w2 H2.
      wp_call (frame_reconcile config isUdupServer Inv Hemit Hscript); auto.
      intros err w3 H3. destruct err; [|exact H3].
      wp_call (frame_emit Inv Hemit); auto. }
    destruct a as [[e|] | | | ]; try exact H1.
    - wp_call (frame_emit Inv Hemit); auto.
    - destruct (negb (establishedLeader l)); [|now apply Hrec].
      apply wp_bind. unfold wp at 1, establishLeadership, bind,
        planQueue_SetEnabled, evalBroker_SetEnabled, ret.
      apply Hrec. destruct H1 as [more Hm].
      exists (more ++ [PlanQueue_SetEnabled true; EvalBroker_SetEnabled true]).
      cbn. rewrite Hm, <- !app_assoc. reflexivity. }
  apply wp_bind. eapply wp_mono; [exact Hpass | cbv beta | auto].
  intros l' w1 H1. exact H1.
Qed.

(** C4: a pass whose barrier fails logs the error and goes to WAIT with
    [reconcileCh] nil: it returns normally, the queues are as they were and
    [establishLeadership] was not called (the pass made three calls: the
    timer, the barrier, the log line).  From there the select cannot take the
    member case; when the timer armed at the start of the pass (after
    ReconcileInterval) fires, the loop is back at RECONCILE and issues the
    barrier again; and if the loop is stopped instead, it revokes and
    returns. *)
Theorem C4_barrier_failure_retried l w e rest :
  script w = BarrierAns (Some e) :: rest ->
  let l1 := {| reconcileCh := false; establishedLeader := establishedLeader l |} in
  let w1 :=
    {| planQueue := planQueue w; evalBroker := evalBroker w; script := rest;
       trace := trace w ++
                [TimeAfter (config_ReconcileInterval config);
                 Raft_Barrier 0;
                 Printf "[ERR] server: failed to wait for barrier: %v"
                        [showError e]] |} in
  leaderLoop_step config isUdupServer RECONCILE l w = Ret (Some (WAIT, l1)) w1
  /\
  (forall member rest',
      leaderLoop_step config isUdupServer WAIT l1
        (withScript (Selected (OnMember member) :: rest') w1)
      = Halt Blocked (withScript rest' w1))
  /\
  (forall rest',
      leaderLoop_step config isUdupServer WAIT l1
        (withScript (Selected OnInterval :: rest') w1)
      = Ret (Some (RECONCILE, l1)) (withScript rest' w1)
      /\
      exists more,
        trace (final (leaderLoop_step config isUdupServer RECONCILE l1
                        (withScript rest' w1)))
        = trace w1 ++ TimeAfter (config_ReconcileInterval config)
                   :: Raft_Barrier 0 :: more)
  /\
  (forall rest',
      leaderLoop_step config isUdupServer WAIT l1
        (withScript (Selected OnStop :: rest') w1)
      = Ret None
            {| planQueue := false; evalBroker := false; script := rest';
               trace := trace w1 ++ [PlanQueue_SetEnabled false;
                                     EvalBroker_SetEnabled false] |}).
Proof.
  intros Hs l1 w1. split; [|split; [|split]].
  - cbn [leaderLoop_step].
    unfold leaderLoop_RECONCILE, raft_Barrier, bind, emit, answer, ret. cbn.
    rewrite Hs. cbn. subst w1. rewrite <- !app_assoc. reflexivity.
  - intros member rest'. reflexivity.
  - intros rest'. split; [reflexivity|].
    exact (pass_issues_barrier l1 (withScript rest' w1)).
  - intros rest'. cbn. rewrite <- !app_assoc. reflexivity.
Qed.

(** *** The node *)









End LeaderLoop.

Lemma C4_barrier_failure_retried_witness :
  leaderLoop_step sampleConfig sampleIsUdupServer RECONCILE enterLoop
    (idle [BarrierAns (Some (ErrOther "leadership lost while committing log"))])
  = Ret (Some (WAIT, enterLoop))
        {| planQueue := false; evalBroker := false; script := [];
           trace := [TimeAfter (60 * Second); Raft_Barrier 0;
                     Printf "[ERR] server: failed to wait for barrier: %v"
                            ["leadership lost while committing log"]] |}.
Proof.
  apply (proj1 (C4_barrier_failure_retried sampleConfig sampleIsUdupServer
                  enterLoop
                  (idle [BarrierAns (Some (ErrOther "leadership lost while committing log"))])
                  (ErrOther "leadership lost while committing log") []
                  eq_refl)).
Defined.



End LeaderFacts.

(** ** Setting up raft *)
Module SetupFacts.
Import Setup.

Ltac next_answer :=
  match goal with
  | |- context [match ?l with [] => _ | _ :: _ => _ end] =>
      lazymatch type of l with
      | list Answer =>
          let a := fresh "a" in
          let rest := fresh "rest" in
          destruct l as [|a rest];
          [|destruct a as [[?|]|[?|?]]]; cbn
      end
  | |- context [negb (PeerContained ?p ?x)] =>
      destruct (PeerContained p x) eqn:?; cbn
  | |- context [match raftStore ?w with _ => _ end] =>
      destruct (raftStore w); cbn
  | |- context [if EnableSingleNode ?w then _ else _] =>
      destruct (EnableSingleNode w); cbn
  end.

Ltac show_after :=
  unfold after; cbn [trace]; rewrite <- ?app_assoc; cbn [app];
  eexists; split; [reflexivity|];
  repeat constructor; cbn; auto.

Lemma setupRaft_dev config Join w :
  DevMode config = true ->
  after inMemory w (final (setupRaft config Join w)).
Proof.
  intros Hdev.
  unfold setupRaft, makeStores, call, closeStoreIfAny, bind, emit, answer, ret,
    halt, set_EnableSingleNode, set_fsm, set_raftTransport, set_raftInmem,
    set_raft, get_EnableSingleNode.
  rewrite Hdev, orb_true_r. cbn.
  repeat next_answer; show_after.
Qed.

Lemma setupRaft_disk config Join w :
  DevMode config = false ->
  after (persistent config Join) w (final (setupRaft config Join w)).
Proof.
  intros Hdev.
  unfold setupRaft, makeStores, call, closeStoreIfAny, bind, emit, answer, ret,
    halt, set_EnableSingleNode, set_fsm, set_raftTransport, set_raftStore,
    set_raftPeers, set_raft, get_EnableSingleNode.
  rewrite Hdev, orb_false_r. cbn.
  destruct (Bootstrap config); cbn; repeat next_answer; show_after;
    unfold snapshotsRetained; lia.
Qed.

(** With collaborators that all succeed, [setupRaft] succeeds. *)
Lemma setupRaft_dev_succeeds config Join w p rest :
  DevMode config = true ->
  script w = devAnswers p ++ rest ->
  exists w',
    setupRaft config Join w = Ret None w' /\
    trace w' = trace w ++ devCalls config p /\
    raftInmem w' = Some InmemStore /\
    raftStore w' = raftStore w /\
    raft w' = true /\
    script w' = rest.
Proof.
  intros Hdev Hs.
  unfold setupRaft, makeStores, call, closeStoreIfAny, bind, emit, answer, ret,
    halt, set_EnableSingleNode, set_fsm, set_raftTransport, set_raftInmem,
    set_raft, get_EnableSingleNode, devCalls, peerCalls.
  rewrite Hdev, orb_true_r. cbn. rewrite Hs. cbn.
  destruct (PeerContained p (LocalAddr config)); cbn;
    eexists; (split; [reflexivity|]); cbn;
    rewrite <- ?app_assoc; cbn; auto 6.
Qed.

Lemma setupRaft_disk_succeeds config Join w p rest :
  DevMode config = false ->
  script w = diskAnswers (Bootstrap config || EnableSingleNode w) p ++ rest ->
  exists w',
    setupRaft config Join w = Ret None w' /\
    trace w'
    = trace w ++ diskCalls config Join
                   (Bootstrap config || EnableSingleNode w) p /\
    raftInmem w' = raftInmem w /\
    raftStore w' = Some (BoltStore (Join (raftPath config Join) "raft.db")) /\
    raftPeers w' = Some (JSONPeers (raftPath config Join)) /\
    raft w' = true /\
    script w' = rest.
Proof.
  intros Hdev.
  unfold setupRaft, makeStores, call, closeStoreIfAny, bind, emit, answer, ret,
    halt, set_EnableSingleNode, set_fsm, set_raftTransport, set_raftStore,
    set_raftPeers, set_raft, get_EnableSingleNode, diskCalls, diskAnswers,
    peerCalls, raftPath, raftState, raftLogCacheSize, snapshotsRetained.
  rewrite Hdev, orb_false_r.
  destruct (Bootstrap config), (EnableSingleNode w) eqn:Hsingle;
    cbn; intros Hs; rewrite Hs; cbn; rewrite ?Hsingle; cbn;
    try (destruct (PeerContained p (LocalAddr config)); cbn);
    eexists; (split; [reflexivity|]); cbn;
    rewrite <- ?app_assoc; cbn; auto 8.
Qed.

(** A set-up that succeeded has made exactly the calls of its mode. *)
Lemma setupRaft_calls config Join w w' :
  setupRaft config Join w = Ret None w' ->
  exists p,
    trace w'
    = trace w ++
      (if DevMode config
       then devCalls config p
       else diskCalls config Join (Bootstrap config || EnableSingleNode w) p).
Proof.
  unfold setupRaft, makeStores, call, closeStoreIfAny, bind, emit, answer,
    ret, halt, set_EnableSingleNode, set_fsm, set_raftTransport, set_raftInmem,
    set_raftStore, set_raftPeers, set_raft, get_EnableSingleNode,
    devCalls, diskCalls, peerCalls, raftPath, raftState, raftLogCacheSize,
    snapshotsRetained.
  destruct (Bootstrap config), (DevMode config); cbn;
    repeat next_answer; try discriminate;
    intros [= <-]; cbn;
    first [ match goal with l : list string |- _ => exists l end
          | exists [] ];
    repeat match goal with
           | H : PeerContained _ _ = _ |- _ => rewrite H; clear H
           end;
    cbn; rewrite <- ?app_assoc; reflexivity.
Qed.

(** C9: the constants are as stated, and
    - in dev mode [setupRaft], with collaborators that succeed, makes one
      in-memory store, for the log and for stable storage, and the
      discarding snapshot store, and makes raft over them; whatever the
      collaborators answer, no call of it touches the file system;
    - otherwise [setupRaft], with collaborators that succeed, makes sure of
      the directory DataDir joined with "raft/", opens the BoltDB file
      raft.db in it, wraps it in a log cache of 512 entries, makes the file
      snapshot store in that directory with 2 snapshots retained, keeps the
      peers there, and makes raft over the cache (the log), the BoltDB store
      (stable storage) and that snapshot store; whatever the collaborators
      answer, every store it makes is made so, and none is in memory;
    - a [setupRaft] that has succeeded has made exactly these calls, in this
      order, and no other. *)
Theorem C9_persistence_configuration config Join w :
  snapshotsRetained = 2 /\ raftLogCacheSize = 512
  /\ raftPath config Join = Join (DataDir config) "raft/"
  /\ (DevMode config = true ->
      (forall p rest,
          script w = devAnswers p ++ rest ->
          exists w',
            setupRaft config Join w = Ret None w' /\
            trace w' = trace w ++ devCalls config p /\
            raftInmem w' = Some InmemStore /\
            raftStore w' = raftStore w /\
            raft w' = true /\
            script w' = rest)
      /\ after inMemory w (final (setupRaft config Join w)))
  /\ (DevMode config = false ->
      (forall p rest,
          script w
          = diskAnswers (Bootstrap config || EnableSingleNode w) p ++ rest ->
          exists w',
            setupRaft config Join w = Ret None w' /\
            trace w'
            = trace w ++ diskCalls config Join
                           (Bootstrap config || EnableSingleNode w) p /\
            raftInmem w' = raftInmem w /\
            raftStore w'
            = Some (BoltStore (Join (raftPath config Join) "raft.db")) /\
            raftPeers w' = Some (JSONPeers (raftPath config Join)) /\
            raft w' = true /\
            script w' = rest)
      /\ after (persistent config Join) w (final (setupRaft config Join w)))
  /\ (forall w',
        setupRaft config Join w = Ret None w' ->
        exists p,
          trace w'
          = trace w ++
            (if DevMode config
             then devCalls config p
             else diskCalls config Join
                    (Bootstrap config || EnableSingleNode w) p)).
Proof.
  split; [reflexivity|]. split; [reflexivity|]. split; [reflexivity|].
  split; [|split].
  - intros Hdev. split.
    + intros p rest. now apply setupRaft_dev_succeeds.
    + now apply setupRaft_dev.
  - intros Hdev. split.
    + intros p rest. now apply setupRaft_disk_succeeds.
    + now apply setupRaft_disk.
  - apply setupRaft_calls.
Qed.

Lemma C9_persistence_configuration_witness :
  (exists w',
     setupRaft devConfig sampleJoin
       (NewServer [Done None; PeerList (inr []); Done None]) = Ret None w' /\
     trace w'
     = trace (NewServer [Done None; PeerList (inr []); Done None])
       ++ devCalls devConfig [] /\
     raftInmem w' = Some InmemStore /\
     raftStore w'
     = raftStore (NewServer [Done None; PeerList (inr []); Done None]) /\
     raft w' = true /\
     script w' = [])
  /\
  (exists w',
     setupRaft diskConfig sampleJoin
       (NewServer [Done None; Done None; Done None; Done None; Done None;
                   PeerList (inr []); Done None]) = Ret None w' /\
     trace w'
     = trace (NewServer [Done None; Done None; Done None; Done None;
                         Done None; PeerList (inr []); Done None])
       ++ diskCalls diskConfig sampleJoin
            (Bootstrap diskConfig
             || EnableSingleNode
                  (NewServer [Done None; Done None; Done None; Done None;
                              Done None; PeerList (inr []); Done None]))
            [] /\
     raftInmem w'
     = raftInmem (NewServer [Done None; Done None; Done None; Done None;
                             Done None; PeerList (inr []); Done None]) /\
     raftStore w'
     = Some (BoltStore (sampleJoin (raftPath diskConfig sampleJoin) "raft.db")) /\
     raftPeers w' = Some (JSONPeers (raftPath diskConfig sampleJoin)) /\
     raft w' = true /\
     script w' = [])
  /\
  (exists p,
     trace (final (setupRaft diskConfig sampleJoin
                     (NewServer [Done None; Done None; Done None; Done None;
                                 Done None; PeerList (inr ["10.0.0.2:4647"]);
                                 Done None])))
     = trace (NewServer [Done None; Done None; Done None; Done None;
                         Done None; PeerList (inr ["10.0.0.2:4647"]);
                         Done None])
       ++ (if DevMode diskConfig
           then devCalls diskConfig p
           else diskCalls diskConfig sampleJoin
                  (Bootstrap diskConfig
                   || EnableSingleNode
                        (NewServer [Done None; Done None; Done None;
                                    Done None; Done None;
                                    PeerList (inr ["10.0.0.2:4647"]);
                                    Done None]))
                  p)).
Proof.
  split; [|split].
  - apply (proj1 (proj1 (proj2 (proj2 (proj2
             (C9_persistence_configuration devConfig sampleJoin
                (NewServer [Done None; PeerList (inr []); Done None])))))
             eq_refl) [] []).
    reflexivity.
  - apply (proj1 (proj1 (proj2 (proj2 (proj2 (proj2
             (C9_persistence_configuration diskConfig sampleJoin
                (NewServer [Done None; Done None; Done None; Done None;
                            Done None; PeerList (inr []); Done None]))))))
             eq_refl) [] []).
    reflexivity.
  - apply (proj2 (proj2 (proj2 (proj2 (proj2
             (C9_persistence_configuration diskConfig sampleJoin
                (NewServer [Done None; Done None; Done None; Done None;
                            Done None; PeerList (inr ["10.0.0.2:4647"]);
                            Done None])))))) _).
    vm_compute. reflexivity.
Defined.

End SetupFacts.

(** ** Rules of [wpx] *)

Lemma wpx_bind {W A B} (c : M W A) (k : A -> M W B) Q H w :
  wpx (bind c k) Q H w <-> wpx c (fun a => wpx (k a) Q H) H w.
Proof. unfold wpx, bind. destruct (c w); tauto. Qed.

Lemma wpx_mono {W A} (c : M W A) (Q Q' : A -> W -> Prop)
                (H H' : Stop -> W -> Prop) w :
  wpx c Q H w ->
  (forall a w', Q a w' -> Q' a w') ->
  (forall why w', H why w' -> H' why w') ->
  wpx c Q' H' w.
Proof. unfold wpx. destruct (c w); auto. Qed.

Lemma wpx_ret_eq {W A} (c : M W A) Q H w a w' :
  c w = Ret a w' -> wpx c Q H w -> Q a w'.
Proof. unfold wpx. intros ->. auto. Qed.

Ltac wpx_call spec :=
  apply wpx_bind; eapply wpx_mono; [ apply spec | cbv beta | cbv beta ].

(** ** The worker, over a whole run *)
Module WorkerRunFacts.
Import Worker WorkerRun WorkerFacts.

Lemma later_refl w : later w w.
Proof. split; [lia | exists []; now rewrite app_nil_r]. Qed.

Lemma later_trans w1 w2 w3 : later w1 w2 -> later w2 w3 -> later w1 w3.
Proof.
  intros [H1 [m1 E1]] [H2 [m2 E2]]. split; [lia|].
  exists (m1 ++ m2). now rewrite E2, E1, app_assoc.
Qed.

Lemma processed_later id w w' :
  later w w' -> processed id (trace w) -> processed id (trace w').
Proof.
  intros [_ [more E]] (t & e & Hin & Hid). exists t, e. split; [|exact Hid].
  rewrite E. apply in_or_app. now left.
Qed.

Lemma acked_snoc tr te :
  ackedAfterProcess tr ->
  (forall t id region,
      te = (t, CallRPC "Eval.Ack" (EvalSpecificRequest id region)) ->
      processed id tr) ->
  ackedAfterProcess (tr ++ [te]).
Proof.
  intros Hacked Hnew pre t id region post.
  destruct post as [|z post'] using rev_ind.
  - intros E. apply app_inj_tail in E as [-> ->]. eapply Hnew. reflexivity.
  - clear IHpost'. rewrite app_comm_cons, app_assoc. intros E.
    apply app_inj_tail in E as [E _]. eapply Hacked. exact E.
Qed.

Lemma sound_emit w e :
  sound w -> mayCall (trace w) e ->
  sound {| now := now w; failures := failures w; script := script w;
           trace := trace w ++ [(now w, e)] |}.
Proof.
  intros (Hf & Hs & Ha) Hok. repeat split; cbn [failures trace]; try lia.
  - apply Forall_app. split; [exact Hs|]. constructor; [|constructor].
    unfold boundedSleep. cbn [snd]. destruct e; try exact I. exact Hok.
  - apply acked_snoc; [exact Ha|].
    intros t id region [= _ ->]. cbn in Hok. now apply Hok.
Qed.

Lemma calm_halted why w : calm why w -> halted why w.
Proof. intros [Hwhy Hs]. split; [intros E; contradiction | exact Hs]. Qed.

#[local] Hint Resolve calm_halted : core.

Lemma wpx_ret_intro {W A} (a : A) (Q : A -> W -> Prop)
                    (H : Stop -> W -> Prop) w :
  Q a w -> wpx (ret a) Q H w.
Proof. exact (fun q => q). Qed.

Section Run.

Variable env : Env.
Variable config : Config.

(** An RPC that has returned left its call as the last one in the trace. *)
Lemma RPC_trace endpoint req w r w' :
  RPC endpoint req w = Ret r w' ->
  trace w' = trace w ++ [(now w, CallRPC endpoint req)].
Proof.
  unfold RPC, bind, emit, answer, elapse, ret, halt. cbn.
  destruct (script w) as [|[dt r0| | | | ] rest]; try discriminate.
  intros [= _ <-]. reflexivity.
Qed.

Lemma shutdownBy_later t t' :
  t <= t' -> shutdownBy env t = true -> shutdownBy env t' = true.
Proof.
  unfold shutdownBy. destruct (shutdownAt env) as [ts|]; [|discriminate].
  intros Ht H. apply Z.leb_le in H. apply Z.leb_le. lia.
Qed.

Lemma run_emit e w :
  sound w -> mayCall (trace w) e ->
  wpx (emit e) (fun _ w' => sound w' /\ later w w') calm w.
Proof.
  intros Hs Hok. unfold wpx, emit. split; [now apply sound_emit|].
  split; cbn; [lia | eauto].
Qed.

Lemma run_answer w :
  sound w -> wpx answer (fun _ w' => sound w' /\ later w w') calm w.
Proof.
  intros Hs. unfold wpx, answer. destruct (script w).
  - split; [discriminate | exact Hs].
  - split; [exact Hs | exact (later_refl w)].
Qed.

Lemma run_RPC endpoint req w :
  sound w -> mayCall (trace w) (CallRPC endpoint req) ->
  wpx (RPC endpoint req) (fun _ w' => sound w' /\ later w w') calm w.
Proof.
  intros Hs Hok. unfold RPC.
  wpx_call run_emit; auto. intros _ w1 [H1 L1].
  wpx_call run_answer; auto. intros a w2 [H2 L2].
  pose proof (later_trans _ _ _ L1 L2) as L.
  destruct a; try (split; [discriminate | exact H2]).
  unfold wpx, bind, elapse, ret. split; [exact H2|].
  destruct L as [Hn [more E]]. split; cbn; [lia | eauto].
Qed.

Lemma interval_within f :
  0 <= f <= 4 ->
  backoffBaseline <= interval f <= backoffLimit /\ 0 <= nextFailures f <= 4.
Proof.
  intros Hf.
  assert (f = 0 \/ f = 1 \/ f = 2 \/ f = 3 \/ f = 4) as Hc by lia.
  destruct Hc as [-> | [-> | [-> | [-> | ->]]]]; vm_compute;
    repeat split; discriminate.
Qed.

Lemma backoffErr_shutdown w b w' :
  backoffErr env w = Ret b w' -> b = true -> shutdownBy env (now w') = true.
Proof.
  unfold backoffErr, bind, getFailures.
  destruct (backoffOf (failures w) >? backoffLimit);
    unfold selectAfterOrShutdown, bind, emit, timeNow, elapse, ret, setFailures;
    cbn [now trace failures script];
    unfold shutdownBy;
    (destruct (shutdownAt env) as [ts|]; cbn [now trace failures script];
     [ match goal with
       | |- context [?a <=? ?b] => destruct (Z.leb_spec a b)
       end | ]);
    intros [= <- <-]; try discriminate; intros _; cbn [now];
    apply Z.leb_le; lia.
Qed.

Lemma run_backoffErr w :
  sound w ->
  wpx (backoffErr env)
      (fun b w' => sound w' /\ later w w' /\
                   (b = true -> shutdownBy env (now w') = true))
      calm w.
Proof.
  intros (Hf & Hs & Ha). unfold wpx.
  destruct (backoffErr_run env w) as (b & w' & E & Ht & Hn & _ & Hrange & _).
  pose proof (backoffErr_shutdown w b w') as Hdown.
  rewrite E in *.
  destruct (interval_within _ Hf) as [Hi Hnext].
  split; [|split].
  - repeat split; try (rewrite Hn; lia).
    + rewrite Ht. apply Forall_app. split; [exact Hs|].
      constructor; [exact Hi | constructor].
    + rewrite Ht. apply acked_snoc; [exact Ha|]. intros t id region [=].
  - split; [lia | eauto].
  - auto.
Qed.

Lemma run_sendAck evalID ack w :
  sound w ->
  (ack = true -> processed evalID (trace w)) ->
  wpx (sendAck config evalID ack) (fun _ w' => sound w' /\ later w w') calm w.
Proof.
  intros Hs Hp. unfold sendAck.
  wpx_call run_RPC; auto.
  - destruct ack; cbn; [auto | discriminate].
  - intros r w1 [H1 L1]. destruct r as [err|].
    + eapply wpx_mono; [apply run_emit; cbn; auto | cbv beta | auto].
      intros _ w2 [H2 L2]. split; [exact H2 | eapply later_trans; eauto].
    + split; [exact H1 | exact L1].
Qed.

Lemma run_dequeueEvaluation fuel w :
  sound w ->
  wpx (dequeueEvaluation env config fuel)
      (fun d w' => sound w' /\ later w w' /\
                   (snd d = true -> shutdownBy env (now w') = true) /\
                   (snd d = false -> fst d <> None))
      calm w.
Proof.
  revert w. induction fuel as [|fuel IH]; intros w Hs;
    [split; [discriminate | exact Hs]|].
  cbn [dequeueEvaluation].
  wpx_call run_RPC; cbn; auto. intros r w1 [H1 L1].
  destruct r as [err | [resp_Eval | | ]];
    try (split; [discriminate | exact H1]).
  - wpx_call run_emit; cbn; auto. intros _ w2 [H2 L2].
    wpx_call run_backoffErr; auto. intros stop w3 (H3 & L3 & Hdown).
    pose proof (later_trans _ _ _ L1 (later_trans _ _ _ L2 L3)) as L.
    destruct stop.
    + unfold wpx, ret. cbn [fst snd].
      split; [exact H3 | split; [exact L | split; [exact Hdown | intros [=]]]].
    + eapply wpx_mono; [apply IH; exact H3 | cbv beta | auto].
      intros d w4 (H4 & L4 & Hrest). split; [exact H4|].
      split; [eapply later_trans; eauto | exact Hrest].
  - unfold backoffReset. apply wpx_bind. unfold wpx at 1, setFailures.
    assert (sound {| now := now w1; failures := 0; script := script w1;
                     trace := trace w1 |}) as H1'.
    { destruct H1 as (_ & Hsl & Hac). repeat split; cbn; auto; lia. }
    assert (later w {| now := now w1; failures := 0; script := script w1;
                       trace := trace w1 |}) as L1' by exact L1.
    destruct resp_Eval as [ev|].
    + unfold wpx, ret. cbn [fst snd].
      split; [exact H1' | split; [exact L1' | split; [intros [=] | discriminate]]].
    + apply wpx_bind. unfold wpx at 1, IsShutdown. cbn [now].
      destruct (shutdownBy env (now w1)) eqn:Hdown.
      * unfold wpx, ret. cbn [fst snd].
        split; [exact H1' | split; [exact L1' | split; [auto | intros [=]]]].
      * eapply wpx_mono; [apply IH; exact H1' | cbv beta | auto].
        intros d w4 (H4 & L4 & Hrest). split; [exact H4|].
        split; [eapply later_trans; eauto | exact Hrest].
Qed.

Lemma run_waitForIndex_check fuel start index timeout w :
  sound w ->
  wpx (waitForIndex_check env fuel start index timeout)
      (fun _ w' => sound w' /\ later w w') calm w.
Proof.
  revert w. induction fuel as [|fuel IH]; intros w Hs;
    [split; [discriminate | exact Hs]|].
  cbn [waitForIndex_check].
  apply wpx_bind. unfold wpx at 1, AppliedIndex.
  destruct (index <=? applied env (now w)).
  - unfold wpx, bind, backoffReset, setFailures, ret.
    destruct Hs as (_ & Hsl & Hac).
    split; [repeat split; cbn; auto; lia | exact (later_refl w)].
  - apply wpx_bind. unfold wpx at 1, timeNow.
    destruct (now w - start >? timeout).
    + unfold wpx, ret. split; [exact Hs | apply later_refl].
    + wpx_call run_backoffErr; auto. intros stop w1 (H1 & L1 & _).
      destruct stop.
      * unfold wpx, ret. auto.
      * eapply wpx_mono; [apply IH; exact H1 | cbv beta | auto].
        intros err w2 [H2 L2]. split; [exact H2 | eapply later_trans; eauto].
Qed.

Lemma run_waitForIndex fuel index timeout w :
  sound w ->
  wpx (waitForIndex env fuel index timeout)
      (fun _ w' => sound w' /\ later w w') calm w.
Proof.
  intros Hs. unfold waitForIndex. apply wpx_bind. unfold wpx at 1, timeNow.
  now apply run_waitForIndex_check.
Qed.

Lemma run_Snapshot w :
  sound w -> wpx (Snapshot env) (fun _ w' => sound w' /\ later w w') calm w.
Proof.
  intros Hs. unfold Snapshot.
  wpx_call run_emit; cbn; auto. intros _ w1 [H1 L1].
  wpx_call run_answer; auto. intros a w2 [H2 L2].
  pose proof (later_trans _ _ _ L1 L2) as L.
  destruct a as [ | [err|] | | | ]; try (split; [discriminate | exact H2]).
  - unfold wpx, ret. auto.
  - unfold wpx, bind, AppliedIndex, ret. auto.
Qed.

Lemma run_NewScheduler typ snap w :
  sound w ->
  wpx (NewScheduler_ typ snap) (fun _ w' => sound w' /\ later w w') calm w.
Proof.
  intros Hs. unfold NewScheduler_.
  wpx_call run_emit; cbn; auto. intros _ w1 [H1 L1].
  wpx_call run_answer; auto. intros a w2 [H2 L2].
  pose proof (later_trans _ _ _ L1 L2) as L.
  destruct a; try (split; [discriminate | exact H2]).
  unfold wpx, ret. auto.
Qed.

(** [SubmitPlan] hands back either an error and nothing else, or a result
    and no error; a state only comes with a result. *)
Lemma run_SubmitPlan fuel plan w :
  sound w ->
  wpx (SubmitPlan env config fuel plan)
      (fun r w' =>
         sound w' /\ later w w' /\
         ((fst (fst r) = None /\ snd (fst r) = None /\ snd r <> None) \/
          (fst (fst r) <> None /\ snd r = None)))
      halted w.
Proof.
  intros Hs. unfold SubmitPlan. apply wpx_bind.
  pose proof (run_RPC "Plan.Submit" (PlanRequest plan (Region config)) w Hs I)
    as HR.
  pose proof (RPC_trace "Plan.Submit" (PlanRequest plan (Region config)) w)
    as HT.
  unfold wpx in HR. unfold wpx at 1.
  destruct (RPC "Plan.Submit" (PlanRequest plan (Region config)) w)
    as [r w1 | why w1]; [|now apply calm_halted].
  destruct HR as [H1 L1]. specialize (HT _ _ eq_refl).
  destruct plan as [p|].
  2:{ assert (halted Panic w1) as Hnil.
      { split; [|exact H1]. intros _. rewrite HT. do 3 eexists. reflexivity. }
      destruct r as [err | [ | | resp_Result]];
        try (apply calm_halted; split; [discriminate | exact H1]);
        exact Hnil. }
  destruct r as [err | [ | | resp_Result]];
    try (apply calm_halted; split; [discriminate | exact H1]).
  - apply wpx_bind. cbn [plan_EvalID]. apply wpx_ret_intro.
    wpx_call run_emit; cbn; auto. intros _ w2 [H2 L2].
    unfold wpx, ret. cbn [fst snd].
    split; [exact H2 | split; [eapply later_trans; eauto|]].
    left. repeat split. discriminate.
  - apply wpx_bind. cbn [plan_EvalID]. apply wpx_ret_intro.
    wpx_call run_emit; cbn; auto. intros _ w2 [H2 L2].
    pose proof (later_trans _ _ _ L1 L2) as L12.
    destruct resp_Result as [result|].
    2:{ unfold wpx, ret. cbn [fst snd]. split; [exact H2 | split; [exact L12|]].
        left. repeat split. discriminate. }
    destruct (negb (RefreshIndex result =? 0)).
    2:{ unfold wpx, ret. cbn [fst snd]. split; [exact H2 | split; [exact L12|]].
        right. split; [discriminate | reflexivity]. }
    wpx_call run_waitForIndex; auto. intros err w3 [H3 L3].
    pose proof (later_trans _ _ _ L12 L3) as L13.
    destruct err as [err|].
    { unfold wpx, ret. cbn [fst snd]. split; [exact H3 | split; [exact L13|]].
      left. repeat split. discriminate. }
    wpx_call run_Snapshot; auto. intros sn w4 [H4 L4].
    pose proof (later_trans _ _ _ L13 L4) as L14.
    destruct sn as [err | snap]; unfold wpx, ret; cbn [fst snd];
      (split; [exact H4 | split; [exact L14|]]).
    + left. repeat split. discriminate.
    + right. split; [discriminate | reflexivity].
Qed.

Lemma run_Process_loop fuel w :
  sound w ->
  wpx (Process_loop env config fuel) (fun _ w' => sound w' /\ later w w')
      halted w.
Proof.
  revert w. induction fuel as [|fuel IH]; intros w Hs;
    [apply calm_halted; split; [discriminate | exact Hs]|].
  cbn [Process_loop].
  wpx_call run_answer; auto. intros a w1 [H1 L1].
  destruct a; try (apply calm_halted; split; [discriminate | exact H1]).
  - wpx_call run_SubmitPlan; auto.
    + intros r w2 (H2 & L2 & _).
      wpx_call run_emit; cbn; auto. intros _ w3 [H3 L3].
      eapply wpx_mono; [apply IH; exact H3 | cbv beta | auto].
      intros err w4 [H4 L4]. split; [exact H4|].
      eapply later_trans; [exact L1|].
      eapply later_trans; [exact L2|].
      eapply later_trans; eauto.
  - unfold wpx, ret. auto.
Qed.

Lemma run_invokeScheduler fuel eval w :
  sound w ->
  wpx (invokeScheduler env config fuel eval)
      (fun err w' => sound w' /\ later w w' /\
                     (err = None -> processed (ID eval) (trace w')))
      halted w.
Proof.
  intros Hs. unfold invokeScheduler.
  wpx_call run_Snapshot; auto. intros sn w1 [H1 L1].
  destruct sn as [err | snap].
  { unfold wpx, ret. split; [exact H1 | split; [exact L1 | discriminate]]. }
  wpx_call run_NewScheduler; auto. intros err w2 [H2 L2].
  pose proof (later_trans _ _ _ L1 L2) as L12.
  destruct err as [err|].
  { unfold wpx, ret. split; [exact H2 | split; [exact L12 | discriminate]]. }
  unfold Process. apply wpx_bind. apply wpx_bind. unfold wpx at 1, emit.
  set (w3 := {| now := now w2; failures := failures w2; script := script w2;
                trace := trace w2 ++ [(now w2, SchedProcess eval)] |}).
  assert (sound w3) as H3 by (apply sound_emit; [exact H2 | exact I]).
  assert (later w w3) as L3.
  { eapply later_trans; [exact L12|]. split; cbn; [lia | eauto]. }
  assert (processed (ID eval) (trace w3)) as Hp.
  { exists (now w2), eval. split; [|reflexivity].
    cbn. apply in_or_app. right. now left. }
  eapply wpx_mono; [apply run_Process_loop; exact H3 | cbv beta | auto].
  intros err w4 [H4 L4].
  pose proof (later_trans _ _ _ L3 L4) as L.
  destruct err; unfold wpx, ret;
    (split; [exact H4 | split; [exact L|]]); [discriminate|].
  intros _. exact (processed_later _ _ _ L4 Hp).
Qed.

(** The worker's goroutine: it stays sound, it panics only on a nil plan,
    and it returns only with the server shut down. *)
Lemma run_run fuel w :
  sound w ->
  wpx (run env config fuel)
      (fun _ w' => sound w' /\ shutdownBy env (now w') = true)
      halted w.
Proof.
  revert w. induction fuel as [|fuel IH]; intros w Hs;
    [apply calm_halted; split; [discriminate | exact Hs]|].
  cbn [run].
  wpx_call run_dequeueEvaluation; auto.
  intros [ev stop] w1 (H1 & L1 & Hdown & Hsome). cbn [fst snd] in *.
  destruct stop.
  { unfold wpx, ret. auto. }
  destruct ev as [eval|]; [|now destruct Hsome].
  apply wpx_bind. unfold wpx at 1, IsShutdown.
  destruct (shutdownBy env (now w1)) eqn:Hsd.
  - wpx_call run_sendAck; auto; [discriminate|].
    intros _ w2 [H2 [Hn _]]. unfold wpx, ret. split; [exact H2|].
    eapply shutdownBy_later; eauto.
  - wpx_call run_waitForIndex; auto. intros err w2 [H2 L2].
    destruct err as [err|].
    + wpx_call run_sendAck; auto; [discriminate|].
      intros _ w3 [H3 _]. now apply IH.
    + wpx_call run_invokeScheduler; auto. intros err w3 (H3 & L3 & Hp).
      destruct err as [err|].
      * wpx_call run_sendAck; auto; [discriminate|].
        intros _ w4 [H4 _]. now apply IH.
      * wpx_call run_sendAck; auto.
        intros _ w4 [H4 _]. now apply IH.
Qed.

Lemma sound_NewWorker t0 answers : sound (NewWorker t0 answers).
Proof.
  repeat split; cbn; try lia; [constructor|].
  intros pre t id region post E. destruct pre; discriminate.
Qed.

(** The result of [backoffErr] is decided by whether the shutdown signal
    comes before the sleep is over. *)
Lemma backoffErr_stops w :
  exists w',
    backoffErr env w
    = Ret (shutdownBy env (now w + Z.max 0 (interval (failures w)))) w'.
Proof.
  unfold backoffErr, interval, bind, getFailures.
  destruct (backoffOf (failures w) >? backoffLimit);
    unfold selectAfterOrShutdown, bind, emit, timeNow, elapse, ret, setFailures;
    cbn [now trace failures script];
    destruct (shutdownBy env _); try (destruct (shutdownAt env));
    eexists; reflexivity.
Qed.

Lemma waitForIndex_check_returns n :
  forall fuel w start index timeout h,
    (n <= fuel)%nat ->
    start <= now w ->
    lastPoll n (now w - start) (failures w) timeout = Some h ->
    exists err w',
      waitForIndex_check env fuel start index timeout w = Ret err w' /\
      now w <= now w' <= start + h /\
      (err = None -> index <= applied env (now w') /\ failures w' = 0).
Proof.
  induction n as [|n IH]; intros fuel w start index timeout h Hfuel Hstart Hlast;
    [discriminate|].
  destruct fuel as [|fuel]; [lia|].
  pose proof (lastPoll_later _ _ _ _ _ Hlast) as Hh.
  cbn [lastPoll] in Hlast.
  cbn [waitForIndex_check]. unfold bind at 1, AppliedIndex.
  destruct (Z.leb_spec index (applied env (now w))) as [Hle | Hgt].
  { unfold bind, backoffReset, setFailures, ret. cbn.
    do 2 eexists. split; [reflexivity|]. cbn. split; [lia | auto]. }
  unfold bind at 1, timeNow.
  destruct (now w - start >? timeout).
  { do 2 eexists. split; [reflexivity|]. split; [lia | discriminate]. }
  destruct (backoffErr_run env w) as (b & w1 & E & _ & Hn & _ & Hrange & Hadv).
  unfold bind. rewrite E. destruct b.
  { pose proof (lastPoll_later _ _ _ _ _ Hlast).
    do 2 eexists. split; [reflexivity|]. split; [lia | discriminate]. }
  specialize (Hadv eq_refl).
  destruct (IH fuel w1 start index timeout h) as (err & w2 & E2 & Hb & Hok).
  - lia.
  - lia.
  - rewrite Hn, Hadv.
    replace (now w + Z.max 0 (interval (failures w)) - start)
      with (now w - start + Z.max 0 (interval (failures w))) by lia.
    exact Hlast.
  - exists err, w2. split; [exact E2|]. split; [lia | exact Hok].
Qed.

End Run.

(** X1. The worker's goroutine returns only once the server is shut down. *)
Theorem worker_returns_only_after_shutdown env config fuel t0 answers w' :
  run env config fuel (NewWorker t0 answers) = Ret tt w' ->
  shutdownBy env (now w') = true.
Proof.
  intros E.
  apply (wpx_ret_eq _ _ _ _ _ _ E
           (run_run env config fuel _ (sound_NewWorker t0 answers))).
Qed.

Lemma worker_returns_only_after_shutdown_witness :
  shutdownBy closingEnv
    (now {| now := 200 * Millisecond; failures := 0; script := [];
            trace := [(0, CallRPC "Eval.Dequeue"
                            (EvalDequeueRequest ["service"] dequeueTimeout
                                                "global"));
                      (200 * Millisecond,
                       CallRPC "Eval.Nack"
                               (EvalSpecificRequest "e1" "global"))] |})
  = true.
Proof.
  apply (worker_returns_only_after_shutdown closingEnv sampleConfig 3 0
           [RpcAns (200 * Millisecond)
              (inr (SingleEvalResponse (Some sampleEval)));
            RpcAns 0 (inr GenericResponse)]).
  reflexivity.
Defined.

(** X2. The worker never dereferences a nil evaluation.  When [run]
    panics, the scheduler has submitted a nil plan: the panic comes in
    [SubmitPlan], at the log line after the Plan.Submit RPC for that plan,
    which is the last call the worker made. *)
Theorem worker_panics_only_on_nil_plan env config fuel t0 answers w' :
  run env config fuel (NewWorker t0 answers) = Halt Panic w' ->
  nilPlanSubmitted (trace w').
Proof.
  intros E.
  pose proof (run_run env config fuel _ (sound_NewWorker t0 answers)) as H.
  unfold wpx in H. rewrite E in H. destruct H as [Hwhy _].
  exact (Hwhy eq_refl).
Qed.

Lemma worker_panics_only_on_nil_plan_witness :
  nilPlanSubmitted
    (trace (final (run readyEnv sampleConfig 5
                     (NewWorker 0
                        [RpcAns 0 (inr (SingleEvalResponse (Some sampleEval)));
                         SnapshotAns None; NewSchedulerAns None;
                         SchedSubmitPlan None;
                         RpcAns 0 (inr (PlanResponse None))])))).
Proof.
  apply (worker_panics_only_on_nil_plan readyEnv sampleConfig 5 0
           [RpcAns 0 (inr (SingleEvalResponse (Some sampleEval)));
            SnapshotAns None; NewSchedulerAns None;
            SchedSubmitPlan None;
            RpcAns 0 (inr (PlanResponse None))]).
  vm_compute. reflexivity.
Defined.

(** X3. Over a whole run the failure counter stays between 0 and 4, and
    every sleep of the backoff lasts at least backoffBaseline and at most
    backoffLimit. *)
Theorem worker_backoff_is_bounded env config fuel t0 answers t d :
  In (t, TimeAfter d)
     (trace (final (run env config fuel (NewWorker t0 answers)))) ->
  backoffBaseline <= d <= backoffLimit
  /\ 0 <= failures (final (run env config fuel (NewWorker t0 answers))) <= 4.
Proof.
  pose proof (run_run env config fuel _ (sound_NewWorker t0 answers)) as H.
  unfold wpx in H. unfold final.
  assert (sound match run env config fuel (NewWorker t0 answers) with
                | Ret _ w => w | Halt _ w => w end) as (Hf & Hs & _).
  { destruct (run env config fuel (NewWorker t0 answers)); apply H. }
  intros Hin. split; [|exact Hf].
  rewrite Forall_forall in Hs. exact (Hs _ Hin).
Qed.

Lemma worker_backoff_is_bounded_witness :
  backoffBaseline <= 1280 * Millisecond <= backoffLimit
  /\ 0 <= failures (final (run lateEnv sampleConfig 10
                             (NewWorker 0 sampleScript))) <= 4.
Proof.
  apply (worker_backoff_is_bounded lateEnv sampleConfig 10 0 sampleScript
           (420 * Millisecond) (1280 * Millisecond)).
  vm_compute. tauto.
Defined.

(** X4. Every Eval.Ack the worker sends comes after it has asked the
    scheduler to process an evaluation of that id. *)
Theorem worker_acks_only_what_was_processed
        env config fuel t0 answers pre t id region post :
  trace (final (run env config fuel (NewWorker t0 answers)))
  = pre ++ (t, CallRPC "Eval.Ack" (EvalSpecificRequest id region)) :: post ->
  processed id pre.
Proof.
  pose proof (run_run env config fuel _ (sound_NewWorker t0 answers)) as H.
  unfold wpx in H. unfold final.
  assert (sound match run env config fuel (NewWorker t0 answers) with
                | Ret _ w => w | Halt _ w => w end) as (_ & _ & Ha).
  { destruct (run env config fuel (NewWorker t0 answers)); apply H. }
  intros E. exact (Ha _ _ _ _ _ E).
Qed.

Lemma worker_acks_only_what_was_processed_witness :
  processed "e1"
    [(0, CallRPC "Eval.Dequeue"
           (EvalDequeueRequest ["service"] dequeueTimeout "global"));
     (0, TimeAfter (20 * Millisecond));
     (20 * Millisecond, TimeAfter (80 * Millisecond));
     (100 * Millisecond, TimeAfter (320 * Millisecond));
     (420 * Millisecond, TimeAfter (1280 * Millisecond));
     (1700 * Millisecond, TimeAfter (5 * Second));
     (6700 * Millisecond, FsmSnapshot);
     (6700 * Millisecond, NewScheduler "service" {| SnapIndex := 1 |});
     (6700 * Millisecond, SchedProcess sampleEval)].
Proof.
  apply (worker_acks_only_what_was_processed lateEnv sampleConfig 10 0
           sampleScript _ (6700 * Millisecond) "e1" "global"
           [(6700 * Millisecond,
             CallRPC "Eval.Dequeue"
               (EvalDequeueRequest ["service"] dequeueTimeout "global"))]).
  reflexivity.
Defined.

(** X5. A wait that starts with the failure counter at zero is over after
    at most six polls, 6.7s after it began at the latest; when it returns no
    error, the applied index has reached the index waited for and the
    failure counter is back at zero. *)
Theorem waitForIndex_returns_in_time env fuel w index :
  failures w = 0 ->
  (pollBound <= fuel)%nat ->
  exists err w',
    waitForIndex env fuel index raftSyncLimit w = Ret err w' /\
    now w <= now w' <= now w + givesUpAt /\
    (err = None -> index <= applied env (now w') /\ failures w' = 0).
Proof.
  intros Hf Hfuel. unfold waitForIndex, bind at 1, timeNow.
  apply (waitForIndex_check_returns env pollBound); auto.
  - lia.
  - rewrite Hf, Z.sub_diag. exact lastPoll_of_fresh_wait.
Qed.

Lemma waitForIndex_returns_in_time_witness :
  exists err w',
    waitForIndex catchingUpEnv 6 7 raftSyncLimit (NewWorker 0 [])
    = Ret err w' /\
    now (NewWorker 0 []) <= now w' <= now (NewWorker 0 []) + givesUpAt /\
    (err = None -> 7 <= applied catchingUpEnv (now w') /\ failures w' = 0).
Proof.
  apply (waitForIndex_returns_in_time catchingUpEnv 6 (NewWorker 0 []) 7).
  - reflexivity.
  - apply le_n.
Defined.

(** X6. When Eval.Dequeue fails and the shutdown signal comes before the
    backoff sleep is over, [dequeueEvaluation] reports the shutdown and the
    worker returns: that one RPC, its log line and the sleep are all it
    did. *)
Theorem worker_stops_in_backoff env config fuel w dt err rest :
  script w = RpcAns dt (inl err) :: rest ->
  shutdownBy env (now w + Z.max 0 dt + Z.max 0 (interval (failures w))) = true ->
  exists w',
    dequeueEvaluation env config (S fuel) w = Ret (None, true) w' /\
    run env config (S (S fuel)) w = Ret tt w' /\
    script w' = rest /\
    trace w' =
      trace w ++
      [(now w, CallRPC "Eval.Dequeue"
                 (EvalDequeueRequest (EnabledSchedulers config) dequeueTimeout
                                     (Region config)));
       (now w + Z.max 0 dt,
        Printf "[ERR] worker: failed to dequeue evaluation: %v" [err]);
       (now w + Z.max 0 dt, TimeAfter (interval (failures w)))].
Proof.
  intros Hs Hdown.
  set (w1 := {| now := now w + Z.max 0 dt; failures := failures w;
                script := rest;
                trace := (trace w ++
                          [(now w, CallRPC "Eval.Dequeue"
                                     (EvalDequeueRequest
                                        (EnabledSchedulers config)
                                        dequeueTimeout (Region config)))]) ++
                         [(now w + Z.max 0 dt,
                           Printf "[ERR] worker: failed to dequeue evaluation: %v"
                                  [err])] |}).
  destruct (backoffErr_stops env w1) as [w' E].
  destruct (backoffErr_run env w1) as (b & w'' & E' & Ht & _ & Hsc & _).
  rewrite E in E'. injection E' as Hb <-.
  change (now w1) with (now w + Z.max 0 dt) in E.
  change (failures w1) with (failures w) in E.
  rewrite Hdown in E.
  assert (dequeueEvaluation env config (S fuel) w = Ret (None, true) w') as Hd.
  { cbn [dequeueEvaluation].
    unfold RPC, bind at 1 2 3 4 5, emit, answer, elapse, ret. cbn.
    rewrite Hs. cbn.
    change ((stop <- backoffErr env ;;
             if stop then ret (None, true)
             else dequeueEvaluation env config fuel) w1
            = Ret (None, true) w').
    unfold bind. rewrite E. reflexivity. }
  exists w'. split; [exact Hd|]. split; [|split].
  - cbn [run]. unfold bind at 1. rewrite Hd. reflexivity.
  - exact Hsc.
  - rewrite Ht. subst w1. cbn [trace now failures].
    rewrite <- !app_assoc. reflexivity.
Qed.

Lemma worker_stops_in_backoff_witness :
  exists w',
    dequeueEvaluation closingEnv sampleConfig 1
      (NewWorker 0 [RpcAns (90 * Millisecond) (inl "no cluster leader")])
    = Ret (None, true) w' /\
    run closingEnv sampleConfig 2
      (NewWorker 0 [RpcAns (90 * Millisecond) (inl "no cluster leader")])
    = Ret tt w' /\
    script w' = [] /\
    trace w' =
      [] ++
      [(0, CallRPC "Eval.Dequeue"
             (EvalDequeueRequest ["service"] dequeueTimeout "global"));
       (0 + Z.max 0 (90 * Millisecond),
        Printf "[ERR] worker: failed to dequeue evaluation: %v"
               ["no cluster leader"]);
       (0 + Z.max 0 (90 * Millisecond), TimeAfter (interval 0))].
Proof.
  apply (worker_stops_in_backoff closingEnv sampleConfig 0
           (NewWorker 0 [RpcAns (90 * Millisecond) (inl "no cluster leader")])
           (90 * Millisecond) "no cluster leader" []).
  - reflexivity.
  - reflexivity.
Defined.

(** X7. Whatever the planner and the FSM answer, [SubmitPlan] returns
    either an error with neither result nor state, or a result with no
    error. *)
Theorem SubmitPlan_result_or_error env config fuel plan w r st err w' :
  SubmitPlan env config fuel plan w = Ret (r, st, err) w' ->
  (r = None /\ st = None /\ err <> None) \/ (r <> None /\ err = None).
Proof.
  intros E.
  assert (wp (SubmitPlan env config fuel plan)
             (fun x _ =>
                (fst (fst x) = None /\ snd (fst x) = None /\ snd x <> None) \/
                (fst (fst x) <> None /\ snd x = None))
             (fun _ => True) w) as H.
  { unfold SubmitPlan.
    wp_skip; auto. intros x w1 _.
    destruct x as [e | [ | | resp_Result]]; try exact I.
    - wp_skip; auto. intros evalID w1' _.
      wp_skip; auto. intros _ w2 _. unfold wp, ret. cbn.
      left. repeat split. discriminate.
    - wp_skip; auto. intros evalID w1' _.
      wp_skip; auto. intros _ w2 _.
      destruct resp_Result as [result|];
        [|unfold wp, ret; cbn; left; repeat split; discriminate].
      destruct (negb (RefreshIndex result =? 0));
        [|unfold wp, ret; cbn; right; split; [discriminate | reflexivity]].
      wp_skip; auto. intros e w3 _.
      destruct e; [unfold wp, ret; cbn; left; repeat split; discriminate|].
      wp_skip; auto. intros sn w4 _.
      destruct sn; unfold wp, ret; cbn;
        [left; repeat split; discriminate
        |right; split; [discriminate | reflexivity]]. }
  exact (wp_ret_eq _ _ _ _ _ _ E H).
Qed.

Lemma SubmitPlan_result_or_error_witness :
  (Some appliedResult = None /\ @None StateSnapshot = None /\
   @None error <> None)
  \/ (Some appliedResult <> None /\ @None error = None).
Proof.
  apply (SubmitPlan_result_or_error catchingUpEnv sampleConfig 10
           (Some samplePlan)
           (NewWorker 0 [RpcAns 0 (inr (PlanResponse (Some appliedResult)))])
           (Some appliedResult) None None
           (submitted sampleConfig samplePlan 0 []
              (NewWorker 0 [RpcAns 0 (inr (PlanResponse (Some appliedResult)))]))).
  reflexivity.
Defined.

End WorkerRunFacts.

(** ** The leader: what its functions call *)
Module LeaderRunFacts.
Import Leader LeaderRun.

Lemma only_refl ok w : only ok w w.
Proof.
  split; [split; reflexivity|]. exists []. now rewrite app_nil_r.
Qed.

Lemma only_trans ok w1 w2 w3 : only ok w1 w2 -> only ok w2 w3 -> only ok w1 w3.
Proof.
  intros [[P1 B1] (c1 & E1 & F1)] [[P2 B2] (c2 & E2 & F2)].
  split; [split; congruence|].
  exists (c1 ++ c2). split; [now rewrite E2, E1, app_assoc|].
  apply Forall_app. auto.
Qed.

Lemma only_weaken (ok ok' : Event -> Prop) w w' :
  (forall e, ok e -> ok' e) -> only ok w w' -> only ok' w w'.
Proof.
  intros Himp [Hq (calls & E & F)]. split; [exact Hq|].
  exists calls. split; [exact E|]. eapply Forall_impl; eauto.
Qed.

Section Calls.

Variable config : Config.
Variable isUdupServer : Member -> bool * serverParts.
Variable ok : Event -> Prop.

Hypothesis ok_Printf : forall format args, ok (Printf format args).
Hypothesis ok_Members : ok Serf_Members.

Lemma only_emit e w0 w :
  ok e -> only ok w0 w -> wp (emit e) (fun _ => only ok w0) (only ok w0) w.
Proof.
  intros He Hw. unfold wp, emit. eapply only_trans; [exact Hw|].
  split; [split; reflexivity|]. exists [e]. cbn. auto.
Qed.

Lemma only_answer w0 w :
  only ok w0 w -> wp answer (fun _ => only ok w0) (only ok w0) w.
Proof.
  intros Hw. unfold wp, answer. destruct (script w); exact Hw.
Qed.

Lemma only_serf_Members w0 w :
  only ok w0 w -> wp serf_Members (fun _ => only ok w0) (only ok w0) w.
Proof.
  intros Hw. unfold serf_Members.
  wp_call only_emit; eauto. intros _ w1 H1.
  wp_call only_answer; eauto. intros a w2 H2. destruct a; exact H2.
Qed.

Lemma only_raft_AddPeer addr w0 w :
  ok (Raft_AddPeer addr) ->
  only ok w0 w -> wp (raft_AddPeer addr) (fun _ => only ok w0) (only ok w0) w.
Proof.
  intros He Hw. unfold raft_AddPeer.
  wp_call only_emit; eauto. intros _ w1 H1.
  wp_call only_answer; eauto. intros a w2 H2. destruct a; exact H2.
Qed.

Lemma only_raft_RemovePeer addr w0 w :
  ok (Raft_RemovePeer addr) ->
  only ok w0 w ->
  wp (raft_RemovePeer addr) (fun _ => only ok w0) (only ok w0) w.
Proof.
  intros He Hw. unfold raft_RemovePeer.
  wp_call only_emit; eauto. intros _ w1 H1.
  wp_call only_answer; eauto. intros a w2 H2. destruct a; exact H2.
Qed.

Lemma only_addRaftPeer m parts w0 w :
  ok (Raft_AddPeer (Addr parts)) ->
  only ok w0 w ->
  wp (addRaftPeer isUdupServer m parts) (fun _ => only ok w0) (only ok w0) w.
Proof.
  intros He Hw. unfold addRaftPeer, bootstrapCheck.
  apply wp_bind.
  assert (wp (if Bootstrap parts
              then members <- serf_Members ;;
                   ret (otherBootstrap isUdupServer m members)
              else ret None) (fun _ => only ok w0) (only ok w0) w) as Hc.
  { destruct (Bootstrap parts); [|exact Hw].
    wp_call only_serf_Members; eauto. }
  eapply wp_mono; [exact Hc | cbv beta | auto].
  intros other w1 H1. destruct other.
  - wp_call only_emit; eauto.
  - wp_call only_raft_AddPeer; eauto. intros err w2 H2.
    destruct err as [e|].
    + destruct (negb (isErrKnownPeer e)); [|exact H2].
      wp_call only_emit; eauto.
    + wp_call only_emit; eauto.
Qed.

Lemma only_removeRaftPeer m parts w0 w :
  ok (Raft_RemovePeer (Addr parts)) ->
  only ok w0 w ->
  wp (removeRaftPeer m parts) (fun _ => only ok w0) (only ok w0) w.
Proof.
  intros He Hw. unfold removeRaftPeer.
  wp_call only_raft_RemovePeer; eauto. intros err w2 H2.
  destruct err as [e|].
  - destruct (negb (isErrUnknownPeer e)); [|exact H2].
    wp_call only_emit; eauto.
  - wp_call only_emit; eauto.
Qed.

Lemma only_reconcileMember member w0 w :
  (Status member = StatusAlive ->
   ok (Raft_AddPeer (Addr (snd (isUdupServer member))))) ->
  (Status member = StatusLeft \/ Status member = StatusReap ->
   ok (Raft_RemovePeer (Addr (snd (isUdupServer member))))) ->
  only ok w0 w ->
  wp (reconcileMember config isUdupServer member)
     (fun _ => only ok w0) (only ok w0) w.
Proof.
  intros Hadd Hrem Hw. unfold reconcileMember.
  destruct (isUdupServer member) as [valid parts]. cbn [snd] in *.
  destruct (negb valid || negb (Region parts =? config_Region config)%string);
    [exact Hw|].
  destruct (Name member =? selfName config)%string; [exact Hw|].
  apply wp_bind.
  assert (wp (match Status member with
              | StatusAlive => addRaftPeer isUdupServer member parts
              | StatusLeft | StatusReap => removeRaftPeer member parts
              | _ => ret None
              end) (fun _ => only ok w0) (only ok w0) w) as Hc.
  { destruct (Status member); try exact Hw;
      auto using only_addRaftPeer, only_removeRaftPeer. }
  eapply wp_mono; [exact Hc | cbv beta | auto].
  intros err w1 H1. destruct err; [|exact H1].
  wp_call only_emit; eauto.
Qed.

Hypothesis ok_AddPeer : forall addr, ok (Raft_AddPeer addr).
Hypothesis ok_RemovePeer : forall addr, ok (Raft_RemovePeer addr).

Lemma only_reconcile_range members w0 w :
  only ok w0 w ->
  wp (reconcile_range config isUdupServer members)
     (fun _ => only ok w0) (only ok w0) w.
Proof.
  revert w. induction members as [|member rest IH]; intros w H; [exact H|].
  cbn [reconcile_range].
  wp_call only_reconcileMember; eauto. intros err w1 H1.
  destruct err; [exact H1 | now apply IH].
Qed.

Lemma only_reconcile w0 w :
  only ok w0 w ->
  wp (reconcile config isUdupServer) (fun _ => only ok w0) (only ok w0) w.
Proof.
  intros H. unfold reconcile.
  wp_call only_serf_Members; eauto. intros members w1 H1.
  now apply only_reconcile_range.
Qed.

End Calls.

Section Reconciling.

Variable config : Config.
Variable isUdupServer : Member -> bool * serverParts.

(** X8. What [reconcileMember] may call: serf's member list and the log;
    AddPeer only for an alive member and RemovePeer only for one that has
    left or was reaped, each under the member's own address; and it leaves
    the plan queue and the eval broker as they are.  In particular a member
    that has failed (or is leaving) is neither added nor removed. *)
Theorem reconcileMember_calls_by_status member w :
  only (callFor (Status member) (snd (isUdupServer member)))
       w (final (reconcileMember config isUdupServer member w)).
Proof.
  apply wp_final.
  apply only_reconcileMember; cbn; auto using only_refl.
Qed.

(** X9. A whole reconciliation pass only asks serf for the members, adds
    and removes raft peers and logs: it never touches the plan queue, the
    eval broker or the barrier. *)
Theorem reconcile_only_reconciles w :
  only reconcilerCall w (final (reconcile config isUdupServer w)).
Proof.
  apply wp_final. apply only_reconcile; cbn; auto using only_refl.
Qed.



End Reconciling.


(** *** Establishing leadership at most once *)

Lemma times_snoc which tr e :
  times which (tr ++ [e]) = (times which tr + Nat.b2n (which e))%nat.
Proof.
  unfold times. rewrite filter_app, length_app. cbn.
  destruct (which e); reflexivity.
Qed.

Lemma times_only which w w' :
  only (fun e => which e = false) w w' ->
  times which (trace w') = times which (trace w).
Proof.
  intros [_ (calls & E & F)]. unfold times. rewrite E, filter_app, length_app.
  assert (filter which calls = []) as ->; [|cbn; lia].
  clear E. induction F as [|e calls He _ IH]; [reflexivity|].
  cbn [filter]. cbv beta in He. rewrite He. exact IH.
Qed.

Section Establishing.

Variable config : Config.
Variable isUdupServer : Member -> bool * serverParts.

(** [which] picks out the enabling of one of the two queues. *)
Variable which : Event -> bool.

Hypothesis which_enable :
  forall e, which e = true ->
            e = PlanQueue_SetEnabled true \/ e = EvalBroker_SetEnabled true.

Hypothesis which_one :
  (Nat.b2n (which (PlanQueue_SetEnabled true)) +
   Nat.b2n (which (EvalBroker_SetEnabled true)) <= 1)%nat.

Lemma which_other e :
  e <> PlanQueue_SetEnabled true -> e <> EvalBroker_SetEnabled true ->
  which e = false.
Proof.
  intros H1 H2. destruct (which e) eqn:E; [|reflexivity].
  destruct (which_enable e E); contradiction.
Qed.

Let quiet (e : Event) : Prop := which e = false.

Lemma quiet_Printf format args : quiet (Printf format args).
Proof. apply which_other; discriminate. Qed.

Lemma quiet_Members : quiet Serf_Members.
Proof. apply which_other; discriminate. Qed.

Lemma quiet_AddPeer addr : quiet (Raft_AddPeer addr).
Proof. apply which_other; discriminate. Qed.

Lemma quiet_RemovePeer addr : quiet (Raft_RemovePeer addr).
Proof. apply which_other; discriminate. Qed.

Lemma quiet_keeps w0 w' k :
  only quiet w0 w' ->
  (times which (trace w0) <= k)%nat ->
  (times which (trace w') <= k)%nat.
Proof. intros H Hk. now rewrite (times_only _ _ _ H). Qed.

(** The reconciliation at the end of a pass adds nothing to the count. *)
Lemma reconcileThenWAIT_quiet established w0 w1 k :
  only quiet w0 w1 ->
  (times which (trace w0) <= k)%nat ->
  wp (err <- reconcile config isUdupServer ;;
      match err with
      | Some e =>
          emit (Printf "[ERR] server: failed to reconcile: %v"
                       [showError e]) ;;
          ret {| reconcileCh := false; establishedLeader := established |}
      | None => ret {| reconcileCh := true; establishedLeader := established |}
      end)
     (fun l' w' => establishedLeader l' = established /\
                   (times which (trace w') <= k)%nat)
     (fun w' => (times which (trace w') <= k)%nat) w1.
Proof.
  intros H01 Hk.
  wp_call (only_reconcile config isUdupServer quiet quiet_Printf
             quiet_Members quiet_AddPeer quiet_RemovePeer w0).
  - exact H01.
  - intros err w2 H2. destruct err as [e|].
    + wp_call (only_emit quiet (Printf "[ERR] server: failed to reconcile: %v"
                                       [showError e]) w0).
      * apply quiet_Printf.
      * exact H2.
      * intros _ w3 H3. unfold wp, ret. split; [reflexivity|].
        eapply quiet_keeps; eauto.
      * intros w3 H3. eapply quiet_keeps; eauto.
    + unfold wp, ret. split; [reflexivity|]. eapply quiet_keeps; eauto.
  - intros w2 H2. eapply quiet_keeps; eauto.
Qed.

Lemma establishLeadership_run w :
  establishLeadership w
  = Ret None {| planQueue := true; evalBroker := true; script := script w;
                trace := (trace w ++ [PlanQueue_SetEnabled true])
                           ++ [EvalBroker_SetEnabled true] |}.
Proof. reflexivity. Qed.

Lemma pass_spends_budget l w :
  wp (leaderLoop_RECONCILE config isUdupServer l)
     (fun l' w' =>
        (times which (trace w') + budget l' <= times which (trace w) + budget l)%nat)
     (fun w' => (times which (trace w') <= times which (trace w) + budget l)%nat)
     w.
Proof.
  assert (forall w', only quiet w w' ->
            (times which (trace w') <= times which (trace w) + budget l)%nat)
    as Hconv by (intros w' H; rewrite (times_only _ _ _ H); lia).
  unfold leaderLoop_RECONCILE.
  wp_call (only_emit quiet (TimeAfter (config_ReconcileInterval config)) w).
  { apply which_other; discriminate. }
  { apply only_refl. }
  2: exact Hconv.
  intros _ w1 H1. unfold raft_Barrier. apply wp_bind.
  wp_call (only_emit quiet (Raft_Barrier 0) w).
  { apply which_other; discriminate. }
  { exact H1. }
  2: exact Hconv.
  intros _ w2 H2.
  wp_call (only_answer quiet w).
  { exact H2. }
  2: exact Hconv.
  intros a w3 H3.
  destruct a as [[e|] | | | ]; try (apply Hconv; exact H3).
  - apply wp_ret_intro.
    wp_call (only_emit quiet (Printf "[ERR] server: failed to wait for barrier: %v"
                                     [showError e]) w).
    { apply quiet_Printf. }
    { exact H3. }
    2: exact Hconv.
    intros _ w4 H4. apply wp_ret_intro.
    rewrite (times_only _ _ _ H4). apply Nat.le_refl.
  - apply wp_ret_intro.
    destruct (establishedLeader l) eqn:El; cbn [negb].
    + eapply wp_mono;
        [apply (reconcileThenWAIT_quiet true w w3 (times which (trace w)));
         [exact H3 | apply Nat.le_refl]
        | cbv beta | cbv beta].
      * intros l' w' [Hl Ht]. unfold budget. rewrite Hl, El. lia.
      * intros w' Ht. lia.
    + apply wp_bind. unfold wp at 1. rewrite establishLeadership_run.
      set (w4 := {| planQueue := true; evalBroker := true;
                    script := script w3;
                    trace := (trace w3 ++ [PlanQueue_SetEnabled true])
                               ++ [EvalBroker_SetEnabled true] |}).
      assert (times which (trace w4) <= times which (trace w) + 1)%nat as H4.
      { subst w4. cbn [trace]. rewrite !times_snoc, (times_only _ _ _ H3).
        pose proof which_one. lia. }
      eapply wp_mono;
        [apply (reconcileThenWAIT_quiet true w4 w4
                  (times which (trace w) + 1)%nat);
         [apply only_refl | exact H4]
        | cbv beta | cbv beta].
      * intros l' w' [Hl Ht]. unfold budget. rewrite Hl, El. lia.
      * intros w' Ht. unfold budget. rewrite El. lia.
Qed.

Lemma revokeLeadership_run w :
  revokeLeadership w
  = Ret None {| planQueue := false; evalBroker := false; script := script w;
                trace := (trace w ++ [PlanQueue_SetEnabled false])
                           ++ [EvalBroker_SetEnabled false] |}.
Proof. reflexivity. Qed.

(** A round of the select keeps the count and the loop's variables. *)
Lemma select_keeps_count l w k :
  (times which (trace w) <= k)%nat ->
  wp (leaderLoop_WAIT config isUdupServer l)
     (fun next w' =>
        (times which (trace w') <= k)%nat /\
        match next with Some (_, l') => l' = l | None => True end)
     (fun w' => (times which (trace w') <= k)%nat) w.
Proof.
  intros Hk. unfold leaderLoop_WAIT.
  wp_call (only_answer quiet w).
  { apply only_refl. }
  2: { intros w' H. eapply quiet_keeps; eauto. }
  intros a w1 H1.
  assert (times which (trace w1) <= k)%nat as Hk1
      by (eapply quiet_keeps; eauto).
  assert (forall c : M World (option (Label * Locals)),
             c = (revokeLeadership ;; ret None) ->
             wp c
                (fun next w' =>
                   (times which (trace w') <= k)%nat /\
                   match next with Some (_, l') => l' = l | None => True end)
                (fun w' => (times which (trace w') <= k)%nat) w1) as Hrevoke.
  { intros c ->. unfold wp, bind. rewrite revokeLeadership_run.
    unfold ret. split; [|exact I]. cbn [trace]. rewrite !times_snoc.
    rewrite (which_other (PlanQueue_SetEnabled false)) by discriminate.
    rewrite (which_other (EvalBroker_SetEnabled false)) by discriminate.
    cbn [Nat.b2n]. lia. }
  destruct a as [ | | |[ | | |member]]; try exact Hk1.
  - now apply Hrevoke.
  - now apply Hrevoke.
  - apply wp_ret_intro. auto.
  - destruct (reconcileCh l); [|exact Hk1].
    wp_call (only_reconcileMember config isUdupServer quiet quiet_Printf
               quiet_Members member w).
    + intros _. apply quiet_AddPeer.
    + intros _. apply quiet_RemovePeer.
    + exact H1.
    + intros _ w2 H2. apply wp_ret_intro.
      split; [eapply quiet_keeps; eauto | reflexivity].
    + intros w2 H2. eapply quiet_keeps; eauto.
Qed.

Lemma loop_spends_budget fuel : forall pc l w k,
  (times which (trace w) + budget l <= k)%nat ->
  (times which
     (trace (final (leaderLoop_from config isUdupServer fuel pc l w))) <= k)%nat.
Proof.
  induction fuel as [|fuel IH]; intros pc l w k Hk; [cbn; lia|].
  change ((fun w' => (times which (trace w') <= k)%nat)
            (final (leaderLoop_from config isUdupServer (S fuel) pc l w))).
  apply wp_final. cbn [leaderLoop_from]. apply wp_bind.
  destruct pc; cbn [leaderLoop_step].
  - wp_call (pass_spends_budget l w).
    + intros l' w' H. apply wp_ret_intro. apply wp_final. apply IH. lia.
    + intros w' H. lia.
  - eapply wp_mono; [apply (select_keeps_count l w (k - budget l)); lia
                    | cbv beta | cbv beta].
    + intros [[pc' l']|] w' [Ht Hl].
      * subst l'. apply wp_final. apply IH. lia.
      * apply wp_ret_intro. lia.
    + intros w' Ht. lia.
Qed.

End Establishing.

(** X11. One run of the leader loop enables the plan queue at most once and
    the eval broker at most once, however many reconcile passes it makes
    and however it ends: once [establishedLeader] is set, later passes skip
    [establishLeadership]. *)
Theorem leaderLoop_establishes_once config isUdupServer fuel w :
  (times isPlanQueueEnable
     (trace (final (leaderLoop config isUdupServer fuel w)))
   <= times isPlanQueueEnable (trace w) + 1)%nat /\
  (times isEvalBrokerEnable
     (trace (final (leaderLoop config isUdupServer fuel w)))
   <= times isEvalBrokerEnable (trace w) + 1)%nat.
Proof.
  split; unfold leaderLoop; apply loop_spends_budget;
    try (cbn; lia);
    intros [[|]|[|]| | | | | | ]; cbn; intros [=]; auto.
Qed.

(** *** The stop channels of monitorLeadership *)

Lemma setNth_stopCh (l : list Goroutine) : forall i g g',
  nth_error l i = Some g -> stopCh g' = stopCh g ->
  map stopCh (setNth i g' l) = map stopCh l.
Proof.
  induction l as [|y rest IH]; intros [|i] g g' Hg Hs; try discriminate.
  - cbn in Hg. injection Hg as ->. cbn. now rewrite Hs.
  - cbn in *. f_equal. eauto.
Qed.

Lemma channelsInOrder_same n n' :
  closedCh n' = closedCh n -> made n' = made n ->
  monitor_stopCh n' = monitor_stopCh n ->
  map stopCh (loops n') = map stopCh (loops n) ->
  channelsInOrder n -> channelsInOrder n'.
Proof.
  intros Hc Hm Hs Hl (I1 & I2 & I3 & I4 & I5).
  unfold channelsInOrder. rewrite Hc, Hm, Hs, Hl.
  repeat (split; [assumption|]). split; [|assumption].
  intros g Hg.
  apply (in_map stopCh) in Hg. rewrite Hl in Hg.
  apply in_map_iff in Hg. destruct Hg as (g0 & <- & Hg0). auto.
Qed.

Section Node.

Variable config : Config.
Variable isUdupServer : Member -> bool * serverParts.

Lemma recv_keeps_channels isLeader n :
  channelsInOrder n ->
  channelsInOrder (monitorLeadership_recv isLeader n).
Proof.
  intros Hn. pose proof Hn as (I1 & I2 & I3 & I4 & I5).
  unfold monitorLeadership_recv.
  destruct isLeader.
  - unfold channelsInOrder. cbn [closedCh made monitor_stopCh loops].
    split; [intros c Hc; specialize (I1 c Hc); lia|].
    split; [exact I2|].
    split.
    { intros c [= <-]. split; [lia|]. intros Hc. specialize (I1 _ Hc). lia. }
    split.
    { intros g Hg. apply in_app_or in Hg. destruct Hg as [Hg|[<-|[]]].
      - specialize (I4 g Hg). lia.
      - cbn. lia. }
    rewrite map_app. cbn [map stopCh].
    apply NoDup_app; [exact I5 | repeat constructor; intros [] |].
    intros c Hc [<-|[]]. apply in_map_iff in Hc.
    destruct Hc as (g & Hs & Hg). specialize (I4 g Hg). lia.
  - destruct (monitor_stopCh n) as [c|] eqn:Hm; [|exact Hn].
    destruct (I3 c eq_refl) as [Hlt Hnew].
    unfold channelsInOrder. cbn [closedCh made monitor_stopCh loops].
    split; [intros c' [<-|Hc]; auto|].
    split; [constructor; assumption|].
    split; [discriminate|].
    split; assumption.
Qed.

Lemma loop_runs_keeps_channels i answers n :
  channelsInOrder n ->
  channelsInOrder (loop_runs config isUdupServer i answers n).
Proof.
  intros Hn. unfold loop_runs.
  destruct (nth_error (loops n) i) as [g|] eqn:Hg; [|exact Hn].
  destruct (pc g) as [label|]; [|exact Hn].
  destruct (admissible n g label answers); [|exact Hn].
  destruct (leaderLoop_step config isUdupServer label (locals g)
              (withScript answers (world n))) as [next w'|why w']; [|exact Hn].
  apply channelsInOrder_same with (n := n); try reflexivity; [|exact Hn].
  cbn [loops]. apply setNth_stopCh with (g := g); [exact Hg|].
  destruct next as [[label' l']|]; reflexivity.
Qed.

Lemma node_step_keeps_channels n input :
  channelsInOrder n -> channelsInOrder (node_step config isUdupServer n input).
Proof.
  intros Hn. destruct input as [isLeader| | |i answers]; cbn [node_step].
  - destruct (monitoring n); [now apply recv_keeps_channels | exact Hn].
  - exact Hn.
  - destruct (shutdownCh n); exact Hn.
  - now apply loop_runs_keeps_channels.
Qed.

(** X12. However leadership is gained and lost and however the leader
    loops are scheduled, [monitorLeadership] closes no stop channel twice,
    the channel it holds is one it has not closed, and every leader loop
    it starts has a stop channel of its own. *)
Theorem monitorLeadership_channels_in_order inputs :
  channelsInOrder (node_run config isUdupServer inputs NewNode).
Proof.
  unfold node_run.
  assert (channelsInOrder NewNode) as H0.
  { unfold channelsInOrder, NewNode. cbn.
    repeat split; try constructor; try discriminate; intros ? []. }
  revert H0. generalize NewNode.
  induction inputs as [|input inputs IH]; intros n Hn; [exact Hn|].
  cbn [fold_left]. apply IH. now apply node_step_keeps_channels.
Qed.

End Node.

End LeaderRunFacts.

(** ** What setting raft up leaves behind *)
Module SetupRunFacts.
Import Setup SetupRun.

Ltac next_case :=
  match goal with
  | |- context [match ?l with [] => _ | _ :: _ => _ end] =>
      lazymatch type of l with
      | list Answer =>
          let a := fresh "a" in
          let rest := fresh "rest" in
          destruct l as [|a rest];
          [|destruct a as [[?|]|[?|?]]]; cbn
      end
  | |- context [negb (PeerContained ?p ?x)] =>
      destruct (PeerContained p x); cbn
  | |- context [if EnableSingleNode ?w then _ else _] =>
      destruct (EnableSingleNode w); cbn
  end.

(** X13. [setupRaft] cleans up after itself: whatever the collaborators
    answer, a failed set-up leaves raft unset and [monitorLeadership] not
    started, and has closed the BoltDB store exactly once if it had opened
    it; a successful one has closed nothing and started
    [monitorLeadership] as its last step. *)
Theorem setupRaft_cleans_up config Join w :
  raftStore w = None ->
  exists calls,
    trace (final (setupRaft config Join w)) = trace w ++ calls /\
    leftBehind w (setupRaft config Join w) calls.
Proof.
  intros Hs.
  unfold leftBehind, setupRaft, makeStores, call, closeStoreIfAny, bind, emit,
    answer, ret, halt, set_EnableSingleNode, set_fsm, set_raftTransport,
    set_raftInmem, set_raftStore, set_raftPeers, set_raft,
    get_EnableSingleNode.
  destruct (Bootstrap config), (DevMode config); cbn;
    repeat next_case; rewrite ?Hs; cbn;
    rewrite <- ?app_assoc; cbn [app];
    (eexists; split; [reflexivity|]); cbn; auto.
Qed.

Lemma setupRaft_cleans_up_witness :
  exists calls,
    trace (final (setupRaft diskConfig sampleJoin
                    (NewServer [Done None; Done None; Done None;
                                Done (Some "no space left on device")])))
    = trace (NewServer [Done None; Done None; Done None;
                        Done (Some "no space left on device")]) ++ calls /\
    leftBehind (NewServer [Done None; Done None; Done None;
                           Done (Some "no space left on device")])
               (setupRaft diskConfig sampleJoin
                  (NewServer [Done None; Done None; Done None;
                              Done (Some "no space left on device")]))
               calls.
Proof.
  apply (setupRaft_cleans_up diskConfig sampleJoin
           (NewServer [Done None; Done None; Done None;
                       Done (Some "no space left on device")])).
  reflexivity.
Defined.

End SetupRunFacts.

(** ** NewServer and Shutdown *)
Module LifecycleFacts.
Import Lifecycle.

Ltac next_case :=
  match goal with
  | |- context [match ?l with [] => _ | _ :: _ => _ end] =>
      lazymatch type of l with
      | list Setup.Answer =>
          let a := fresh "a" in
          let rest := fresh "rest" in
          destruct l as [|a rest];
          [|destruct a as [[?|]|[?|?]]]; cbn
      end
  | |- context [negb (Setup.PeerContained ?p ?x)] =>
      destruct (Setup.PeerContained p x); cbn
  | |- context [match Setup.raftStore ?w with _ => _ end] =>
      destruct (Setup.raftStore w); cbn
  | |- context [if Setup.fsm ?w then _ else _] =>
      destruct (Setup.fsm w); cbn
  | |- context [if Setup.raft ?w then _ else _] =>
      destruct (Setup.raft w); cbn
  end.

Ltac run_Shutdown :=
  unfold Shutdown, call, inSetup, moved, withTrace, close_shutdownCh,
    set_shutdown, emit, bind, ret, halt, Setup.emit, Setup.answer,
    Setup.closeStoreIfAny; cbn.

(** What a shut-down server does when asked again: it logs, and no more. *)
Lemma Shutdown_again s :
  shutdown s = true ->
  Shutdown s
  = Ret None {| fields := fields s; shutdown := shutdown s;
                shutdownCh := shutdownCh s;
                trace := trace s
                           ++ [Printf "[INFO] server: shutting down server" []] |}.
Proof.
  intros Hs. unfold Shutdown, bind, emit. cbn. now rewrite Hs.
Qed.

Lemma Shutdown_sets_flag s :
  wp Shutdown (fun _ s' => shutdown s' = true) (fun _ => True) s.
Proof.
  unfold wp. destruct (shutdown s) eqn:Hs.
  - rewrite (Shutdown_again s Hs). exact Hs.
  - run_Shutdown. rewrite Hs.
    destruct (shutdownCh s); cbn; [exact I|].
    repeat next_case; auto.
Qed.

(** X14. [Shutdown] is idempotent: shutting down twice is shutting down
    once and logging the second request.  Nothing is closed again. *)
Theorem Shutdown_twice s :
  (Shutdown ;; Shutdown) s
  = (Shutdown ;;
     emit (Printf "[INFO] server: shutting down server" []) ;;
     ret None) s.
Proof.
  unfold bind.
  pose proof (Shutdown_sets_flag s) as H. unfold wp in H.
  destruct (Shutdown s) as [r s1|why s1]; [|reflexivity].
  rewrite (Shutdown_again s1 H). unfold emit, ret. now rewrite H.
Qed.

(** X15. [Shutdown] closes the shutdown channel only when the flag says it
    is open: on a server whose flag and channel agree it never panics, it
    leaves them in agreement, and when it returns both say shut down. *)
Theorem Shutdown_never_closes_twice s :
  consistent s ->
  match Shutdown s with
  | Ret err s' => err = None /\ shutdown s' = true /\ shutdownCh s' = true
  | Halt why s' => why = Blocked /\ shutdown s' = true /\ shutdownCh s' = true
  end.
Proof.
  unfold consistent. intros Hc.
  destruct (shutdown s) eqn:Hs.
  - rewrite (Shutdown_again s Hs). cbn. auto.
  - run_Shutdown. rewrite Hs, <- Hc. cbn.
    repeat next_case; auto.
Qed.

Lemma Shutdown_never_closes_twice_witness :
  match Shutdown (blank []) with
  | Ret err s' => err = None /\ shutdown s' = true /\ shutdownCh s' = true
  | Halt why s' => why = Blocked /\ shutdown s' = true /\ shutdownCh s' = true
  end.
Proof.
  apply (Shutdown_never_closes_twice (blank [])). reflexivity.
Defined.



End LifecycleFacts.

(** ** The jobs of the agent *)
Module AgentFacts.
Import Agent.

Lemma statusOf_values job :
  statusOf job = Running \/ statusOf job = Success \/ statusOf job = Failed.
Proof.
  unfold statusOf. destruct (IsZero (FinishedAt job)); [auto|].
  destruct (Success_ job); cbn; auto.
Qed.

Lemma statusOf_Running job :
  (statusOf job =? Running) = IsZero (FinishedAt job).
Proof.
  unfold statusOf. destruct (IsZero (FinishedAt job)); [reflexivity|].
  destruct (Success_ job); reflexivity.
Qed.

(** X18. [Status] gives -1 for a job without an agent, without asking
    the store.  Otherwise it asks the store once for the job of that name;
    whatever error the store gives along, a nil job makes it panic and a
    stored job gives Running if it has not finished, else Success or Failed
    by its success flag.  So [Status] never gives PartialyFailed. *)
Theorem Status_never_partial j w :
  (Agent j = false -> Status j w = Ret (-1) w)
  /\
  (Agent j = true ->
   forall job err rest,
     script w = GetJobAns job err :: rest ->
     Status j w
     = match job with
       | None => Halt Panic
       | Some stored =>
           Ret (if IsZero (FinishedAt stored) then Running
                else if Success_ stored then Success else Failed)
       end {| running := running w; lock := lock w; script := rest;
              trace := trace w ++ [Store_GetJob (Name j)] |})
  /\
  (forall status w', Status j w = Ret status w' -> status <> PartialyFailed).
Proof.
  split; [|split].
  - intros Ha. unfold Status. now rewrite Ha.
  - intros Ha job err rest Hs.
    unfold Status, store_GetJob, bind, emit, answer. rewrite Ha. cbn.
    rewrite Hs. cbn. destruct job as [stored|]; [|reflexivity].
    cbn. unfold statusOf.
    destruct (IsZero (FinishedAt stored)); [reflexivity|].
    destruct (Success_ stored); reflexivity.
  - intros status w'. unfold Status. destruct (Agent j); cbn [negb].
    + unfold store_GetJob, bind, emit, answer. cbn.
      destruct (script w) as [|[[job|] err|err|err] rest]; cbn;
        try discriminate.
      intros [= <- _]. pose proof (statusOf_values job) as Hv.
      unfold Running, Success, Failed, PartialyFailed in *. lia.
    + intros [= <- _]. discriminate.
Qed.

Lemma Status_never_partial_witness :
  Status nightly (idle [GetJobAns (Some weekly) (Some ErrKeyNotFound)])
  = Ret Success
        {| running := false; lock := None; script := [];
           trace := [Store_GetJob "nightly"] |}
  /\
  Status nightly (idle [GetJobAns None None])
  = Halt Panic
         {| running := false; lock := None; script := [];
            trace := [Store_GetJob "nightly"] |}.
Proof.
  split.
  - apply (proj1 (proj2 (Status_never_partial nightly
                           (idle [GetJobAns (Some weekly) (Some ErrKeyNotFound)])))
             eq_refl (Some weekly) (Some ErrKeyNotFound) [] eq_refl).
  - apply (proj1 (proj2 (Status_never_partial nightly
                           (idle [GetJobAns None None])))
             eq_refl None None [] eq_refl).
Defined.

(** X19. [isRunnable] says no only for a job in store that has not
    finished, under the policy "forbid"; a finished job, and any other
    policy, the unknown ones included, is runnable.  The store's error is
    not looked at. *)
Theorem isRunnable_decides j job err rest w :
  Agent j = true ->
  script w = GetJobAns (Some job) err :: rest ->
  exists w',
    isRunnable j w
    = Ret (negb (IsZero (FinishedAt job)
                 && (Concurrency j =? ConcurrencyForbid)%string)) w' /\
    script w' = rest.
Proof.
  intros Ha Hs.
  unfold isRunnable, Status, store_GetJob, bind at 1 2 3, emit, answer.
  rewrite Ha. cbn. rewrite Hs. cbn. rewrite statusOf_Running.
  destruct (IsZero (FinishedAt job)); cbn; [|eauto].
  destruct (Concurrency j =? ConcurrencyAllow)%string eqn:Hallow.
  - apply String.eqb_eq in Hallow. rewrite Hallow. cbn. eauto.
  - destruct (Concurrency j =? ConcurrencyForbid)%string; cbn; eauto.
Qed.

Lemma isRunnable_decides_witness :
  exists w',
    isRunnable nightly (idle [GetJobAns (Some nightly) None])
    = Ret (negb (IsZero (FinishedAt nightly)
                 && (Concurrency nightly =? ConcurrencyForbid)%string)) w' /\
    script w' = [].
Proof.
  apply (isRunnable_decides nightly nightly None []
           (idle [GetJobAns (Some nightly) None]));
    reflexivity.
Defined.

(** X20. [Run] holds the job's mutex while it works and gives it back
    when it returns and when it panics.  It calls nothing for a job that
    is disabled or has no agent; otherwise it asks the store once and then
    either runs the query, once, or logs that it skips the execution. *)
Theorem Run_runs_once_and_unlocks j w :
  running w = false ->
  match Run j w with
  | Ret _ w' =>
      running w' = false /\
      ((Agent j && negb (Disabled j) = false /\ trace w' = trace w) \/
       (Agent j && negb (Disabled j) = true /\
        (trace w' = trace w ++ runCalls j \/
         trace w' = trace w ++ skipCalls j)))
  | Halt why w' =>
      Agent j && negb (Disabled j) = true /\
      ((why = Panic /\ running w' = false) \/
       (why = Blocked /\ running w' = true))
  end.
Proof.
  intros Hr.
  unfold Run, running_Lock, bind at 1. rewrite Hr.
  unfold deferred, running_Unlock.
  destruct (Agent j) eqn:Ha; [destruct (Disabled j)|]; cbn [andb negb];
    try (cbn; auto; fail).
  unfold isRunnable, Status, store_GetJob, bind, emit, answer, ret, halt.
  rewrite Ha. cbn.
  destruct (script w) as [|[[job|] err|err|err] rest]; cbn; auto.
  rewrite statusOf_Running.
  destruct (IsZero (FinishedAt job)) eqn:Hz; cbn.
  - destruct (Concurrency j =? ConcurrencyAllow)%string; cbn.
    + rewrite <- !app_assoc. cbn. auto.
    + destruct (Concurrency j =? ConcurrencyForbid)%string; cbn;
        rewrite <- !app_assoc; cbn; auto.
      unfold statusOf. rewrite Hz. auto.
  - rewrite <- !app_assoc. cbn. auto.
Qed.

Lemma Run_runs_once_and_unlocks_witness :
  match Run weekly (idle [GetJobAns (Some weekly) None]) with
  | Ret _ w' =>
      running w' = false /\
      ((Agent weekly && negb (Disabled weekly) = false /\
        trace w' = trace (idle [GetJobAns (Some weekly) None])) \/
       (Agent weekly && negb (Disabled weekly) = true /\
        (trace w' = trace (idle [GetJobAns (Some weekly) None])
                      ++ runCalls weekly \/
         trace w' = trace (idle [GetJobAns (Some weekly) None])
                      ++ skipCalls weekly)))
  | Halt why w' =>
      Agent weekly && negb (Disabled weekly) = true /\
      ((why = Panic /\ running w' = false) \/
       (why = Blocked /\ running w' = true))
  end.
Proof.
  apply (Run_runs_once_and_unlocks weekly
           (idle [GetJobAns (Some weekly) None])).
  reflexivity.
Defined.


(** X22. After a [Lock] that succeeded, [Unlock] does not panic: it
    unlocks the lock [Lock] made, on the key of the job under the
    keyspace. *)
Theorem Unlock_after_Lock keyspace j w w1 :
  Lock keyspace j w = Ret None w1 ->
  lock w1 = Some (lockKey keyspace j) /\
  match Unlock j w1 with
  | Ret _ w2 => trace w2 = trace w1 ++ [Locker_Unlock (lockKey keyspace j)]
  | Halt why _ => why = Blocked
  end.
Proof.
  unfold Lock, Unlock.
  destruct (Agent j); cbn [negb]; [|discriminate].
  unfold bind, emit, answer, set_lock, ret, halt. cbn.
  destruct (script w) as [|[job err|[err|]|err] rest]; cbn; try discriminate.
  destruct rest as [|[job err|err|[err|]] rest]; cbn; try discriminate.
  intros [= <-]. cbn. split; [reflexivity|].
  destruct rest as [|[job err|err|err] rest]; cbn; auto.
Qed.

Lemma Unlock_after_Lock_witness :
  lock {| running := false; lock := Some (lockKey "udup" nightly);
          script := [LockerAns None];
          trace := [Store_NewLock (lockKey "udup" nightly);
                    Locker_Lock (lockKey "udup" nightly)] |}
  = Some (lockKey "udup" nightly) /\
  match Unlock nightly
          {| running := false; lock := Some (lockKey "udup" nightly);
             script := [LockerAns None];
             trace := [Store_NewLock (lockKey "udup" nightly);
                       Locker_Lock (lockKey "udup" nightly)] |} with
  | Ret _ w2 =>
      trace w2
      = trace {| running := false; lock := Some (lockKey "udup" nightly);
                 script := [LockerAns None];
                 trace := [Store_NewLock (lockKey "udup" nightly);
                           Locker_Lock (lockKey "udup" nightly)] |}
          ++ [Locker_Unlock (lockKey "udup" nightly)]
  | Halt why _ => why = Blocked
  end.
Proof.
  apply (Unlock_after_Lock "udup" nightly
           (idle [NewLockAns None; LockerAns None; LockerAns None])).
  reflexivity.
Defined.

End AgentFacts.

(** ** The base utilities *)
Module BaseFacts.
Import Base.

Lemma StringContainsAll_range_spec Contains s substrings found :
  StringContainsAll_range Contains s substrings found
  = (found || existsb nonEmpty substrings)
    && forallb (fun x => negb (nonEmpty x) || Contains s x) substrings.
Proof.
  revert found. induction substrings as [|x rest IH]; intros found; cbn.
  - now rewrite orb_false_r, andb_true_r.
  - unfold nonEmpty at 1 3. destruct (x =? "")%string; cbn.
    + apply IH.
    + destruct (Contains s x); cbn.
      * rewrite IH. now rewrite orb_true_r.
      * now rewrite andb_false_r.
Qed.

(** X23. [StringContainsAll] is true exactly when some substring given
    is not empty and every substring that is not empty is contained in
    [s]; empty substrings are passed over, so with none or only empty
    ones it is false. *)
Theorem StringContainsAll_spec Contains s substrings :
  StringContainsAll Contains s substrings
  = existsb nonEmpty substrings
    && forallb (fun x => negb (nonEmpty x) || Contains s x) substrings.
Proof.
  unfold StringContainsAll. now rewrite StringContainsAll_range_spec.
Qed.

End BaseFacts.
